(** * Nidhogg: process and module utilities

    A shallow embedding of [Nidhogg/ProcessUtils.hpp] and
    [Nidhogg/ModuleUtils.hpp], with the properties of the protected-process
    registry, the object-open access filter, the process hider, the
    privilege elevator and the remote module patcher.

    Conventions.
    - C++ integers are [Z]; conversions to a fixed width are written out
      ([to_ULONG], [to_UINT64]).
    - Code that can read or write outside what it owns returns [option]:
      [None] stands for the undefined behaviour (in the kernel, a bug check)
      of the C++ source at that point.
    - What the kernel routines called by the driver answer is given by a
      record ([Kernel]); constants of the Windows headers that these
      sources use without defining them are section variables. *)

From stdpp Require Import gmap list strings.
From Stdlib Require Import ZArith Lia.

Local Open Scope Z_scope.

(** ** Fixed-width integers and status codes *)

Definition to_ULONG (z : Z) : Z := z mod 2 ^ 32.
Definition to_UINT64 (z : Z) : Z := z mod 2 ^ 64.

(** [NTSTATUS] is a signed 32-bit [LONG]. *)
Definition NTSTATUS := Z.
Definition STATUS_SUCCESS : NTSTATUS := 0.
(** [((NTSTATUS)0xC0000001L)] *)
Definition STATUS_UNSUCCESSFUL : NTSTATUS := 0xC0000001 - 2 ^ 32.
Definition NT_SUCCESS (s : NTSTATUS) : bool := 0 <=? s.

(** ** ProcessUtils.hpp: definitions *)

Definition SYSTEM_PROCESS_PID : Z := 4.
Definition PROCESS_TERMINATE : Z := 1.
Definition PROCESS_CREATE_THREAD : Z := 0x2.
Definition PROCESS_VM_READ : Z := 0x10.
Definition PROCESS_VM_OPERATION : Z := 8.

(** ** The protected-process registry *)

(** [pGlobals.Processes]: the array [Pids] and the counter [PidsCount].
    Their declaration is in a header outside these sources; the array has
    [MAX_PIDS] cells, and the counter is an integer that the loops compare
    with an [int] index (modelled without wrap-around, which would need
    more than 2^31 increments). *)
Record ProcessesList := {
  Pids : list Z;
  PidsCount : Z
}.

(** The three registry functions share one loop shape:
    [for (int i = 0; i < bound; i++) if (Pids[i] == v) ...].
    [scan pids v i n] runs [n] iterations from index [i] and gives the
    first index whose cell equals [v]; [Some None] when the loop runs to
    its end; [None] when a cell outside the array is read. *)
Fixpoint scan (pids : list Z) (v : Z) (i n : nat) : option (option nat) :=
  match n with
  | O => Some None
  | S n' =>
      x ← pids !! i;
      if bool_decide (x = v) then Some (Some i) else scan pids v (S i) n'
  end.

Section registry.
(** The capacity of the array, a constant of the header that declares it. *)
Variable MAX_PIDS : nat.

Definition FindProcess (pid : Z) (g : ProcessesList) : option bool :=
  r ← scan (Pids g) pid 0 (Z.to_nat (PidsCount g));
  Some (match r with Some _ => true | None => false end).

Definition AddProcess (pid : Z) (g : ProcessesList)
  : option (bool * ProcessesList) :=
  r ← scan (Pids g) 0 0 MAX_PIDS;
  Some (match r with
        | Some i =>
            (true, {| Pids := <[i := pid]> (Pids g);
                      PidsCount := PidsCount g + 1 |})
        | None => (false, g)
        end).

Definition RemoveProcess (pid : Z) (g : ProcessesList)
  : option (bool * ProcessesList) :=
  r ← scan (Pids g) pid 0 (Z.to_nat (PidsCount g));
  Some (match r with
        | Some i =>
            (true, {| Pids := <[i := 0]> (Pids g);
                      PidsCount := PidsCount g - 1 |})
        | None => (false, g)
        end).

(** The registry at driver load: every cell empty. *)
Definition empty_registry : ProcessesList :=
  {| Pids := replicate MAX_PIDS 0; PidsCount := 0 |}.

(** Sequences of registry calls, as the control path issues them. *)
Inductive call :=
| Add (pid : Z)
| Remove (pid : Z)
| Find (pid : Z).

Definition exec (c : call) (g : ProcessesList)
  : option (bool * ProcessesList) :=
  match c with
  | Add pid => AddProcess pid g
  | Remove pid => RemoveProcess pid g
  | Find pid => b ← FindProcess pid g; Some (b, g)
  end.

(** [run cs g]: the results of the calls, in order, and the last state. *)
Fixpoint run (cs : list call) (g : ProcessesList)
  : option (list bool * ProcessesList) :=
  match cs with
  | [] => Some ([], g)
  | c :: cs' =>
      '(b, g') ← exec c g;
      '(bs, g'') ← run cs' g';
      Some (b :: bs, g'')
  end.

(** Every occupied cell lies below index [PidsCount], where the scans of
    [FindProcess] and [RemoveProcess] look. *)
Definition covered (g : ProcessesList) : bool :=
  forallb (Z.eqb 0) (drop (Z.to_nat (PidsCount g)) (Pids g)).

(** What a caller has to respect for the registry to behave as a set:
    a pid that is added is not zero (zero marks an empty cell) and is not
    stored already ([AddProcess] does not look for duplicates), and after
    each call the occupied cells are still below [PidsCount]. *)
Definition call_ok (c : call) (g : ProcessesList) : bool :=
  match c with
  | Add pid => negb (pid =? 0) && negb (bool_decide (pid ∈ Pids g))
  | _ => true
  end.

Fixpoint disciplined (cs : list call) (g : ProcessesList) : bool :=
  match cs with
  | [] => true
  | c :: cs' =>
      call_ok c g &&
      match exec c g with
      | Some (_, g') => covered g' && disciplined cs' g'
      | None => false
      end
  end.

(** The number of occupied cells. *)
Definition occupied (g : ProcessesList) : nat :=
  length (filter (λ x, x ≠ 0) (Pids g)).

(** The array has its declared size and the counter does not run ahead
    of the occupied cells. *)
Definition registry_wf (g : ProcessesList) : Prop :=
  length (Pids g) = MAX_PIDS ∧ 0 ≤ PidsCount g ≤ Z.of_nat (occupied g).

(** The registry stores exactly the pids [l], without a gap, in its first
    cells, in the order they were added. *)
Definition packed (l : list Z) (g : ProcessesList) : Prop :=
  Pids g = l ++ replicate (MAX_PIDS - length l) 0 ∧
  PidsCount g = Z.of_nat (length l) ∧
  (length l ≤ MAX_PIDS)%nat ∧ (0 ∉ l) ∧ NoDup l.
End registry.


(** ** The kernel around the driver *)

(** Kernel memory, as 8-byte cells by address.  A read or write of an
    address that is not mapped is a fault ([None]). *)
Definition load (m : gmap Z Z) (a : Z) : option Z := m !! a.

Definition store (m : gmap Z Z) (a v : Z) : option (gmap Z Z) :=
  match m !! a with
  | Some _ => Some (<[a := v]> m)
  | None => None
  end.

(** A 32-bit read ([UINT32]) at [a]: the low half of the cell at [a]. *)
Definition load32 (m : gmap Z Z) (a : Z) : option Z :=
  to_ULONG <$> m !! a.

(** A module in a process's load-order list ([LDR_DATA_TABLE_ENTRY]):
    the characters of [FullDllName.Buffer], [FullDllName.Length] in bytes,
    and [DllBase]. *)
Record LDR_DATA_TABLE_ENTRY := {
  FullDllName_Buffer : list Z;
  FullDllName_Length : Z;
  DllBase : Z
}.

(** What [PatchModule] reads of the image mapped at a module base: the two
    signatures, the export directory entry of the optional header, and the
    three export tables ([names j] is the string at
    [moduleImageBase + names[j]]). *)
Record image := {
  e_magic : Z;
  nt_Signature : Z;
  export_VirtualAddress : Z;
  NumberOfNames : Z;
  names : Z → list Z;
  ordinals : Z → Z;
  addresses : Z → Z
}.

(** The three pool buffers of [PatchModule]. *)
Inductive buffer := buf_moduleName | buf_functionName | buf_patch.

Global Instance buffer_eq_dec : EqDecision buffer.
Proof. solve_decision. Defined.

(** The answers of the kernel routines the driver calls.  Each field is
    what the routine of that name gives back; the driver's own globals
    ([dimGlobals]) are the two [_loaded] flags. *)
Record Kernel := {
  (** status and [dwBuildNumber] *)
  RtlGetVersion : NTSTATUS * Z;
  PsGetCurrentProcess : Z;
  (** the id of a process object *)
  PsGetProcessId : Z → Z;
  (** status and process object; a success status comes with a reference *)
  PsLookupProcessByProcessId : Z → NTSTATUS * Z;
  ZwProtectVirtualMemory_loaded : bool;
  MmCopyVirtualMemory_loaded : bool;
  (** whether the allocation for a buffer gives a non-null pointer *)
  ExAllocatePool : buffer → bool;
  (** whether the process has a PEB *)
  PsGetProcessPeb : Z → bool;
  (** [targetPeb->LoaderData] after so many delays: null, or the modules of
      [InLoadOrderModuleList] in list order *)
  LoaderData : nat → option (list LDR_DATA_TABLE_ENTRY);
  image_at : Z → image;
  (** status and handle *)
  ObOpenObjectByPointer : Z → NTSTATUS * Z;
  (** handle, base, size, protection: status, and what the routine leaves
      in its in/out base and size and in the old protection *)
  ZwProtectVirtualMemory : Z → Z → Z → Z → NTSTATUS * Z * Z * Z;
  MmCopyVirtualMemory : NTSTATUS
}.

(** What a run does to the kernel, in order: references taken and
    released, pool allocations and frees, address-space attach and detach,
    delays, handles, protection changes and cross-process copies (with
    their status), and the [memcpy]s into the pool buffers. *)
Inductive event :=
| EvReference (obj : Z)
| EvDereference (obj : Z)
| EvAlloc (b : buffer) (size : Z)
| EvFree (b : buffer)
| EvMemcpy (dst : buffer) (n : Z)
| EvAttach (proc : Z)
| EvDetach
| EvDelay
| EvOpen (proc h : Z)
| EvClose (h : Z)
| EvProtect (h base size prot : Z) (status : NTSTATUS)
| EvCopy (data : list Z) (proc base len : Z) (status : NTSTATUS).

(** ** The access filter *)

Inductive OB_PREOP_CALLBACK_STATUS := OB_PREOP_SUCCESS.

(** The fields of [OB_PRE_OPERATION_INFORMATION] the callback touches;
    [DesiredAccess] is
    [Parameters->CreateHandleInformation.DesiredAccess], a 32-bit mask. *)
Record OB_PRE_OPERATION_INFORMATION := {
  KernelHandle : bool;
  Object : Z;
  DesiredAccess : Z
}.

(** [mask &= ~right] on a 32-bit mask: [~right] is an [int], converted to
    the unsigned type of the mask. *)
Definition clear_access (mask right : Z) : Z :=
  Z.land mask (to_ULONG (Z.lnot right)).

Section access_filter.
(** A constant of the kernel headers, not of these sources. *)
Variable PROCESS_DUP_HANDLE : Z.
Variable k : Kernel.

(** The lock ([AutoLock locker(pGlobals.Lock)]) is held around the
    lookup and the updates; one invocation is modelled, so it does not
    appear. *)
Definition OnPreOpenProcess (g : ProcessesList)
    (Info : OB_PRE_OPERATION_INFORMATION)
  : option (OB_PREOP_CALLBACK_STATUS * OB_PRE_OPERATION_INFORMATION) :=
  if KernelHandle Info then Some (OB_PREOP_SUCCESS, Info)
  else
    let Process := Object Info in
    let pid := to_ULONG (PsGetProcessId k Process) in
    found ← FindProcess pid g;
    if found : bool then
      let a := DesiredAccess Info in
      let a := clear_access a PROCESS_VM_OPERATION in
      let a := clear_access a PROCESS_VM_READ in
      let a := clear_access a PROCESS_CREATE_THREAD in
      let a := clear_access a PROCESS_DUP_HANDLE in
      let a := clear_access a PROCESS_TERMINATE in
      Some (OB_PREOP_SUCCESS,
            {| KernelHandle := KernelHandle Info;
               Object := Object Info;
               DesiredAccess := a |})
    else Some (OB_PREOP_SUCCESS, Info).

(** The rights the filter takes away, as one mask. *)
Definition filtered_rights : Z :=
  Z.lor PROCESS_VM_OPERATION
    (Z.lor PROCESS_VM_READ
       (Z.lor PROCESS_CREATE_THREAD
          (Z.lor PROCESS_DUP_HANDLE PROCESS_TERMINATE))).
End access_filter.

(** ** The offset resolver, the process hider and the privilege elevator *)

(** The result of a loop that has no bound of its own: it is run with
    fuel, and [OutOfFuel] is not an outcome of the program. *)
Inductive outcome (A : Type) :=
| Done (a : A)
| Fault
| OutOfFuel.
Arguments Done {A} a.
Arguments Fault {A}.
Arguments OutOfFuel {A}.

(** A [LIST_ENTRY] at address [a] has [Flink] in the cell at [a] and
    [Blink] in the cell at [a + 8]. *)
Definition RemoveProcessLinks (current : Z) (m : gmap Z Z)
  : option (gmap Z Z) :=
  previous ← load m (current + 8);
  next ← load m current;
  m ← store m previous next;
  m ← store m (next + 8) previous;
  m ← store m (current + 8) current;
  store m current current.

Section process_utils.
Variable k : Kernel.

Definition GetActiveProcessLinksOffset : Z :=
  let activeProcessLinks := to_ULONG STATUS_UNSUCCESSFUL in
  let '(result, dwBuildNumber) := RtlGetVersion k in
  if NT_SUCCESS result then
    if bool_decide (dwBuildNumber ∈ [10240; 10586; 14393; 18362; 18363])
    then 0x2f0
    else if bool_decide (dwBuildNumber ∈ [15063; 16299; 17134; 17763])
    then 0x2e8
    else 0x448
  else activeProcessLinks.

Definition GetTokenOffset : Z :=
  let tokenOffset := to_UINT64 STATUS_UNSUCCESSFUL in
  let '(result, dwBuildNumber) := RtlGetVersion k in
  if NT_SUCCESS result then
    if bool_decide (dwBuildNumber ∈ [18362; 18363])
    then 0x360
    else if bool_decide (dwBuildNumber ∈
              [10240; 10586; 14393; 15063; 16299; 17134; 17763])
    then 0x358
    else 0x4b8
  else tokenOffset.

(** The [while] loop of [HideProcess].  [visited] is not program state:
    it records the process objects whose pid was read, in order.  The
    three pointers of the source are all derived from [currentEProcess],
    so only this one is carried. *)
Fixpoint HideProcess_loop (fuel : nat) (StartProcess currentEProcess : Z)
    (pidOffset listOffset pid : Z) (m : gmap Z Z) (visited : list Z)
  : outcome (NTSTATUS * gmap Z Z * list Z) :=
  if StartProcess =? currentEProcess
  then Done (STATUS_SUCCESS, m, visited)
  else
    match fuel with
    | O => OutOfFuel
    | S fuel' =>
        let currentPid := to_UINT64 (currentEProcess + pidOffset) in
        let currentList := to_UINT64 (currentEProcess + listOffset) in
        match load32 m currentPid with
        | None => Fault
        | Some p =>
            let visited := visited ++ [currentEProcess] in
            if p =? pid then
              match RemoveProcessLinks currentList m with
              | Some m' => Done (STATUS_SUCCESS, m', visited)
              | None => Fault
              end
            else
              match load m currentList with
              | None => Fault
              | Some Flink =>
                  HideProcess_loop fuel' StartProcess
                    (to_UINT64 (Flink - listOffset))
                    pidOffset listOffset pid m visited
              end
        end
    end.

Definition HideProcess (fuel : nat) (pid : Z) (m : gmap Z Z)
  : outcome (NTSTATUS * gmap Z Z * list Z) :=
  let pidOffset := GetActiveProcessLinksOffset in
  if pidOffset =? to_ULONG STATUS_UNSUCCESSFUL
  then Done (STATUS_UNSUCCESSFUL, m, [])
  else
    let listOffset := to_ULONG (pidOffset + 8) in
    let currentEProcess := PsGetCurrentProcess k in
    let currentList := to_UINT64 (currentEProcess + listOffset) in
    let currentPid := to_UINT64 (currentEProcess + pidOffset) in
    match load32 m currentPid with
    | None => Fault
    | Some p =>
        if p =? pid then
          match RemoveProcessLinks currentList m with
          | Some m' => Done (STATUS_SUCCESS, m', [currentEProcess])
          | None => Fault
          end
        else
          let StartProcess := currentEProcess in
          match load m currentList with
          | None => Fault
          | Some Flink =>
              HideProcess_loop fuel StartProcess
                (to_UINT64 (Flink - listOffset))
                pidOffset listOffset pid m [currentEProcess]
          end
    end.

(** [ElevateProcess] gives its status, the memory it leaves and the
    references it took and released. *)
Definition ElevateProcess (targetPid : Z) (m : gmap Z Z)
  : option (NTSTATUS * gmap Z Z * list event) :=
  let '(status, targetProcess) := PsLookupProcessByProcessId k targetPid in
  let tokenOffset := GetTokenOffset in
  if negb (NT_SUCCESS status) then Some (status, m, [])
  else
    let log := [EvReference targetProcess] in
    let '(status, privilegedProcess) :=
      PsLookupProcessByProcessId k SYSTEM_PROCESS_PID in
    if negb (NT_SUCCESS status)
    then Some (status, m, log ++ [EvDereference targetProcess])
    else
      let log := log ++ [EvReference privilegedProcess] in
      token ← load m (to_UINT64 (privilegedProcess + tokenOffset));
      m' ← store m (to_UINT64 (targetProcess + tokenOffset)) token;
      Some (status, m',
            log ++ [EvDereference privilegedProcess;
                    EvDereference targetProcess]).
End process_utils.

(** The references a run took and the references it released. *)
Definition references (t : list event) : list Z :=
  omap (λ e, match e with EvReference o => Some o | _ => None end) t.
Definition dereferences (t : list event) : list Z :=
  omap (λ e, match e with EvDereference o => Some o | _ => None end) t.

(** ** Circular doubly linked lists in memory *)

(** [seg m p l n]: the entries [l] are linked in this order, the first one
    back to [p] and the last one on to [n]. *)
Fixpoint seg (m : gmap Z Z) (p : Z) (l : list Z) (n : Z) : Prop :=
  match l with
  | [] => True
  | x :: t =>
      m !! x = Some (hd n t) ∧ m !! (x + 8) = Some p ∧ seg m x t n
  end.

(** [ring m l]: the entries [l] form a circular list, in this order. *)
Definition ring (m : gmap Z Z) (l : list Z) : Prop :=
  match l with
  | [] => True
  | a :: t => seg m (List.last t a) (a :: t) a
  end.

(** The entries are different, and no [Flink] cell of one is the [Blink]
    cell of another. *)
Definition separate (l : list Z) : Prop :=
  NoDup l ∧ ∀ x y, x ∈ l → y ∈ l → x ≠ y + 8.


(** ** ModuleUtils.hpp *)

(** [ModuleToPatch]: the fields [PatchModule] reads.  Strings are lists of
    character codes; a string ends at its first zero, or where the list
    ends. *)
Record PatchedModule := {
  Pid : Z;
  Patch : list Z;
  FunctionName : list Z;
  ModuleName : list Z
}.

Fixpoint strlen (s : list Z) : Z :=
  match s with
  | [] => 0
  | c :: t => if c =? 0 then 0 else 1 + strlen t
  end.

Definition wcslen : list Z → Z := strlen.

(** The characters of a string with its terminator: what
    [memcpy(dst, s, strlen(s) + 1)] copies. *)
Definition c_str (s : list Z) : list Z :=
  take (Z.to_nat (strlen s)) s ++ [0].

(** [memcpy(dst, src, n)] on a destination and a source of known extent;
    [None] when [n] runs past the end of either. *)
Definition memcpy (dst src : list Z) (n : Z) : option (list Z) :=
  if (n <=? Z.of_nat (length dst)) && (n <=? Z.of_nat (length src))
  then Some (take (Z.to_nat n) src ++ drop (Z.to_nat n) dst)
  else None.

(** Case folding of the comparison routines, on the ASCII letters. *)
Definition tolower (c : Z) : Z :=
  if (65 <=? c) && (c <=? 90) then c + 32 else c.

Fixpoint _stricmp (s1 s2 : list Z) : Z :=
  let c2 := tolower (hd 0 s2) in
  match s1 with
  | [] => 0 - c2
  | c1 :: t1 =>
      let c1 := tolower c1 in
      if c1 =? c2
      then if c1 =? 0 then 0 else _stricmp t1 (tl s2)
      else c1 - c2
  end.

Fixpoint _wcsnicmp (s1 s2 : list Z) (count : Z) : Z :=
  if count <=? 0 then 0
  else
    let c2 := tolower (hd 0 s2) in
    match s1 with
    | [] => 0 - c2
    | c1 :: t1 =>
        let c1 := tolower c1 in
        if c1 =? c2
        then if c1 =? 0 then 0 else _wcsnicmp t1 (tl s2) (count - 1)
        else c1 - c2
    end.

(** The walk over [InLoadOrderModuleList]: [moduleImageBase] is the
    [DllBase] of the first entry whose name matches, and stays null when
    there is none. *)
Fixpoint find_module (entries : list LDR_DATA_TABLE_ENTRY)
    (moduleName : list Z) : Z :=
  match entries with
  | [] => 0
  | pEntry :: rest =>
      if _wcsnicmp (FullDllName_Buffer pEntry) moduleName
           (to_UINT64 (FullDllName_Length pEntry / 2 - 4)) =? 0
      then DllBase pEntry
      else find_module rest moduleName
  end.

(** The walk over the export names, from index [j], [n] names to go. *)
Fixpoint find_export (img : image) (functionName : list Z) (j : Z) (n : nat)
  : option Z :=
  match n with
  | O => None
  | S n' =>
      if _stricmp (names img j) functionName =? 0 then Some j
      else find_export img functionName (j + 1) n'
  end.

(** [char testPatch[6]], as bytes. *)
Definition testPatch : list Z := [0xB8; 0x57; 0x00; 0x07; 0x80; 0xC3].

(** Where the search for the function to patch ends: at one of the
    [goto CleanUp], at the end of the export loop, or at export [j] of the
    module at [moduleImageBase]. *)
Inductive located :=
| Abort
| NoMatch
| Resolved (moduleImageBase j : Z).

Section module_utils.
(** Constants of the Windows headers. *)
Variables IMAGE_DOS_SIGNATURE IMAGE_NT_SIGNATURE : Z.
Variable PAGE_EXECUTE_READWRITE : Z.
Variable k : Kernel.

(** The wait for [LoaderData]: [n] tries left after [i] delays; gives
    the number of delays made. *)
Fixpoint wait_loader (n i : nat) : nat :=
  match n with
  | O => i
  | S n' =>
      match LoaderData k i with
      | None => wait_loader n' (S i)
      | Some _ => i
      end
  end.

Definition locate (TargetProcess : Z) (moduleName functionName : list Z)
  : nat * located :=
  if negb (PsGetProcessPeb k TargetProcess) then (O, Abort)
  else
    let delays := wait_loader 10 0 in
    match LoaderData k delays with
    | None => (delays, Abort)
    | Some modules =>
        let moduleImageBase := find_module modules moduleName in
        if moduleImageBase =? 0 then (delays, Abort)
        else
          let img := image_at k moduleImageBase in
          if negb (e_magic img =? IMAGE_DOS_SIGNATURE)
          then (delays, Abort)
          else if negb (nt_Signature img =? IMAGE_NT_SIGNATURE)
          then (delays, Abort)
          else if export_VirtualAddress img =? 0 then (delays, Abort)
          else
            match find_export img functionName 0
                    (Z.to_nat (NumberOfNames img)) with
            | None => (delays, NoMatch)
            | Some j => (delays, Resolved moduleImageBase j)
            end
    end.

(** The body of the export loop at the matching name. *)
Definition apply_patch (TargetProcess moduleImageBase j : Z)
  : NTSTATUS * list event :=
  let img := image_at k moduleImageBase in
  let '(ost, hTargetProcess) := ObOpenObjectByPointer k TargetProcess in
  if negb (ost =? STATUS_SUCCESS) then (STATUS_UNSUCCESSFUL, [])
  else
    let patchLen := 6 in
    let functionAddress :=
      moduleImageBase + addresses img (ordinals img j) in
    let '(status, functionAddress', patchLen', oldProtection) :=
      ZwProtectVirtualMemory k hTargetProcess functionAddress patchLen
        PAGE_EXECUTE_READWRITE in
    let log :=
      [EvOpen TargetProcess hTargetProcess;
       EvProtect hTargetProcess functionAddress patchLen
         PAGE_EXECUTE_READWRITE status] in
    if negb (status =? STATUS_SUCCESS)
    then (status, log ++ [EvClose hTargetProcess])
    else
      let status := MmCopyVirtualMemory k in
      let '(rst, _, _, _) :=
        ZwProtectVirtualMemory k hTargetProcess functionAddress' patchLen'
          oldProtection in
      (status,
       log ++ [EvCopy testPatch TargetProcess functionAddress' 6 status;
               EvProtect hTargetProcess functionAddress' patchLen'
                 oldProtection rst;
               EvClose hTargetProcess]).

(** From [KeStackAttachProcess] to the label [CleanUp]. *)
Definition patch_attached (TargetProcess : Z)
    (moduleName functionName : list Z) : NTSTATUS * list event :=
  let '(delays, found) := locate TargetProcess moduleName functionName in
  let log := replicate delays EvDelay in
  match found with
  | Abort => (STATUS_UNSUCCESSFUL, log)
  | NoMatch => (STATUS_SUCCESS, log)
  | Resolved moduleImageBase j =>
      let '(status, body) := apply_patch TargetProcess moduleImageBase j in
      (status, log ++ body)
  end.

Definition PatchModule (ModuleToPatch : PatchedModule)
  : option (NTSTATUS * list event) :=
  let status := STATUS_UNSUCCESSFUL in
  if negb (ZwProtectVirtualMemory_loaded k)
     || negb (MmCopyVirtualMemory_loaded k)
  then Some (status, [])
  else
    let moduleName_size := (wcslen (ModuleName ModuleToPatch) + 1) * 2 in
    if negb (ExAllocatePool k buf_moduleName) then Some (status, [])
    else
      let moduleName := c_str (ModuleName ModuleToPatch) in
      let log := [EvAlloc buf_moduleName moduleName_size;
                  EvMemcpy buf_moduleName moduleName_size] in
      let functionName_size := strlen (FunctionName ModuleToPatch) + 1 in
      if negb (ExAllocatePool k buf_functionName)
      then Some (status, log ++ [EvFree buf_moduleName])
      else
        let functionName := c_str (FunctionName ModuleToPatch) in
        let log := log ++ [EvAlloc buf_functionName functionName_size;
                           EvMemcpy buf_functionName functionName_size] in
        let patch_size := strlen (Patch ModuleToPatch) in
        if negb (ExAllocatePool k buf_patch)
        then Some (status,
                   log ++ [EvFree buf_functionName; EvFree buf_moduleName])
        else
          let log := log ++ [EvAlloc buf_patch patch_size] in
          functionName ←
            memcpy functionName (c_str (FunctionName ModuleToPatch))
              patch_size;
          let log := log ++ [EvMemcpy buf_functionName patch_size] in
          let '(lst, TargetProcess) :=
            PsLookupProcessByProcessId k (Pid ModuleToPatch) in
          let log :=
            log ++ (if NT_SUCCESS lst then [EvReference TargetProcess]
                    else []) in
          if negb (lst =? STATUS_SUCCESS) then Some (status, log)
          else
            let '(status, body) :=
              patch_attached TargetProcess moduleName functionName in
            Some (status,
                  log ++ [EvAttach TargetProcess] ++ body
                  ++ [EvDetach; EvFree buf_moduleName;
                      EvFree buf_functionName; EvFree buf_patch;
                      EvDereference TargetProcess]).
End module_utils.

(** ** Reading a run *)

(** The pool buffers that are allocated and not freed after the events
    [t], starting from the buffers [live]. *)
Fixpoint pool_live (t : list event) (live : list buffer) : list buffer :=
  match t with
  | [] => live
  | EvAlloc b _ :: t' => pool_live t' (live ++ [b])
  | EvFree b :: t' => pool_live t' (filter (λ b', b' ≠ b) live)
  | _ :: t' => pool_live t' live
  end.

(** Attaches minus detaches. *)
Fixpoint attach_depth (t : list event) : Z :=
  match t with
  | [] => 0
  | EvAttach _ :: t' => 1 + attach_depth t'
  | EvDetach :: t' => attach_depth t' - 1
  | _ :: t' => attach_depth t'
  end.

(** The cross-process copies of a run: data, target process, destination,
    length and status. *)
Definition copies (t : list event) : list (list Z * Z * Z * Z * NTSTATUS) :=
  omap (λ e, match e with
             | EvCopy d p b l s => Some (d, p, b, l, s)
             | _ => None
             end) t.

(** The protection changes of a run: handle, base, size, protection and
    status. *)
Definition protects (t : list event) : list (Z * Z * Z * Z * NTSTATUS) :=
  omap (λ e, match e with
             | EvProtect h b l p s => Some (h, b, l, p, s)
             | _ => None
             end) t.

(** The [memcpy] destinations of a run. *)
Definition memcpy_targets (t : list event) : list buffer :=
  omap (λ e, match e with EvMemcpy b _ => Some b | _ => None end) t.

(** A copy that reports success has put the first [n] bytes of [data] at
    [base] in the target, and nothing else. *)
Definition write_bytes (mem : Z → Z) (base : Z) (data : list Z) (n : Z)
  : Z → Z :=
  λ a, if (base <=? a) && (a <? base + n)
       then nth (Z.to_nat (a - base)) data 0
       else mem a.

(** The memory of process [proc], by byte, after the copies of [t] that
    report success (what a failed copy leaves behind is not modelled). *)
Fixpoint target_memory (t : list event) (proc : Z) (mem : Z → Z) : Z → Z :=
  match t with
  | [] => mem
  | EvCopy data p base len st :: t' =>
      target_memory t' proc
        (if (p =? proc) && (st =? STATUS_SUCCESS)
         then write_bytes mem base data len else mem)
  | _ :: t' => target_memory t' proc mem
  end.

(** ** A sample machine *)

Fixpoint chars (s : string) : list Z :=
  match s with
  | EmptyString => []
  | String c s' => Z.of_N (Ascii.N_of_ascii c) :: chars s'
  end.

Definition STATUS_INVALID_PARAMETER : NTSTATUS := 0xC000000D - 2 ^ 32.
Definition STATUS_ACCESS_DENIED : NTSTATUS := 0xC0000022 - 2 ^ 32.

(** Three processes: System (pid 4) and two others. *)
Definition system_process : Z := 0xFFFFA00000010000.
Definition process_1234 : Z := 0xFFFFA00000020000.
Definition process_5678 : Z := 0xFFFFA00000030000.

Definition sample_image : image := {|
  e_magic := 0x5A4D;
  nt_Signature := 0x4550;
  export_VirtualAddress := 0x2000;
  NumberOfNames := 2;
  names := λ j, if j =? 0 then chars "Bar" else
                if j =? 1 then chars "Foo" else [];
  ordinals := λ j, j;
  addresses := λ i, if i =? 0 then 0x1100 else
                    if i =? 1 then 0x1200 else 0
|}.

Definition sample_modules : list LDR_DATA_TABLE_ENTRY :=
  [ {| FullDllName_Buffer := chars "ntdll.dll";
       FullDllName_Length := 18; DllBase := 0x7FF800000000 |};
    {| FullDllName_Buffer := chars "demo.dll";
       FullDllName_Length := 16; DllBase := 0x7FF900000000 |} ].

(** A protection routine that leaves its in/out arguments as they are,
    and one that rounds them to the page, as the memory manager does. *)
Definition protect_exact (status : NTSTATUS) (h base size prot : Z)
  : NTSTATUS * Z * Z * Z :=
  (status, base, size, 0x20).
Definition protect_page (status : NTSTATUS) (h base size prot : Z)
  : NTSTATUS * Z * Z * Z :=
  (status, base / 4096 * 4096, 4096, 0x20).

Definition sample_kernel (version : NTSTATUS * Z)
    (alloc : buffer → bool) (open_status : NTSTATUS)
    (protect : Z → Z → Z → Z → NTSTATUS * Z * Z * Z)
    (copy_status : NTSTATUS) : Kernel := {|
  RtlGetVersion := version;
  PsGetCurrentProcess := process_1234;
  PsGetProcessId := λ obj,
    if obj =? system_process then 4 else
    if obj =? process_1234 then 1234 else
    if obj =? process_5678 then 5678 else 0;
  PsLookupProcessByProcessId := λ pid,
    if pid =? 4 then (STATUS_SUCCESS, system_process) else
    if pid =? 1234 then (STATUS_SUCCESS, process_1234) else
    if pid =? 5678 then (STATUS_SUCCESS, process_5678) else
    (STATUS_INVALID_PARAMETER, 0);
  ZwProtectVirtualMemory_loaded := true;
  MmCopyVirtualMemory_loaded := true;
  ExAllocatePool := alloc;
  PsGetProcessPeb := λ _, true;
  LoaderData := λ _, Some sample_modules;
  image_at := λ _, sample_image;
  ObOpenObjectByPointer := λ _, (open_status, 0x44);
  ZwProtectVirtualMemory := protect;
  MmCopyVirtualMemory := copy_status
|}.

(** Build 19041, every call succeeding. *)
Definition good_kernel : Kernel :=
  sample_kernel (STATUS_SUCCESS, 19041) (λ _, true) STATUS_SUCCESS
    (protect_exact STATUS_SUCCESS) STATUS_SUCCESS.

(** The same machine with a failing version query. *)
Definition versionless_kernel : Kernel :=
  sample_kernel (STATUS_UNSUCCESSFUL, 0) (λ _, true) STATUS_SUCCESS
    (protect_exact STATUS_SUCCESS) STATUS_SUCCESS.

(** The memory of the three processes as kernel [k] sees them: for each
    one the pid, the list entry after it (the processes form a circular
    list in the order 1234, 5678, System) and the token. *)
Definition sample_memory (k : Kernel) : gmap Z Z :=
  let po := GetActiveProcessLinksOffset k in
  let lo := po + 8 in
  let tok e := to_UINT64 (e + GetTokenOffset k) in
  list_to_map
    [ (process_1234 + po, 1234);
      (process_1234 + lo, process_5678 + lo);
      (process_1234 + lo + 8, system_process + lo);
      (tok process_1234, 0x1111);
      (process_5678 + po, 5678);
      (process_5678 + lo, system_process + lo);
      (process_5678 + lo + 8, process_1234 + lo);
      (tok process_5678, 0x2222);
      (system_process + po, 4);
      (system_process + lo, process_1234 + lo);
      (system_process + lo + 8, process_5678 + lo);
      (tok system_process, 0x5555) ].

Definition sample_request (patch : list Z) : PatchedModule := {|
  Pid := 1234;
  Patch := patch;
  FunctionName := chars "Foo";
  ModuleName := chars "demo"
|}.

(** A request that differs from [r] in its patch bytes only. *)
Definition with_patch (r : PatchedModule) (patch : list Z) : PatchedModule :=
  {| Pid := Pid r; Patch := patch;
     FunctionName := FunctionName r; ModuleName := ModuleName r |}.

(** The sample machine refusing the process handle. *)
Definition handleless_kernel : Kernel :=
  sample_kernel (STATUS_SUCCESS, 19041) (λ _, true) STATUS_ACCESS_DENIED
    (protect_exact STATUS_SUCCESS) STATUS_SUCCESS.

(** The sample machine with a protection routine that rounds to pages. *)
Definition paging_kernel : Kernel :=
  sample_kernel (STATUS_SUCCESS, 19041) (λ _, true) STATUS_SUCCESS
    (protect_page STATUS_SUCCESS) STATUS_SUCCESS.

(** A request for a process that does not exist. *)
Definition lost_request : PatchedModule := {|
  Pid := 999;
  Patch := testPatch;
  FunctionName := chars "Foo";
  ModuleName := chars "demo"
|}.

(** The events that leave the pool and the address space alone. *)
Definition neutral (e : event) : Prop :=
  match e with
  | EvAlloc _ _ | EvFree _ | EvAttach _ | EvDetach => False
  | _ => True
  end.

(** A copy of the six bytes of [testPatch]. *)
Definition copies_testPatch (c : list Z * Z * Z * Z * NTSTATUS) : Prop :=
  let '(data, _, _, len, _) := c in data = testPatch ∧ len = 6.

(** The list entries of the three sample processes, in list order, where
    build 19041 has them. *)
Definition sample_entries : list Z :=
  [process_1234 + 0x450; process_5678 + 0x450; system_process + 0x450].

(** A registry that protects pid 1234, and a request for all access to
    that process from user mode. *)
Definition sample_registry : ProcessesList :=
  {| Pids := [1234; 0; 0; 0]; PidsCount := 1 |}.
Definition sample_open : OB_PRE_OPERATION_INFORMATION :=
  {| KernelHandle := false; Object := process_1234;
     DesiredAccess := 0x1FFFFF |}.

(** ** Further readings of a state or a run *)

(** The characters of a string before its terminator. *)
Definition content (s : list Z) : list Z := take (Z.to_nat (strlen s)) s.

(** The handles a run opened and the handles it closed, in order. *)
Definition opens (t : list event) : list Z :=
  omap (λ e, match e with EvOpen _ h => Some h | _ => None end) t.
Definition closes (t : list event) : list Z :=
  omap (λ e, match e with EvClose h => Some h | _ => None end) t.

(** The number of delays of a run. *)
Definition delays (t : list event) : nat :=
  length (omap (λ e, match e with EvDelay => Some e | _ => None end) t).


(** [DesiredAccess] without the rights the filter takes away. *)
Definition filtered (PROCESS_DUP_HANDLE : Z) (mask : Z) : Z :=
  Z.land mask (Z.lnot (filtered_rights PROCESS_DUP_HANDLE)).

(** The request [Info] with another access mask. *)
Definition with_access (Info : OB_PRE_OPERATION_INFORMATION) (mask : Z)
  : OB_PRE_OPERATION_INFORMATION :=
  {| KernelHandle := KernelHandle Info; Object := Object Info;
     DesiredAccess := mask |}.

(** A registry of four cells that holds the pids 1, 2 and 3. *)
Definition three_pids : ProcessesList :=
  {| Pids := [1; 2; 3; 0]; PidsCount := 3 |}.

(** A registry of four cells that holds the pids 7, 8 and 1234. *)
Definition guarded_registry : ProcessesList :=
  {| Pids := [7; 8; 1234; 0]; PidsCount := 3 |}.

(** Two C strings that are equal up to the case of the ASCII letters. *)
Definition same_name (s1 s2 : list Z) : Prop :=
  tolower <$> content s1 = tolower <$> content s2.

(** The sample machine with loader data that is there only after [n]
    delays. *)
Definition slow_loader (n : nat) : Kernel := {|
  RtlGetVersion := RtlGetVersion good_kernel;
  PsGetCurrentProcess := PsGetCurrentProcess good_kernel;
  PsGetProcessId := PsGetProcessId good_kernel;
  PsLookupProcessByProcessId := PsLookupProcessByProcessId good_kernel;
  ZwProtectVirtualMemory_loaded := true;
  MmCopyVirtualMemory_loaded := true;
  ExAllocatePool := ExAllocatePool good_kernel;
  PsGetProcessPeb := PsGetProcessPeb good_kernel;
  LoaderData := λ i, if (i <? n)%nat then None else Some sample_modules;
  image_at := image_at good_kernel;
  ObOpenObjectByPointer := ObOpenObjectByPointer good_kernel;
  ZwProtectVirtualMemory := ZwProtectVirtualMemory good_kernel;
  MmCopyVirtualMemory := MmCopyVirtualMemory good_kernel
|}.

(** A request for a function that the sample module does not export. *)
Definition missing_request : PatchedModule := {|
  Pid := 1234;
  Patch := testPatch;
  FunctionName := chars "Qux";
  ModuleName := chars "demo"
|}.
(** * Properties *)

(** [x ∉ [a; b; ...]] for a list that is written out and does not hold
    [x]. *)
Ltac absent :=
  let H := fresh in
  intros H;
  repeat (apply elem_of_cons in H as [H|H];
          [first [discriminate | congruence]|]);
  by apply elem_of_nil in H.

(** ** The scan loop *)

Lemma scan_hit_inv pids v i n j :
  scan pids v i n = Some (Some j) →
  (i ≤ j < i + n)%nat ∧ pids !! j = Some v ∧
  ∀ k, (i ≤ k < j)%nat → pids !! k ≠ Some v.
Proof.
  revert i. induction n as [|n IH]; intros i; simpl; [discriminate|].
  destruct (pids !! i) as [x|] eqn:E; simpl; [|discriminate].
  case_bool_decide as Hx.
  - intros [= <-]. subst x. repeat split; [lia..|done|intros; lia].
  - intros (Hj & Hv & Hk)%IH. repeat split; [lia..|done|].
    intros k Hk'. destruct (decide (k = i)) as [->|]; [congruence|].
    apply Hk. lia.
Qed.

Lemma scan_miss_inv pids v i n :
  scan pids v i n = Some None →
  ∀ k, (i ≤ k < i + n)%nat → ∃ x, pids !! k = Some x ∧ x ≠ v.
Proof.
  revert i. induction n as [|n IH]; intros i; simpl; [intros _ k; lia|].
  destruct (pids !! i) as [x|] eqn:E; simpl; [|discriminate].
  case_bool_decide as Hx; [discriminate|].
  intros Hs k Hk. destruct (decide (k = i)) as [->|]; [eauto|].
  apply (IH _ Hs). lia.
Qed.

Lemma scan_hit pids v i n j :
  (i ≤ j < i + n)%nat → pids !! j = Some v →
  (∀ k, (i ≤ k < j)%nat → ∃ x, pids !! k = Some x ∧ x ≠ v) →
  scan pids v i n = Some (Some j).
Proof.
  revert i. induction n as [|n IH]; intros i Hj Hv Hk; simpl; [lia|].
  destruct (decide (j = i)) as [->|Hne].
  - rewrite Hv. simpl. by rewrite bool_decide_eq_true_2.
  - destruct (Hk i) as (x & -> & Hx); [lia|]. simpl.
    rewrite bool_decide_eq_false_2 by done.
    apply IH; [lia|done|]. intros k ?. apply Hk. lia.
Qed.

Lemma scan_miss pids v i n :
  (∀ k, (i ≤ k < i + n)%nat → ∃ x, pids !! k = Some x ∧ x ≠ v) →
  scan pids v i n = Some None.
Proof.
  revert i. induction n as [|n IH]; intros i Hk; simpl; [done|].
  destruct (Hk i) as (x & -> & Hx); [lia|]. simpl.
  rewrite bool_decide_eq_false_2 by done.
  apply IH. intros k ?. apply Hk. lia.
Qed.

Lemma scan_in_bounds pids v i n :
  (i + n ≤ length pids)%nat → is_Some (scan pids v i n).
Proof.
  revert i. induction n as [|n IH]; intros i Hn; simpl; [eauto|].
  destruct (lookup_lt_is_Some_2 pids i) as [x ->]; [lia|]. simpl.
  case_bool_decide; [eauto|]. apply IH. lia.
Qed.

(** ** The registry: counting occupied cells *)

Lemma filter_insert_fill (pids : list Z) i x :
  pids !! i = Some 0 → x ≠ 0 →
  length (filter (λ y, y ≠ 0) (<[i:=x]> pids))
  = S (length (filter (λ y, y ≠ 0) pids)).
Proof.
  intros Hi Hx. pose proof (lookup_lt_Some _ _ _ Hi) as Hlt.
  rewrite insert_take_drop by done.
  rewrite <-(take_drop_middle pids i 0) at 3 by done.
  rewrite !filter_app, !length_app.
  rewrite filter_cons_True by done. rewrite filter_cons_False by tauto.
  simpl. lia.
Qed.

Lemma filter_insert_clear (pids : list Z) i x :
  pids !! i = Some x → x ≠ 0 →
  S (length (filter (λ y, y ≠ 0) (<[i:=0]> pids)))
  = length (filter (λ y, y ≠ 0) pids).
Proof.
  intros Hi Hx. pose proof (lookup_lt_Some _ _ _ Hi) as Hlt.
  rewrite insert_take_drop by done.
  rewrite <-(take_drop_middle pids i x) at 3 by done.
  rewrite !filter_app, !length_app.
  rewrite (filter_cons_False _ 0) by tauto.
  rewrite (filter_cons_True _ x) by done.
  simpl. lia.
Qed.

Lemma filter_nonzero_full (pids : list Z) :
  length (filter (λ y, y ≠ 0) pids) = length pids ↔ 0 ∉ pids.
Proof.
  induction pids as [|y pids IH]; simpl.
  - split; [intros _; apply not_elem_of_nil|done].
  - rewrite not_elem_of_cons. destruct (decide (y = 0)) as [->|Hy].
    + rewrite filter_cons_False by tauto.
      pose proof (length_filter (λ y, y ≠ 0) pids). split; [lia|tauto].
    + rewrite filter_cons_True by done. simpl. rewrite <-IH.
      split; [intros; split; [congruence|lia]|intros [_ ?]; lia].
Qed.

Lemma elem_of_insert_inv (pids : list Z) i x y :
  y ∈ <[i:=x]> pids → y = x ∨ y ∈ pids.
Proof.
  intros (j & Hj)%list_elem_of_lookup.
  destruct (decide (i = j)) as [->|Hne].
  - destruct (decide (j < length pids)%nat).
    + rewrite list_lookup_insert_eq in Hj by done. left. congruence.
    + rewrite list_insert_ge in Hj by lia. right.
      by eapply list_elem_of_lookup_2.
  - rewrite list_lookup_insert_ne in Hj by done. right.
    by eapply list_elem_of_lookup_2.
Qed.

(** ** The registry: one call at a time *)

Section registry_facts.
Variable MAX_PIDS : nat.
Implicit Types (g : ProcessesList) (pid : Z) (l : list Z).

Lemma occupied_le_length g : (occupied g ≤ length (Pids g))%nat.
Proof. apply length_filter. Qed.

Lemma empty_registry_wf : registry_wf MAX_PIDS (empty_registry MAX_PIDS).
Proof.
  split; simpl; [apply length_replicate|]. unfold occupied. simpl. lia.
Qed.

Lemma AddProcess_full pid g :
  length (Pids g) = MAX_PIDS → 0 ∉ Pids g →
  AddProcess MAX_PIDS pid g = Some (false, g).
Proof.
  intros Hlen Hfull. unfold AddProcess. rewrite scan_miss; [done|].
  intros k Hk. destruct (lookup_lt_is_Some_2 (Pids g) k) as [x Hx]; [lia|].
  exists x. split; [done|]. intros ->. apply Hfull.
  by eapply list_elem_of_lookup_2.
Qed.

Lemma AddProcess_wf pid g :
  registry_wf MAX_PIDS g → pid ≠ 0 →
  ∃ b g', AddProcess MAX_PIDS pid g = Some (b, g') ∧
    registry_wf MAX_PIDS g' ∧
    (∀ x, x ∈ Pids g' → x = pid ∨ x ∈ Pids g) ∧
    (b = false → g' = g ∧ 0 ∉ Pids g) ∧
    (b = true → occupied g' = S (occupied g) ∧
                PidsCount g' = PidsCount g + 1).
Proof.
  intros [Hlen Hcnt] Hpid. unfold AddProcess.
  destruct (scan_in_bounds (Pids g) 0 0 MAX_PIDS) as [r Hr]; [lia|].
  rewrite Hr. simpl. destruct r as [i|].
  - apply scan_hit_inv in Hr as (_ & Hi & _).
    eexists true, _. split; [done|].
    assert (occupied {| Pids := <[i:=pid]> (Pids g);
                        PidsCount := PidsCount g + 1 |}
            = S (occupied g)) as Hocc
      by (unfold occupied; simpl; by apply filter_insert_fill).
    repeat split; simpl; try done.
    + by rewrite length_insert.
    + lia.
    + rewrite Hocc. lia.
    + intros x. apply elem_of_insert_inv.
  - eexists false, g. split; [done|].
    repeat split; try done; try lia.
    + intros x ?. by right.
    + intros (k & Hk)%list_elem_of_lookup.
      pose proof (lookup_lt_Some _ _ _ Hk).
      destruct (scan_miss_inv _ _ _ _ Hr k) as (x & Hx & Hne); [lia|].
      congruence.
Qed.

Lemma scan_count_in_bounds pid g :
  registry_wf MAX_PIDS g →
  is_Some (scan (Pids g) pid 0 (Z.to_nat (PidsCount g))).
Proof.
  intros [Hlen Hcnt]. apply scan_in_bounds.
  pose proof (occupied_le_length g). lia.
Qed.

Lemma FindProcess_wf pid g :
  registry_wf MAX_PIDS g → is_Some (FindProcess pid g).
Proof.
  intros Hwf. unfold FindProcess.
  destruct (scan_count_in_bounds pid g Hwf) as [r ->]. simpl. eauto.
Qed.

Lemma RemoveProcess_absent pid g :
  registry_wf MAX_PIDS g → pid ∉ Pids g →
  RemoveProcess pid g = Some (false, g).
Proof.
  intros Hwf Habs. unfold RemoveProcess.
  destruct (scan_count_in_bounds pid g Hwf) as [r Hr]. rewrite Hr. simpl.
  destruct r as [i|]; [|done].
  apply scan_hit_inv in Hr as (_ & Hi & _). destruct Habs.
  by eapply list_elem_of_lookup_2.
Qed.

Lemma RemoveProcess_wf pid g :
  registry_wf MAX_PIDS g →
  ∃ b g', RemoveProcess pid g = Some (b, g') ∧
    registry_wf MAX_PIDS g' ∧
    (∀ x, x ∈ Pids g' → x = 0 ∨ x ∈ Pids g).
Proof.
  intros Hwf. pose proof Hwf as [Hlen Hcnt]. unfold RemoveProcess.
  destruct (scan_count_in_bounds pid g Hwf) as [r Hr]. rewrite Hr. simpl.
  destruct r as [i|].
  - apply scan_hit_inv in Hr as (Hlt & Hi & _).
    eexists true, _. split; [done|]. split; [|simpl; apply elem_of_insert_inv].
    split; simpl; [by rewrite length_insert|].
    unfold occupied in *. simpl. destruct (decide (pid = 0)) as [->|Hne].
    + rewrite list_insert_id by done. lia.
    + pose proof (filter_insert_clear _ _ _ Hi Hne). lia.
  - eexists false, g. repeat split; try done; try lia. intros x ?. by right.
Qed.

Lemma exec_wf c g :
  registry_wf MAX_PIDS g → c ≠ Add 0 →
  ∃ b g', exec MAX_PIDS c g = Some (b, g') ∧ registry_wf MAX_PIDS g' ∧
    (∀ x, x ∈ Pids g' → x = 0 ∨ x ∈ Pids g ∨ c = Add x).
Proof.
  intros Hwf Hc. destruct c as [pid|pid|pid]; simpl.
  - destruct (AddProcess_wf pid g Hwf) as (b & g' & -> & ? & Hin & _);
      [congruence|].
    exists b, g'. split; [done|]. split; [done|].
    intros x [->| ?]%Hin; auto.
  - destruct (RemoveProcess_wf pid g Hwf) as (b & g' & -> & ? & Hin).
    exists b, g'. split; [done|]. split; [done|].
    intros x [->| ?]%Hin; auto.
  - destruct (FindProcess_wf pid g Hwf) as [b ->]. simpl.
    exists b, g. split; [done|]. split; [done|]. auto.
Qed.

Lemma run_wf cs g :
  registry_wf MAX_PIDS g → Add 0 ∉ cs →
  ∃ rs g', run MAX_PIDS cs g = Some (rs, g') ∧ registry_wf MAX_PIDS g' ∧
    length rs = length cs ∧
    (∀ x, x ∈ Pids g' → x = 0 ∨ x ∈ Pids g ∨ Add x ∈ cs).
Proof.
  revert g. induction cs as [|c cs IH]; intros g Hwf Hcs; simpl.
  - exists [], g. split; [done|]. split; [done|]. split; [done|]. auto.
  - apply not_elem_of_cons in Hcs as [Hc Hcs].
    destruct (exec_wf c g Hwf) as (b & g1 & -> & Hwf1 & Hin1); [done|].
    simpl. destruct (IH g1 Hwf1 Hcs) as (rs & g2 & -> & Hwf2 & Hlen & Hin2).
    simpl. exists (b :: rs), g2. split; [done|]. split; [done|].
    split; [simpl; by rewrite Hlen|].
    intros x [->|[Hx| ?]]%Hin2; auto.
    + destruct (Hin1 x Hx) as [->|[ ?| ->]]; auto.
      right; right. apply elem_of_cons. by left.
    + right; right. apply elem_of_cons. by right.
Qed.
End registry_facts.

(** ** The registry used as a set: the packed invariant *)

Section registry_packed.
Variable MAX_PIDS : nat.
Implicit Types (g : ProcessesList) (pid : Z) (l : list Z).

Lemma covered_spec g :
  covered g = true →
  ∀ i x, (Z.to_nat (PidsCount g) ≤ i)%nat → Pids g !! i = Some x → x = 0.
Proof.
  unfold covered. rewrite forallb_forall. intros Hall i x Hi Hx.
  symmetry. apply Z.eqb_eq, Hall, list_elem_of_In.
  apply list_elem_of_lookup. exists (i - Z.to_nat (PidsCount g))%nat.
  rewrite lookup_drop, <-Hx. f_equal. lia.
Qed.

Lemma packed_lookup_lt l g i :
  packed MAX_PIDS l g → (i < length l)%nat → Pids g !! i = l !! i.
Proof. intros (-> & _) ?. by apply lookup_app_l. Qed.

Lemma packed_lookup_ge l g i :
  packed MAX_PIDS l g → (length l ≤ i < MAX_PIDS)%nat →
  Pids g !! i = Some 0.
Proof.
  intros (-> & _) ?. rewrite lookup_app_r by lia.
  apply lookup_replicate_2. lia.
Qed.

Lemma packed_length l g : packed MAX_PIDS l g → length (Pids g) = MAX_PIDS.
Proof.
  intros (-> & _ & ? & _). rewrite length_app, length_replicate. lia.
Qed.

Lemma packed_elem_of l g x : packed MAX_PIDS l g → x ∈ l → x ∈ Pids g.
Proof. intros (-> & _) ?. apply elem_of_app. by left. Qed.

Lemma filter_nonzero_id l : 0 ∉ l → filter (λ y, y ≠ 0) l = l.
Proof.
  induction l as [|y l IH]; [done|]. intros [? ?]%not_elem_of_cons.
  rewrite filter_cons_True by done. by rewrite IH.
Qed.

Lemma filter_nonzero_replicate n : filter (λ y, y ≠ 0) (replicate n 0) = [].
Proof.
  induction n as [|n IH]; [done|]. simpl.
  by rewrite filter_cons_False by tauto.
Qed.

Lemma packed_wf l g : packed MAX_PIDS l g → registry_wf MAX_PIDS g.
Proof.
  intros Hp. split; [by eapply packed_length|].
  destruct Hp as (HP & -> & _ & H0 & _). unfold occupied. rewrite HP.
  rewrite filter_app, filter_nonzero_id, filter_nonzero_replicate by done.
  rewrite length_app. simpl. lia.
Qed.

Lemma empty_registry_packed : packed MAX_PIDS [] (empty_registry MAX_PIDS).
Proof.
  split; simpl; [f_equal; lia|]. split; [done|]. split; [lia|].
  split; [apply not_elem_of_nil|constructor].
Qed.

Lemma packed_scan l g pid :
  packed MAX_PIDS l g →
  scan (Pids g) pid 0 (length l)
  = Some (if decide (pid ∈ l) then list_find (λ x, x = pid) l ≫= λ r, Some r.1
          else None).
Proof.
  intros Hp. destruct (decide (pid ∈ l)) as [Hin|Hout].
  - apply list_elem_of_lookup in Hin as [j Hj].
    assert (list_find (λ x, x = pid) l = Some (j, pid)) as ->.
    { apply list_find_Some. split; [done|]. split; [done|].
      intros k y Hk Hlt ->. destruct Hp as (_ & _ & _ & _ & Hnd).
      pose proof (NoDup_lookup _ _ _ _ Hnd Hj Hk). lia. }
    simpl. pose proof (lookup_lt_Some _ _ _ Hj).
    apply scan_hit; [lia|by rewrite (packed_lookup_lt l)|].
    intros k Hk. rewrite (packed_lookup_lt l) by (done || lia).
    destruct (lookup_lt_is_Some_2 l k) as [y Hy]; [lia|].
    exists y. split; [done|]. intros ->.
    destruct Hp as (_ & _ & _ & _ & Hnd).
    pose proof (NoDup_lookup _ _ _ _ Hnd Hj Hy). lia.
  - apply scan_miss. intros k Hk.
    rewrite (packed_lookup_lt l) by (done || lia).
    destruct (lookup_lt_is_Some_2 l k) as [y Hy]; [lia|].
    exists y. split; [done|]. intros ->. apply Hout.
    by eapply list_elem_of_lookup_2.
Qed.

Lemma packed_Find l g pid :
  packed MAX_PIDS l g → FindProcess pid g = Some (bool_decide (pid ∈ l)).
Proof.
  intros Hp. unfold FindProcess. pose proof Hp as (_ & -> & _).
  rewrite Nat2Z.id, (packed_scan l) by done. simpl.
  destruct (decide (pid ∈ l)) as [Hin|Hout].
  - rewrite bool_decide_eq_true_2 by done.
    apply list_elem_of_lookup in Hin as [j Hj].
    destruct (list_find_elem_of (λ x, x = pid) l pid) as [[k y] ->];
      [by eapply list_elem_of_lookup_2|done|done].
  - by rewrite bool_decide_eq_false_2.
Qed.

Lemma packed_Add_room l g pid :
  packed MAX_PIDS l g → pid ≠ 0 → pid ∉ l → (length l < MAX_PIDS)%nat →
  ∃ g', AddProcess MAX_PIDS pid g = Some (true, g') ∧
        packed MAX_PIDS (l ++ [pid]) g'.
Proof.
  intros Hp Hpid Hnew Hroom. unfold AddProcess.
  rewrite (scan_hit _ _ _ _ (length l)); cycle 1.
  { lia. }
  { apply (packed_lookup_ge l); [done|lia]. }
  { intros k Hk. rewrite (packed_lookup_lt l) by (done || lia).
    destruct (lookup_lt_is_Some_2 l k) as [y Hy]; [lia|].
    exists y. split; [done|]. intros ->.
    destruct Hp as (_ & _ & _ & H0 & _). apply H0.
    by eapply list_elem_of_lookup_2. }
  simpl. eexists. split; [done|].
  destruct Hp as (HP & Hc & Hlen & H0 & Hnd).
  split; simpl; [|split; [|split; [|split]]].
  - rewrite HP, insert_app_r_alt by lia.
    rewrite Nat.sub_diag, <-app_assoc, length_app. simpl.
    destruct (MAX_PIDS - length l)%nat as [|n] eqn:En; [lia|].
    simpl. do 3 f_equal. lia.
  - rewrite Hc, length_app. simpl. lia.
  - rewrite length_app. simpl. lia.
  - rewrite elem_of_app, list_elem_of_singleton. intros [?| ?]; [done|].
    by apply Hpid.
  - apply NoDup_app. split; [done|]. split; [|apply NoDup_singleton].
    intros x Hx ->%list_elem_of_singleton. done.
Qed.

Lemma packed_Add_full l g pid :
  packed MAX_PIDS l g → length l = MAX_PIDS →
  AddProcess MAX_PIDS pid g = Some (false, g).
Proof.
  intros Hp Hfull. apply AddProcess_full; [by eapply packed_length|].
  destruct Hp as (-> & _ & _ & H0 & _).
  rewrite Hfull, Nat.sub_diag, app_nil_r. done.
Qed.

Lemma packed_Remove l g pid b g' :
  packed MAX_PIDS l g → RemoveProcess pid g = Some (b, g') →
  covered g' = true →
  b = bool_decide (pid ∈ l) ∧
  ∃ l', packed MAX_PIDS l' g' ∧ (∀ q, q ∈ l' ↔ q ∈ l ∧ q ≠ pid).
Proof.
  intros Hp. unfold RemoveProcess. pose proof Hp as (HP & Hc & Hlen & H0 & Hnd).
  rewrite Hc, Nat2Z.id, (packed_scan l) by done. simpl.
  destruct (decide (pid ∈ l)) as [Hin|Hout].
  - rewrite bool_decide_eq_true_2 by done.
    destruct (list_find_elem_of (λ x, x = pid) l pid) as [[j y] Hf];
      [done..|].
    rewrite Hf. simpl. apply list_find_Some in Hf as (Hj & -> & _).
    intros [= <- <-] Hcov. split; [done|].
    pose proof (lookup_lt_Some _ _ _ Hj) as Hjlt.
    assert (j = length l - 1)%nat as Hlast.
    { destruct (decide (j = length l - 1)%nat) as [|Hne]; [done|exfalso].
      destruct (lookup_lt_is_Some_2 l (length l - 1)) as [z Hz]; [lia|].
      assert (z = 0) as ->.
      { eapply (covered_spec _ Hcov (length l - 1)%nat); simpl; [lia|].
        rewrite list_lookup_insert_ne by done.
        rewrite (packed_lookup_lt l) by (done || lia). done. }
      apply H0. by eapply list_elem_of_lookup_2. }
    destruct (decide (l = [])) as [->|Hnil]; [simpl in Hjlt; lia|].
    destruct (exists_last Hnil) as (l0 & z & ->).
    rewrite length_app in *. simpl in *.
    assert (j = length l0) as -> by lia.
    rewrite lookup_app_r, Nat.sub_diag in Hj by lia. simpl in Hj.
    injection Hj as ->.
    apply NoDup_app in Hnd as (Hnd0 & Hdisj & _).
    rewrite not_elem_of_app in H0. destruct H0 as [H00 _].
    exists l0. split.
    + split; simpl; [|split; [lia|split; [lia|done]]].
      rewrite HP, insert_app_l by (rewrite length_app; simpl; lia).
      rewrite insert_app_r_alt, Nat.sub_diag by lia. simpl.
      rewrite <-app_assoc. simpl. f_equal.
      replace (MAX_PIDS - length l0)%nat
        with (S (MAX_PIDS - (length l0 + 1)))%nat by lia.
      done.
    + intros q. rewrite elem_of_app, list_elem_of_singleton. split.
      * intros Hq. split; [by left|]. intros ->.
        apply (Hdisj _ Hq). by apply list_elem_of_singleton.
      * intros [[?| ->] ?]; done.
  - rewrite bool_decide_eq_false_2 by done. intros [= <- <-] _.
    split; [done|]. exists l. split; [done|]. intros q. split; [|tauto].
    intros Hq. split; [done|]. by intros ->.
Qed.
End registry_packed.

(** ** The registry: sequences of calls *)

Section registry_runs.
Variable MAX_PIDS : nat.
Implicit Types (g : ProcessesList) (pid : Z) (l : list Z) (cs : list call).

Lemma run_app cs1 cs2 g rs1 g1 :
  run MAX_PIDS cs1 g = Some (rs1, g1) →
  run MAX_PIDS (cs1 ++ cs2) g
  = '(rs2, g2) ← run MAX_PIDS cs2 g1; Some (rs1 ++ rs2, g2).
Proof.
  revert g rs1. induction cs1 as [|c cs1 IH]; intros g rs1; simpl.
  - intros [= <- <-]. by destruct (run MAX_PIDS cs2 g) as [[??]|].
  - destruct (exec MAX_PIDS c g) as [[b g']|]; simpl; [|discriminate].
    destruct (run MAX_PIDS cs1 g') as [[bs g'']|] eqn:E; simpl;
      [|discriminate].
    intros [= <- <-]. rewrite (IH _ _ E).
    by destruct (run MAX_PIDS cs2 g'') as [[??]|].
Qed.

Lemma run_length cs g rs g' :
  run MAX_PIDS cs g = Some (rs, g') → length rs = length cs.
Proof.
  revert g rs. induction cs as [|c cs IH]; intros g rs; simpl.
  - by intros [= <- <-].
  - destruct (exec MAX_PIDS c g) as [[b g1]|]; simpl; [|discriminate].
    destruct (run MAX_PIDS cs g1) as [[bs g2]|] eqn:E; simpl;
      [|discriminate].
    intros [= <- <-]. simpl. f_equal. by eapply IH.
Qed.

Lemma disciplined_step c g l b g' :
  packed MAX_PIDS l g → call_ok c g = true →
  exec MAX_PIDS c g = Some (b, g') → covered g' = true →
  ∃ l', packed MAX_PIDS l' g' ∧
    (∀ pid, c = Add pid → b = true → pid ∈ l') ∧
    (∀ pid, c = Remove pid → pid ∉ l') ∧
    (∀ q, c ≠ Remove q → q ∈ l → q ∈ l') ∧
    (∀ q, c ≠ Add q → q ∉ l → q ∉ l').
Proof.
  intros Hp Hok Hex Hcov. destruct c as [pid|pid|pid]; simpl in *.
  - apply andb_true_iff in Hok as [Hnz Hnew].
    apply negb_true_iff, Z.eqb_neq in Hnz.
    apply negb_true_iff, bool_decide_eq_false in Hnew.
    assert (pid ∉ l) as Hl by (intros ?; apply Hnew; by eapply packed_elem_of).
    pose proof Hp as (_ & _ & Hlen & _).
    destruct (decide (length l < MAX_PIDS)%nat) as [Hroom|Hfull].
    + destruct (packed_Add_room MAX_PIDS l g pid) as (g1 & Hadd & Hp1);
        [done..|].
      rewrite Hadd in Hex. injection Hex as <- <-.
      exists (l ++ [pid]). split; [done|].
      split; [intros ? [= <-] _; apply elem_of_app; right;
              by apply list_elem_of_singleton|].
      split; [done|].
      split; [intros; apply elem_of_app; by left|].
      intros q Hq Hql [?| ->%list_elem_of_singleton]%elem_of_app; done.
    + rewrite (packed_Add_full MAX_PIDS l g pid) in Hex by (done || lia).
      injection Hex as <- <-. exists l. split; [done|].
      split; [done|]. split; [done|]. split; done.
  - destruct (packed_Remove MAX_PIDS l g pid b g' Hp Hex Hcov)
      as (_ & l' & Hp' & Hl').
    exists l'. split; [done|]. split; [done|].
    split; [intros ? [= <-]; rewrite Hl'; tauto|].
    split.
    + intros q Hq ?. apply Hl'. split; [done|congruence].
    + intros q _ Hq. rewrite Hl'. tauto.
  - destruct (FindProcess pid g); simpl in Hex; [|discriminate].
    injection Hex as <- <-. exists l. split; [done|].
    split; [done|]. split; [done|]. split; done.
Qed.

Lemma disciplined_run cs g l :
  packed MAX_PIDS l g → disciplined MAX_PIDS cs g = true →
  ∃ rs g' l', run MAX_PIDS cs g = Some (rs, g') ∧ packed MAX_PIDS l' g' ∧
    (∀ pid, Remove pid ∉ cs → pid ∈ l → pid ∈ l') ∧
    (∀ pid, Add pid ∉ cs → pid ∉ l → pid ∉ l').
Proof.
  revert g l. induction cs as [|c cs IH]; intros g l Hp Hd; simpl in *.
  - exists [], g, l. split; [done|]. split; [done|]. split; done.
  - apply andb_true_iff in Hd as [Hok Hd].
    destruct (exec MAX_PIDS c g) as [[b g1]|] eqn:Hex; [|discriminate].
    apply andb_true_iff in Hd as [Hcov Hd]. simpl.
    destruct (disciplined_step c g l b g1 Hp Hok Hex Hcov)
      as (l1 & Hp1 & _ & _ & Hkeep & Hout).
    destruct (IH g1 l1 Hp1 Hd) as (rs & g2 & l2 & -> & Hp2 & Hkeep2 & Hout2).
    simpl. exists (b :: rs), g2, l2. split; [done|]. split; [done|]. split.
    + intros pid [Hc Hcs]%not_elem_of_cons Hin.
      apply Hkeep2; [done|]. apply Hkeep; [congruence|done].
    + intros pid [Hc Hcs]%not_elem_of_cons Hin.
      apply Hout2; [done|]. apply Hout; [congruence|done].
Qed.

Lemma disciplined_app cs1 cs2 g l :
  packed MAX_PIDS l g → disciplined MAX_PIDS (cs1 ++ cs2) g = true →
  ∃ rs1 g1 l1, run MAX_PIDS cs1 g = Some (rs1, g1) ∧
    packed MAX_PIDS l1 g1 ∧ disciplined MAX_PIDS cs2 g1 = true.
Proof.
  revert g l. induction cs1 as [|c cs1 IH]; intros g l Hp Hd; simpl in *.
  - by exists [], g, l.
  - apply andb_true_iff in Hd as [Hok Hd].
    destruct (exec MAX_PIDS c g) as [[b g1]|] eqn:Hex; [|discriminate].
    apply andb_true_iff in Hd as [Hcov Hd]. simpl.
    destruct (disciplined_step c g l b g1 Hp Hok Hex Hcov) as (l1 & Hp1 & _).
    destruct (IH g1 l1 Hp1 Hd) as (rs & g2 & l2 & -> & Hp2 & Hd2).
    simpl. by exists (b :: rs), g2, l2.
Qed.

(** A run of [AddProcess] calls fills one more cell at each call until the
    array is full. *)
Lemma run_adds_occupied (pids : list Z) g rs g' :
  registry_wf MAX_PIDS g → 0 ∉ pids →
  run MAX_PIDS (Add <$> pids) g = Some (rs, g') →
  occupied g' = ((occupied g + length pids) `min` MAX_PIDS)%nat.
Proof.
  revert g rs. induction pids as [|p pids IH]; intros g rs Hwf Hnz.
  - intros [= <- <-]. pose proof (occupied_le_length g).
    destruct Hwf as [Hlen _]. simpl. lia.
  - apply not_elem_of_cons in Hnz as [Hp Hnz].
    rewrite fmap_cons. cbn [run exec length].
    destruct (AddProcess_wf MAX_PIDS p g Hwf) as
      (b & g1 & -> & Hwf1 & _ & Hfalse & Htrue); [congruence|].
    simpl. destruct (run MAX_PIDS (Add <$> pids) g1) as [[bs g2]|] eqn:E;
      simpl; [|discriminate].
    intros [= <- <-]. rewrite (IH _ _ Hwf1 Hnz E).
    pose proof (occupied_le_length g1). destruct Hwf1 as [Hlen1 _].
    destruct b.
    + destruct Htrue as [-> _]; [done|]. lia.
    + destruct Hfalse as [-> Hfull]; [done|].
      apply filter_nonzero_full in Hfull. unfold occupied in *. lia.
Qed.
End registry_runs.

Lemma disciplined_split MAX_PIDS pre c post g l rs gf :
  packed MAX_PIDS l g →
  disciplined MAX_PIDS (pre ++ c :: post) g = true →
  run MAX_PIDS (pre ++ c :: post) g = Some (rs, gf) →
  ∃ b lf, rs !! length pre = Some b ∧ packed MAX_PIDS lf gf ∧
    (∀ pid, c = Add pid → b = true → Remove pid ∉ post → pid ∈ lf) ∧
    (∀ pid, c = Remove pid → Add pid ∉ post → pid ∉ lf).
Proof.
  intros Hp Hd Hrun.
  destruct (disciplined_app MAX_PIDS pre (c :: post) g l Hp Hd)
    as (rs1 & g1 & l1 & Hrun1 & Hp1 & Hd1).
  rewrite (run_app MAX_PIDS pre (c :: post) g rs1 g1 Hrun1) in Hrun.
  pose proof (run_length MAX_PIDS pre g rs1 g1 Hrun1) as Hlen1.
  simpl in Hd1, Hrun. apply andb_true_iff in Hd1 as [Hok Hd1].
  destruct (exec MAX_PIDS c g1) as [[b g1']|] eqn:Hex; [|discriminate].
  apply andb_true_iff in Hd1 as [Hcov Hd1]. simpl in Hrun.
  destruct (disciplined_step MAX_PIDS c g1 l1 b g1' Hp1 Hok Hex Hcov)
    as (l1' & Hp1' & Hadd & Hrem & _).
  destruct (disciplined_run MAX_PIDS post g1' l1' Hp1' Hd1)
    as (rs2 & g2 & l2 & Hrun2 & Hp2 & Hkeep & Hout).
  rewrite Hrun2 in Hrun. simpl in Hrun. injection Hrun as <- <-.
  exists b, l2. split; [|split; [done|split]].
  - rewrite lookup_app_r, <-Hlen1, Nat.sub_diag by lia. done.
  - intros pid Hc Hb Hpost. apply Hkeep; [done|]. by apply Hadd.
  - intros pid Hc Hpost. apply Hout; [done|]. by apply Hrem.
Qed.

(** C1, as amended: from the empty registry, in every sequence of
    AddProcess / RemoveProcess / FindProcess calls that never adds pid 0,
    RemoveProcess of a nonzero pid that was never added returns false and
    leaves Pids and PidsCount as they are.  If moreover no pid is added
    while it is stored and after each call every occupied cell is below
    index PidsCount, then FindProcess(pid) returns true after a successful
    AddProcess(pid) for as long as no RemoveProcess(pid) follows, and false
    after a RemoveProcess(pid) for as long as no AddProcess(pid) follows. *)
Theorem registry_find_tracks_add_remove (MAX_PIDS : nat) (cs : list call) :
  Add 0 ∉ cs →
  ∃ rs g, run MAX_PIDS cs (empty_registry MAX_PIDS) = Some (rs, g) ∧
    (∀ pid, pid ≠ 0 → Add pid ∉ cs → RemoveProcess pid g = Some (false, g)) ∧
    (disciplined MAX_PIDS cs (empty_registry MAX_PIDS) = true →
     (∀ pre post pid,
        cs = pre ++ Add pid :: post → rs !! length pre = Some true →
        Remove pid ∉ post → FindProcess pid g = Some true) ∧
     (∀ pre post pid,
        cs = pre ++ Remove pid :: post → Add pid ∉ post →
        FindProcess pid g = Some false)).
Proof.
  intros Hcs.
  destruct (run_wf MAX_PIDS cs _ (empty_registry_wf MAX_PIDS) Hcs)
    as (rs & g & Hrun & Hwf & _ & Hin).
  exists rs, g. split; [done|]. split.
  - intros pid Hpid Hnever. apply (RemoveProcess_absent MAX_PIDS); [done|].
    intros [?|[Hx| ?]]%Hin; [done| |done].
    simpl in Hx. by apply elem_of_replicate_inv in Hx.
  - intros Hd. split.
    + intros pre post pid -> Hres Hpost.
      destruct (disciplined_split MAX_PIDS pre (Add pid) post _ [] rs g
                  (empty_registry_packed MAX_PIDS) Hd Hrun)
        as (b & lf & Hb & Hpf & Hadd & _).
      rewrite (packed_Find MAX_PIDS lf) by done.
      rewrite bool_decide_eq_true_2; [done|].
      apply Hadd; [done|congruence|done].
    + intros pre post pid -> Hpost.
      destruct (disciplined_split MAX_PIDS pre (Remove pid) post _ [] rs g
                  (empty_registry_packed MAX_PIDS) Hd Hrun)
        as (b & lf & Hb & Hpf & _ & Hrem).
      rewrite (packed_Find MAX_PIDS lf) by done.
      rewrite bool_decide_eq_false_2; [done|]. by apply Hrem.
Qed.

Lemma registry_find_tracks_add_remove_witness :
  (Add 0 ∉ [Add 1; Add 2; Remove 2; Find 1]) ∧
  disciplined 256 [Add 1; Add 2; Remove 2; Find 1] (empty_registry 256) = true ∧
  ∃ rs g,
    run 256 [Add 1; Add 2; Remove 2; Find 1] (empty_registry 256)
    = Some (rs, g) ∧
    RemoveProcess 7 g = Some (false, g) ∧
    FindProcess 1 g = Some true ∧ FindProcess 2 g = Some false.
Proof.
  assert (∀ p : Z, p ≠ 1 → p ≠ 2 →
            Add p ∉ [Add 1; Add 2; Remove 2; Find 1]) as Hno.
  { intros p H1 H2. absent. }
  split; [by apply Hno|]. split; [reflexivity|].
  destruct (registry_find_tracks_add_remove 256
              [Add 1; Add 2; Remove 2; Find 1])
    as (rs & g & Hrun & Hrem & Hfind); [by apply Hno|].
  destruct (Hfind eq_refl) as [Hadd Hgone].
  exists rs, g. split; [done|]. split; [by apply Hrem; [|apply Hno]|].
  assert (rs = [true; true; true; true]) as ->.
  { vm_compute in Hrun. congruence. }
  split.
  - apply (Hadd [] [Add 2; Remove 2; Find 1] 1); [done|done|absent].
  - apply (Hgone [Add 1; Add 2] [Find 1] 2); [done|absent].
Defined.

(** The claim C1 as the specification words it fails where a pid is stored
    twice: after one RemoveProcess(5) the second copy is still found. *)
Lemma registry_duplicate_add_counterexample :
  run 256 [Add 5; Add 5; Add 7; Remove 5; Find 5] (empty_registry 256)
  = Some ([true; true; true; true; true],
          {| Pids := 0 :: 5 :: 7 :: replicate 253 0; PidsCount := 2 |}).
Proof. vm_compute. reflexivity. Qed.

(** The scans of FindProcess and RemoveProcess stop at index PidsCount,
    while AddProcess fills the first empty cell of the whole array: once a
    pid below another one is removed, the last stored pid is out of their
    reach. *)
Example FindProcess_misses_stored_pid :
  run 256 [Add 1; Add 2; Remove 1; Find 2; Remove 2] (empty_registry 256)
  = Some ([true; true; true; false; false],
          {| Pids := 0 :: 2 :: replicate 254 0; PidsCount := 1 |}).
Proof. vm_compute. reflexivity. Qed.

(** C10, as amended: from the empty registry, for every sequence of
    AddProcess calls with nonzero pids, the number of occupied cells and
    PidsCount stay within MAX_PIDS; whenever no cell is empty AddProcess
    (of any pid) returns false and leaves Pids and PidsCount as they are;
    and after MAX_PIDS such calls or more, the next AddProcess returns false
    with the registry unchanged. *)
Theorem registry_capacity (MAX_PIDS : nat) (pids : list Z) :
  0 ∉ pids →
  ∃ rs g,
    run MAX_PIDS (Add <$> pids) (empty_registry MAX_PIDS) = Some (rs, g) ∧
    (occupied g ≤ MAX_PIDS)%nat ∧ PidsCount g ≤ Z.of_nat MAX_PIDS ∧
    (∀ pid, 0 ∉ Pids g → AddProcess MAX_PIDS pid g = Some (false, g)) ∧
    ((MAX_PIDS ≤ length pids)%nat →
     ∀ pid, AddProcess MAX_PIDS pid g = Some (false, g)).
Proof.
  intros Hnz.
  assert (Add 0 ∉ Add <$> pids) as Hcs.
  { intros (p & [= <-] & Hp)%list_elem_of_fmap. done. }
  destruct (run_wf MAX_PIDS _ _ (empty_registry_wf MAX_PIDS) Hcs)
    as (rs & g & Hrun & Hwf & _ & _).
  pose proof (occupied_le_length g) as Hocc. pose proof Hwf as [Hlen Hcnt].
  exists rs, g. split; [done|]. split; [lia|]. split; [lia|]. split.
  - intros pid Hfull. by apply AddProcess_full.
  - intros Hmany pid. apply AddProcess_full; [done|].
    apply filter_nonzero_full.
    pose proof (run_adds_occupied MAX_PIDS pids _ rs g
                  (empty_registry_wf MAX_PIDS) Hnz Hrun) as Ho.
    unfold occupied in *. lia.
Qed.

Lemma registry_capacity_witness :
  (0 ∉ [11; 12; 13]) ∧
  ∃ rs g,
    run 2 (Add <$> [11; 12; 13]) (empty_registry 2) = Some (rs, g) ∧
    (occupied g ≤ 2)%nat ∧ PidsCount g ≤ 2 ∧
    (∀ pid, 0 ∉ Pids g → AddProcess 2 pid g = Some (false, g)) ∧
    ((2 ≤ length [11; 12; 13])%nat →
     ∀ pid, AddProcess 2 pid g = Some (false, g)).
Proof.
  assert (0 ∉ [11; 12; 13]) as Hnz by absent.
  split; [done|]. exact (registry_capacity 2 [11; 12; 13] Hnz).
Defined.

(** The claim C10 as the specification words it fails for pid 0, the value
    that marks an empty cell: AddProcess(0) always finds the cell it has
    just "filled" empty again, so the 257th call still returns true, and
    PidsCount passes the capacity. *)
Lemma registry_add_zero_counterexample :
  run 256 (replicate 257 (Add 0)) (empty_registry 256)
  = Some (replicate 257 true,
          {| Pids := replicate 256 0; PidsCount := 257 |}).
Proof. vm_compute. reflexivity. Qed.

(** ** The access filter *)

Lemma testbit_above (a i : Z) : 0 ≤ a < 2 ^ 32 → 32 ≤ i → Z.testbit a i = false.
Proof.
  intros Ha Hi. destruct (decide (a = 0)) as [->|Hne]; [apply Z.bits_0|].
  apply Z.bits_above_log2; [lia|].
  assert (Z.log2 a < 32) by (apply Z.log2_lt_pow2; lia). lia.
Qed.

Lemma clear_access_bits (mask right i : Z) :
  0 ≤ mask < 2 ^ 32 → 0 ≤ i →
  Z.testbit (clear_access mask right) i
  = Z.testbit mask i && negb (Z.testbit right i).
Proof.
  intros Hm Hi. unfold clear_access, to_ULONG. rewrite Z.land_spec.
  destruct (Z.lt_ge_cases i 32).
  - rewrite Z.mod_pow2_bits_low by lia. by rewrite Z.lnot_spec by lia.
  - rewrite Z.mod_pow2_bits_high by lia. rewrite testbit_above by lia. done.
Qed.

Lemma clear_access_range (mask right : Z) :
  0 ≤ mask < 2 ^ 32 → 0 ≤ clear_access mask right < 2 ^ 32.
Proof.
  intros Hm. unfold clear_access, to_ULONG.
  rewrite <-Z.land_ones, Z.land_assoc, Z.land_ones by lia.
  apply Z.mod_pos_bound. lia.
Qed.

(** What OnPreOpenProcess does with the answer of FindProcess: it leaves
    a kernel-handle request as it is; for any other request it clears in
    DesiredAccess the access rights PROCESS_VM_OPERATION, PROCESS_VM_READ,
    PROCESS_CREATE_THREAD, PROCESS_DUP_HANDLE and PROCESS_TERMINATE, and no
    other bit, when FindProcess finds the pid of the target, and leaves the
    request as it is when FindProcess does not; it returns
    OB_PREOP_SUCCESS in every case. *)
Lemma OnPreOpenProcess_filters (PROCESS_DUP_HANDLE : Z) (k : Kernel)
    (g : ProcessesList) (Info : OB_PRE_OPERATION_INFORMATION) :
  0 ≤ DesiredAccess Info < 2 ^ 32 →
  let pid := to_ULONG (PsGetProcessId k (Object Info)) in
  let run := OnPreOpenProcess PROCESS_DUP_HANDLE k g Info in
  (KernelHandle Info = true → run = Some (OB_PREOP_SUCCESS, Info)) ∧
  (KernelHandle Info = false → FindProcess pid g = Some true →
   ∃ Info', run = Some (OB_PREOP_SUCCESS, Info') ∧
     KernelHandle Info' = KernelHandle Info ∧ Object Info' = Object Info ∧
     0 ≤ DesiredAccess Info' < 2 ^ 32 ∧
     ∀ i, 0 ≤ i →
       Z.testbit (DesiredAccess Info') i
       = Z.testbit (DesiredAccess Info) i
         && negb (Z.testbit (filtered_rights PROCESS_DUP_HANDLE) i)) ∧
  (KernelHandle Info = false → FindProcess pid g = Some false →
   run = Some (OB_PREOP_SUCCESS, Info)) ∧
  (∀ st Info', run = Some (st, Info') → st = OB_PREOP_SUCCESS).
Proof.
  intros Hmask pid run. subst run. unfold OnPreOpenProcess.
  split; [by intros ->|]. split; [|split].
  - intros -> Hfind. fold pid. rewrite Hfind. simpl.
    eexists. split; [done|]. simpl. split; [done|]. split; [done|].
    split; [by repeat apply clear_access_range|].
    intros i Hi. rewrite !clear_access_bits
      by (done || by repeat apply clear_access_range).
    unfold filtered_rights. rewrite !Z.lor_spec.
    destruct (Z.testbit (DesiredAccess Info) i),
      (Z.testbit PROCESS_VM_OPERATION i), (Z.testbit PROCESS_VM_READ i),
      (Z.testbit PROCESS_CREATE_THREAD i), (Z.testbit PROCESS_DUP_HANDLE i),
      (Z.testbit PROCESS_TERMINATE i); done.
  - intros -> Hfind. fold pid. by rewrite Hfind.
  - intros [] ? _. done.
Qed.

Lemma OnPreOpenProcess_filters_sample :
  0 ≤ DesiredAccess sample_open < 2 ^ 32 ∧
  FindProcess 1234 sample_registry = Some true ∧
  ∃ Info',
    OnPreOpenProcess 0x40 good_kernel sample_registry sample_open
    = Some (OB_PREOP_SUCCESS, Info') ∧
    DesiredAccess Info' = 0x1FFFA4.
Proof.
  assert (0 ≤ DesiredAccess sample_open < 2 ^ 32) as Hmask
    by (by vm_compute).
  split; [exact Hmask|]. split; [reflexivity|].
  destruct (OnPreOpenProcess_filters 0x40 good_kernel sample_registry
              sample_open Hmask) as (_ & Hfound & _ & _).
  destruct (Hfound eq_refl eq_refl) as (Info' & Hrun & _).
  exists Info'. split; [exact Hrun|].
  vm_compute in Hrun. by injection Hrun as <-.
Defined.

(** C2: the filter misses a protected pid.  AddProcess fills the first
    empty cell of the whole array, FindProcess reads only the cells below
    PidsCount, and RemoveProcess decrements PidsCount wherever the pid was.
    After AddProcess(7), AddProcess(8) and AddProcess(1234) a user-mode
    request for all access to the process with pid 1234 loses the five
    rights; after RemoveProcess(8), which returns true, pid 1234 is still
    stored, in cell 2, but PidsCount is 2, FindProcess(1234) is false, and
    the same request comes back from OnPreOpenProcess with every right it
    asked for. *)
Theorem OnPreOpenProcess_misses_protected_pid :
  KernelHandle sample_open = false ∧
  to_ULONG (PsGetProcessId good_kernel (Object sample_open)) = 1234 ∧
  DesiredAccess sample_open = 0x1FFFFF ∧
  ∃ g3 g4,
    run 256 [Add 7; Add 8; Add 1234] (empty_registry 256)
    = Some ([true; true; true], g3) ∧
    OnPreOpenProcess 0x40 good_kernel g3 sample_open
    = Some (OB_PREOP_SUCCESS,
            {| KernelHandle := false; Object := process_1234;
               DesiredAccess := 0x1FFFA4 |}) ∧
    RemoveProcess 8 g3 = Some (true, g4) ∧
    Pids g4 = [7; 0; 1234] ++ replicate 253 0 ∧ PidsCount g4 = 2 ∧
    FindProcess 1234 g4 = Some false ∧
    OnPreOpenProcess 0x40 good_kernel g4 sample_open
    = Some (OB_PREOP_SUCCESS, sample_open).
Proof.
  split; [reflexivity|]. split; [reflexivity|]. split; [reflexivity|].
  eexists _, _. split; [vm_compute; reflexivity|].
  split; [vm_compute; reflexivity|].
  split; [vm_compute; reflexivity|].
  split; [reflexivity|]. split; [reflexivity|].
  split; [vm_compute; reflexivity|]. vm_compute. reflexivity.
Qed.

(** ** Circular lists in memory *)

Lemma last_cons_cons (x y d : Z) (t : list Z) :
  List.last (x :: y :: t) d = List.last (y :: t) d.
Proof. done. Qed.

Lemma last_default_cons (x d : Z) (t : list Z) :
  List.last (x :: t) d = List.last t x.
Proof.
  revert x d. induction t as [|y t IH]; intros x d; [done|].
  rewrite last_cons_cons, (IH y d), (IH y x). done.
Qed.

Lemma last_app_cons (t1 t2 : list Z) (a b : Z) :
  List.last (t1 ++ b :: t2) a = List.last t2 b.
Proof.
  induction t1 as [|x t1 IH]; simpl app.
  - apply last_default_cons.
  - destruct (t1 ++ b :: t2) eqn:E; [by destruct t1|].
    rewrite last_cons_cons. done.
Qed.

Lemma last_elem_of (t : list Z) (x : Z) : List.last t x ∈ x :: t.
Proof.
  revert x. induction t as [|y t IH]; intros x; [simpl; left|].
  rewrite last_default_cons. right. apply IH.
Qed.

Lemma hd_app_default (t l2 : list Z) (n : Z) :
  hd n (t ++ l2) = hd (hd n l2) t.
Proof. by destruct t. Qed.

Lemma seg_app m p l1 l2 n :
  seg m p (l1 ++ l2) n ↔ seg m p l1 (hd n l2) ∧ seg m (List.last l1 p) l2 n.
Proof.
  revert p. induction l1 as [|x t IH]; intros p.
  - simpl. tauto.
  - rewrite last_default_cons. simpl. rewrite IH, hd_app_default. tauto.
Qed.

Lemma seg_frame m m' p l n :
  (∀ x, x ∈ l → m' !! x = m !! x ∧ m' !! (x + 8) = m !! (x + 8)) →
  seg m p l n → seg m' p l n.
Proof.
  revert p. induction l as [|x t IH]; intros p Hsame; simpl; [done|].
  intros (Hf & Hb & Hseg). destruct (Hsame x) as [-> ->]; [left|].
  split; [done|]. split; [done|]. apply IH; [|done].
  intros y Hy. apply Hsame. by right.
Qed.

Lemma seg_mapped m p l n x :
  seg m p l n → x ∈ l → is_Some (m !! x) ∧ is_Some (m !! (x + 8)).
Proof.
  revert p. induction l as [|y t IH]; intros p; simpl.
  - intros _ Hx. by apply elem_of_nil in Hx.
  - intros (Hf & Hb & Hseg) [->|Hx]%elem_of_cons; [eauto|]. by eapply IH.
Qed.

Lemma separate_cons x l : separate (x :: l) → separate l.
Proof.
  intros [Hnd Hsep]. split; [by apply NoDup_cons in Hnd as [_ ?]|].
  intros y z Hy Hz. apply Hsep; by right.
Qed.

Lemma separate_perm l l' : l ≡ₚ l' → separate l → separate l'.
Proof.
  intros Hp [Hnd Hsep]. split; [by rewrite <-Hp|].
  intros x y Hx Hy. apply Hsep; by rewrite Hp.
Qed.

Lemma ring_app_cons m a t1 b t2 :
  ring m ((a :: t1) ++ b :: t2)
  ↔ seg m (List.last t2 b) (a :: t1) b ∧ seg m (List.last t1 a) (b :: t2) a.
Proof.
  change (ring m ((a :: t1) ++ b :: t2))
    with (seg m (List.last (t1 ++ b :: t2) a) ((a :: t1) ++ b :: t2) a).
  rewrite seg_app, last_app_cons, last_default_cons. simpl hd. tauto.
Qed.

Lemma ring_rotate m l1 l2 : ring m (l1 ++ l2) ↔ ring m (l2 ++ l1).
Proof.
  destruct l1 as [|a t1]; [by rewrite app_nil_r|].
  destruct l2 as [|b t2]; [by rewrite app_nil_r|].
  rewrite !ring_app_cons. tauto.
Qed.

(** Redirecting the forward link of the last entry of a segment. *)
Lemma seg_set_last m q l e e' d :
  l ≠ [] → separate l → seg m q l e →
  seg (<[List.last l d := e']> m) q l e'.
Proof.
  revert q. induction l as [|x t IH]; intros q Hne Hsep; [done|].
  destruct t as [|y t].
  - simpl. intros (Hf & Hb & _). rewrite lookup_insert_eq.
    rewrite lookup_insert_ne by lia. done.
  - rewrite last_cons_cons. intros (Hf & Hb & Hseg).
    pose proof (last_elem_of t y) as Hin. rewrite last_default_cons.
    destruct Hsep as [Hnd Hsep].
    split; [|split].
    + rewrite lookup_insert_ne; [done|]. intros Heq.
      apply NoDup_cons in Hnd as [Hx _]. apply Hx. by rewrite <-Heq.
    + rewrite lookup_insert_ne; [done|].
      apply Hsep; [by right|left].
    + rewrite <-(last_default_cons y d). apply IH; [done| |done].
      by apply (separate_cons x).
Qed.

(** Redirecting the backward link of the first entry of a segment. *)
Lemma seg_set_first m q q' x t e :
  separate (x :: t) → seg m q (x :: t) e →
  seg (<[x + 8 := q']> m) q' (x :: t) e.
Proof.
  intros [Hnd Hsep] (Hf & Hb & Hseg). split; [|split].
  - rewrite lookup_insert_ne by lia. done.
  - by rewrite lookup_insert_eq.
  - apply (seg_frame m); [|done]. apply NoDup_cons in Hnd as [Hx _].
    intros y Hy. rewrite !lookup_insert_ne; [done| |].
    + intros Heq. apply Hx. by replace x with y by lia.
    + intros Heq. apply (Hsep y x); [by right|left|done].
Qed.

Lemma RemoveProcessLinks_head m c r :
  r ≠ [] → ring m (c :: r) → separate (c :: r) →
  ∃ m', RemoveProcessLinks c m = Some m' ∧
    m' = <[c := c]> (<[c + 8 := c]>
           (<[hd c r + 8 := List.last r c]> (<[List.last r c := hd c r]> m))) ∧
    m !! c = Some (hd c r) ∧ m !! (c + 8) = Some (List.last r c) ∧
    ring m' r.
Proof.
  intros Hne Hring Hsep. destruct r as [|n r']; [done|]. clear Hne.
  set (p := List.last (n :: r') c). simpl hd.
  assert (p ∈ n :: r') as Hp
    by (unfold p; rewrite last_default_cons; apply last_elem_of).
  destruct Hring as (Hf & Hb & Hseg). fold p in Hb. simpl hd in Hf.
  pose proof Hsep as [Hnd Hov].
  apply NoDup_cons in Hnd as [Hc Hnd].
  assert (∀ x, x ∈ n :: r' → x ≠ c ∧ x ≠ c + 8 ∧ c ≠ x + 8) as Hfar.
  { intros x Hx. split; [by intros ->|].
    split; [apply Hov; [by right|left]|apply Hov; [left|by right]]. }
  assert (n ∈ n :: r') as Hn by left.
  destruct (seg_mapped _ _ _ _ p Hseg Hp) as [[vp Hvp] _].
  destruct (seg_mapped _ _ _ _ n Hseg Hn) as [_ [vn Hvn]].
  destruct (Hfar p Hp) as (Hp1 & Hp2 & Hp3).
  destruct (Hfar n Hn) as (Hn1 & Hn2 & Hn3).
  assert (p ≠ n + 8) as Hpn by (apply Hov; by right).
  eexists. split; [|split; [reflexivity|]].
  - unfold RemoveProcessLinks, load, store. rewrite Hb, Hf. simpl.
    rewrite Hvp. simpl. rewrite lookup_insert_ne, Hvn by done. simpl.
    rewrite !lookup_insert_ne, Hb by lia. simpl.
    rewrite !lookup_insert_ne, Hf by lia. done.
  - split; [done|]. split; [done|].
    change (ring ?m (n :: r')) with (seg m (List.last r' n) (n :: r') n).
    rewrite <-(last_default_cons n c). fold p.
    apply (seg_frame (<[n + 8 := p]> (<[p := n]> m))).
    { intros x Hx. destruct (Hfar x Hx) as (? & ? & ?).
      rewrite !(lookup_insert_ne _ c), !(lookup_insert_ne _ (c + 8)) by lia.
      done. }
    apply (seg_set_first _ c); [by apply (separate_cons c)|].
    apply (seg_set_last _ _ _ c); [done|by apply (separate_cons c)|done].
Qed.

(** C7: in a circular doubly linked list of at least two entries (the
    entries [l1], then [current], then [l2], and back to the first),
    RemoveProcessLinks(current) makes the forward link of the previous
    entry point to the next entry and the backward link of the next entry
    point to the previous one, so that the other entries form a circular
    list in their original order, and leaves both links of [current]
    pointing to [current] itself. *)
Theorem RemoveProcessLinks_unlinks (m : gmap Z Z) (l1 l2 : list Z)
    (current : Z) :
  l1 ++ l2 ≠ [] →
  ring m (l1 ++ current :: l2) →
  separate (l1 ++ current :: l2) →
  let previous := List.last (l2 ++ l1) current in
  let next := hd current (l2 ++ l1) in
  ∃ m', RemoveProcessLinks current m = Some m' ∧
    m !! current = Some next ∧ m !! (current + 8) = Some previous ∧
    m' !! previous = Some next ∧ m' !! (next + 8) = Some previous ∧
    ring m' (l1 ++ l2) ∧
    m' !! current = Some current ∧ m' !! (current + 8) = Some current ∧
    (∀ a, a ≠ previous → a ≠ next + 8 → a ≠ current → a ≠ current + 8 →
          m' !! a = m !! a).
Proof.
  intros Hne Hring Hsep previous next.
  assert (l2 ++ l1 ≠ []) as Hne'.
  { intros [-> ->]%app_eq_nil. done. }
  apply (ring_rotate m l1 (current :: l2)) in Hring.
  apply (separate_perm _ ((current :: l2) ++ l1)) in Hsep;
    [|apply Permutation_app_comm].
  simpl app in Hring, Hsep.
  destruct (RemoveProcessLinks_head m current (l2 ++ l1) Hne' Hring Hsep)
    as (m' & Hrun & Hm' & Hf & Hb & Hring').
  fold previous next in Hm', Hf, Hb.
  assert (previous ∈ l2 ++ l1) as Hp.
  { unfold previous. destruct (l2 ++ l1) as [|x t]; [done|].
    rewrite last_default_cons. apply last_elem_of. }
  assert (next ∈ l2 ++ l1) as Hn.
  { unfold next. destruct (l2 ++ l1) as [|x t]; [done|]. left. }
  destruct Hsep as [Hnd Hov]. apply NoDup_cons in Hnd as [Hc _].
  assert (previous ≠ current) by (by intros ->).
  assert (next ≠ current) by (by intros ->).
  assert (previous ≠ current + 8) by (apply Hov; [by right|left]).
  assert (current ≠ next + 8) by (apply Hov; [left|by right]).
  assert (previous ≠ next + 8) by (apply Hov; by right).
  exists m'. split; [done|]. split; [done|]. split; [done|]. subst m'.
  split; [by rewrite !lookup_insert_ne, lookup_insert_eq by lia|].
  split; [by rewrite !lookup_insert_ne, lookup_insert_eq by lia|].
  split; [by apply ring_rotate|].
  split; [by rewrite lookup_insert_eq|].
  split; [by rewrite lookup_insert_ne, lookup_insert_eq by lia|].
  intros a ? ? ? ?. by rewrite !lookup_insert_ne by done.
Qed.

Lemma sample_entries_separate : separate sample_entries.
Proof.
  split.
  - repeat (apply NoDup_cons; split; [absent|]). apply NoDup_nil_2.
  - intros x y Hx Hy.
    repeat (apply elem_of_cons in Hx as [->|Hx]);
      try (by apply elem_of_nil in Hx);
      repeat (apply elem_of_cons in Hy as [->|Hy]);
      try (by apply elem_of_nil in Hy); by vm_compute.
Qed.

Lemma sample_entries_ring : ring (sample_memory good_kernel) sample_entries.
Proof. repeat split; reflexivity. Qed.

Lemma RemoveProcessLinks_unlinks_witness :
  [process_1234 + 0x450] ++ [system_process + 0x450] ≠ [] ∧
  ring (sample_memory good_kernel)
    ([process_1234 + 0x450] ++ (process_5678 + 0x450)
       :: [system_process + 0x450]) ∧
  ∃ m', RemoveProcessLinks (process_5678 + 0x450) (sample_memory good_kernel)
        = Some m' ∧
    ring m' [process_1234 + 0x450; system_process + 0x450] ∧
    m' !! (process_5678 + 0x450) = Some (process_5678 + 0x450) ∧
    m' !! (process_5678 + 0x450 + 8) = Some (process_5678 + 0x450).
Proof.
  split; [discriminate|]. split; [exact sample_entries_ring|].
  destruct (RemoveProcessLinks_unlinks (sample_memory good_kernel)
              [process_1234 + 0x450] [system_process + 0x450]
              (process_5678 + 0x450))
    as (m' & Hrun & _ & _ & _ & _ & Hring & Hf & Hb & _);
    [discriminate|exact sample_entries_ring|exact sample_entries_separate|].
  exists m'. split; [exact Hrun|]. split; [exact Hring|].
  split; [exact Hf|exact Hb].
Defined.

(** ** The offset resolver and the process hider *)

Lemma GetActiveProcessLinksOffset_resolved k :
  NT_SUCCESS (RtlGetVersion k).1 = true →
  GetActiveProcessLinksOffset k ∈ [0x2f0; 0x2e8; 0x448].
Proof.
  unfold GetActiveProcessLinksOffset.
  destruct (RtlGetVersion k) as [result build]. simpl. intros ->.
  repeat case_bool_decide; by repeat constructor.
Qed.

Lemma GetActiveProcessLinksOffset_failed k :
  NT_SUCCESS (RtlGetVersion k).1 = false →
  GetActiveProcessLinksOffset k = to_ULONG STATUS_UNSUCCESSFUL.
Proof.
  unfold GetActiveProcessLinksOffset.
  destruct (RtlGetVersion k) as [result build]. simpl. by intros ->.
Qed.

Lemma GetTokenOffset_failed k :
  NT_SUCCESS (RtlGetVersion k).1 = false →
  GetTokenOffset k = to_UINT64 STATUS_UNSUCCESSFUL.
Proof.
  unfold GetTokenOffset.
  destruct (RtlGetVersion k) as [result build]. simpl. by intros ->.
Qed.

(** HideProcess checks the offset it was given: when the version query
    fails it gives STATUS_UNSUCCESSFUL and reads or writes nothing. *)
Lemma HideProcess_aborts_without_version k fuel pid m :
  NT_SUCCESS (RtlGetVersion k).1 = false →
  HideProcess k fuel pid m = Done (STATUS_UNSUCCESSFUL, m, []).
Proof.
  intros Hv. unfold HideProcess.
  rewrite GetActiveProcessLinksOffset_failed by done.
  by rewrite Z.eqb_refl.
Qed.


Section hide_walk.
Variables (m : gmap Z Z) (pid pidOffset listOffset e0 : Z).
Hypothesis Hoff : 0 ≤ pidOffset ∧ 0 ≤ listOffset.

End hide_walk.

Lemma resolved_offset_bounds k :
  NT_SUCCESS (RtlGetVersion k).1 = true →
  0 ≤ GetActiveProcessLinksOffset k ∧
  GetActiveProcessLinksOffset k + 8 < 2 ^ 32 ∧
  GetActiveProcessLinksOffset k ≠ to_ULONG STATUS_UNSUCCESSFUL.
Proof.
  intros Hv. pose proof (GetActiveProcessLinksOffset_resolved k Hv) as Hin.
  rewrite !elem_of_cons, elem_of_nil in Hin.
  destruct Hin as [->|[->|[->|[]]]]; by vm_compute.
Qed.




(** ** The privilege elevator *)

(** C9: ElevateProcess releases each reference it took, once, on every
    path: none is taken when the lookup of the target fails, the target is
    released when the lookup of the System process fails, and both are
    released after the copy.  When either lookup fails it returns that
    failure status and leaves memory as it was.  When both succeed it
    copies the 8-byte cell at the token offset of the System process into
    the cell at the same offset of the target process, and changes nothing
    else. *)
Theorem ElevateProcess_paths (k : Kernel) (targetPid : Z) (m : gmap Z Z) :
  let '(st1, targetProcess) := PsLookupProcessByProcessId k targetPid in
  let '(st2, privilegedProcess) :=
    PsLookupProcessByProcessId k SYSTEM_PROCESS_PID in
  let tokenOffset := GetTokenOffset k in
  let src := to_UINT64 (privilegedProcess + tokenOffset) in
  let dst := to_UINT64 (targetProcess + tokenOffset) in
  (NT_SUCCESS st1 = false →
   ElevateProcess k targetPid m = Some (st1, m, [])) ∧
  (NT_SUCCESS st1 = true → NT_SUCCESS st2 = false →
   ElevateProcess k targetPid m
   = Some (st2, m, [EvReference targetProcess;
                    EvDereference targetProcess])) ∧
  (NT_SUCCESS st1 = true → NT_SUCCESS st2 = true →
   ∀ token, m !! src = Some token → is_Some (m !! dst) →
   ElevateProcess k targetPid m
   = Some (st2, <[dst := token]> m,
           [EvReference targetProcess; EvReference privilegedProcess;
            EvDereference privilegedProcess;
            EvDereference targetProcess])) ∧
  (∀ st m' t, ElevateProcess k targetPid m = Some (st, m', t) →
   dereferences t ≡ₚ references t).
Proof.
  unfold ElevateProcess.
  destruct (PsLookupProcessByProcessId k targetPid) as [st1 tp] eqn:E1.
  destruct (PsLookupProcessByProcessId k SYSTEM_PROCESS_PID)
    as [st2 pp] eqn:E2.
  set (src := to_UINT64 (pp + GetTokenOffset k)).
  set (dst := to_UINT64 (tp + GetTokenOffset k)).
  split; [by intros ->|]. split; [by intros -> ->|]. split.
  - intros -> -> token Hsrc [old Hdst]. simpl.
    unfold load, store. rewrite Hsrc. simpl. by rewrite Hdst.
  - intros st m' t. destruct (NT_SUCCESS st1); simpl.
    + destruct (NT_SUCCESS st2); simpl.
      * destruct (load m src) as [token|]; simpl; [|done].
        destruct (store m dst token); simpl; [|done].
        intros [= <- <- <-]. simpl. apply Permutation_swap.
      * by intros [= <- <- <-].
    + by intros [= <- <- <-].
Qed.

Lemma ElevateProcess_paths_witness :
  NT_SUCCESS STATUS_SUCCESS = true ∧
  sample_memory good_kernel !! (system_process + 0x4b8) = Some 0x5555 ∧
  ElevateProcess good_kernel 1234 (sample_memory good_kernel)
  = Some (STATUS_SUCCESS,
          <[process_1234 + 0x4b8 := 0x5555]> (sample_memory good_kernel),
          [EvReference process_1234; EvReference system_process;
           EvDereference system_process; EvDereference process_1234]).
Proof.
  split; [reflexivity|]. split; [reflexivity|].
  pose proof (ElevateProcess_paths good_kernel 1234
                (sample_memory good_kernel)) as H.
  cbv beta iota zeta delta [good_kernel sample_kernel
    PsLookupProcessByProcessId SYSTEM_PROCESS_PID Z.eqb Pos.eqb] in H.
  destruct H as (_ & _ & H & _).
  apply (H eq_refl eq_refl 0x5555); [reflexivity|].
  exists 0x1111. reflexivity.
Defined.

(** C3 does not hold for ElevateProcess: with a failing version query
    GetTokenOffset gives (UINT64)STATUS_UNSUCCESSFUL, and ElevateProcess,
    which never looks at it, uses it as the offset: it overwrites the cell
    0x3FFFFFFF bytes below the target process object and reports
    success. *)
Theorem ElevateProcess_ignores_version_failure :
  NT_SUCCESS (RtlGetVersion versionless_kernel).1 = false ∧
  GetTokenOffset versionless_kernel = 0xFFFFFFFFC0000001 ∧
  ElevateProcess versionless_kernel 1234 (sample_memory versionless_kernel)
  = Some (STATUS_SUCCESS,
          <[process_1234 - 0x3FFFFFFF := 0x5555]>
            (sample_memory versionless_kernel),
          [EvReference process_1234; EvReference system_process;
           EvDereference system_process; EvDereference process_1234]).
Proof. split; [reflexivity|]. split; [reflexivity|]. by vm_compute. Qed.

(** ** The remote module patcher: resources *)

Lemma pool_live_app t1 t2 live :
  pool_live (t1 ++ t2) live = pool_live t2 (pool_live t1 live).
Proof.
  revert live. induction t1 as [|e t1 IH]; intros live; [done|].
  destruct e; simpl; apply IH.
Qed.

Lemma attach_depth_app t1 t2 :
  attach_depth (t1 ++ t2) = attach_depth t1 + attach_depth t2.
Proof.
  induction t1 as [|e t1 IH]; [done|]. destruct e; simpl; lia.
Qed.

Lemma neutral_pool_live t live : Forall neutral t → pool_live t live = live.
Proof.
  induction 1 as [|e t He _ IH]; [done|]. by destruct e.
Qed.

Lemma neutral_attach_depth t : Forall neutral t → attach_depth t = 0.
Proof.
  induction 1 as [|e t He _ IH]; [done|]. by destruct e.
Qed.

Section patch_resources.
Variables IMAGE_DOS_SIGNATURE IMAGE_NT_SIGNATURE : Z.
Variable PAGE_EXECUTE_READWRITE : Z.
Variable k : Kernel.
Local Abbreviation patch :=
  (PatchModule IMAGE_DOS_SIGNATURE IMAGE_NT_SIGNATURE
     PAGE_EXECUTE_READWRITE k).

Lemma apply_patch_neutral TargetProcess base j :
  Forall neutral (apply_patch PAGE_EXECUTE_READWRITE k TargetProcess base j).2.
Proof.
  unfold apply_patch.
  destruct (ObOpenObjectByPointer k TargetProcess) as [ost h].
  destruct (negb (ost =? STATUS_SUCCESS)); [by constructor|].
  destruct (ZwProtectVirtualMemory k h _ 6 PAGE_EXECUTE_READWRITE)
    as [[[status fa] len] old].
  destruct (negb (status =? STATUS_SUCCESS)); simpl.
  - by repeat constructor.
  - destruct (ZwProtectVirtualMemory k h fa len old) as [[[rst ?] ?] ?].
    simpl. by repeat constructor.
Qed.

Lemma patch_attached_neutral TargetProcess moduleName functionName :
  Forall neutral
    (patch_attached IMAGE_DOS_SIGNATURE IMAGE_NT_SIGNATURE
       PAGE_EXECUTE_READWRITE k TargetProcess moduleName functionName).2.
Proof.
  unfold patch_attached.
  destruct (locate _ _ k TargetProcess moduleName functionName)
    as [delays found].
  assert (Forall neutral (replicate delays EvDelay)) as Hd
    by (apply Forall_replicate; done).
  destruct found as [| |base j]; simpl; [done..|].
  pose proof (apply_patch_neutral TargetProcess base j) as Hb.
  destruct (apply_patch _ k TargetProcess base j) as [status body].
  simpl in *. by apply Forall_app.
Qed.

(** Past the process lookup, every path goes through [CleanUp]: the
    attach is matched by the detach and the three buffers are freed.
    So do the returns before it, which free what was allocated. *)
Lemma PatchModule_clean_paths req st t :
  patch req = Some (st, t) →
  (PsLookupProcessByProcessId k (Pid req)).1 = STATUS_SUCCESS ∨
  ExAllocatePool k buf_moduleName = false ∨
  ExAllocatePool k buf_functionName = false ∨
  ExAllocatePool k buf_patch = false ∨
  ZwProtectVirtualMemory_loaded k = false ∨
  MmCopyVirtualMemory_loaded k = false →
  pool_live t [] = [] ∧ attach_depth t = 0.
Proof.
  unfold PatchModule.
  destruct (ZwProtectVirtualMemory_loaded k); simpl;
    [|by intros [= <- <-]].
  destruct (MmCopyVirtualMemory_loaded k); simpl; [|by intros [= <- <-]].
  destruct (ExAllocatePool k buf_moduleName); simpl;
    [|by intros [= <- <-]].
  destruct (ExAllocatePool k buf_functionName); simpl;
    [|by intros [= <- <-]].
  destruct (ExAllocatePool k buf_patch); simpl; [|by intros [= <- <-]].
  destruct (memcpy _ _ _) as [functionName|]; simpl; [|done].
  destruct (PsLookupProcessByProcessId k (Pid req)) as [lst tp]. simpl.
  intros Hrun [->|[?|[?|[?|[?| ?]]]]]; try done.
  simpl in Hrun.
  pose proof (patch_attached_neutral tp (c_str (ModuleName req))
                functionName) as Hn.
  destruct (patch_attached _ _ _ k tp _ functionName) as [status body].
  simpl in Hn. injection Hrun as <- <-.
  simpl. rewrite pool_live_app, attach_depth_app.
  rewrite (neutral_pool_live body), (neutral_attach_depth body) by done.
  split; [done|]. simpl. lia.
Qed.

(** The return after a failed process lookup is the one that skips
    [CleanUp]: the three buffers stay allocated. *)
Lemma PatchModule_lookup_failure_leaks req lst tp :
  ZwProtectVirtualMemory_loaded k = true →
  MmCopyVirtualMemory_loaded k = true →
  (∀ b, ExAllocatePool k b = true) →
  strlen (Patch req) ≤ strlen (FunctionName req) + 1 →
  PsLookupProcessByProcessId k (Pid req) = (lst, tp) →
  NT_SUCCESS lst = false →
  ∃ t, patch req = Some (STATUS_UNSUCCESSFUL, t) ∧
       pool_live t [] = [buf_moduleName; buf_functionName; buf_patch] ∧
       attach_depth t = 0.
Proof.
  intros Hz Hc Hall Hlen Hlook Hfail. unfold PatchModule.
  rewrite Hz, Hc, !Hall, Hlook. simpl.
  destruct (memcpy _ _ _) as [functionName|] eqn:Hm; simpl.
  - assert (lst ≠ STATUS_SUCCESS) as Hne by (by intros ->).
    rewrite Hfail, (proj2 (Z.eqb_neq _ _) Hne). simpl.
    eexists. split; [done|]. by simpl.
  - exfalso. unfold memcpy in Hm.
    assert (Z.of_nat (length (c_str (FunctionName req)))
            = strlen (FunctionName req) + 1) as Hl.
    { unfold c_str. rewrite length_app, length_take. simpl.
      assert (∀ s, 0 ≤ strlen s ≤ Z.of_nat (length s)) as Hs.
      { induction s as [|c s IH]; simpl; [lia|].
        destruct (c =? 0); lia. }
      specialize (Hs (FunctionName req)). lia. }
    rewrite Hl in Hm.
    rewrite (proj2 (Z.leb_le _ _) Hlen) in Hm. done.
Qed.
End patch_resources.

(** C4 does not hold on the return that follows a failed process lookup:
    for a request naming a process that does not exist, PatchModule
    returns STATUS_UNSUCCESSFUL with the three buffers it allocated still
    allocated (no attach was made, so none is left open). *)
Theorem PatchModule_leaks_on_lookup_failure :
  PsLookupProcessByProcessId good_kernel (Pid lost_request)
  = (STATUS_INVALID_PARAMETER, 0) ∧
  PatchModule 0x5A4D 0x4550 0x40 good_kernel lost_request
  = Some (STATUS_UNSUCCESSFUL,
          [EvAlloc buf_moduleName 10; EvMemcpy buf_moduleName 10;
           EvAlloc buf_functionName 4; EvMemcpy buf_functionName 4;
           EvAlloc buf_patch 2; EvMemcpy buf_functionName 2]) ∧
  pool_live [EvAlloc buf_moduleName 10; EvMemcpy buf_moduleName 10;
             EvAlloc buf_functionName 4; EvMemcpy buf_functionName 4;
             EvAlloc buf_patch 2; EvMemcpy buf_functionName 2] []
  = [buf_moduleName; buf_functionName; buf_patch].
Proof. split; [reflexivity|]. split; reflexivity. Qed.

(** ** The remote module patcher: what is written *)

Lemma strlen_bounds s : 0 ≤ strlen s ≤ Z.of_nat (length s).
Proof.
  induction s as [|c s IH]; simpl; [lia|]. destruct (c =? 0); lia.
Qed.

Lemma c_str_length s : Z.of_nat (length (c_str s)) = strlen s + 1.
Proof.
  unfold c_str. rewrite length_app, length_take. simpl.
  pose proof (strlen_bounds s). lia.
Qed.

(** The third [memcpy] of PatchModule copies the start of the function
    name over itself: inside the buffer it changes nothing. *)
Lemma memcpy_c_str_self s n :
  memcpy (c_str s) (c_str s) n
  = if n <=? strlen s + 1 then Some (c_str s) else None.
Proof.
  unfold memcpy. rewrite c_str_length, andb_diag.
  destruct (n <=? strlen s + 1); [|done]. by rewrite take_drop.
Qed.

Lemma copies_app t1 t2 : copies (t1 ++ t2) = copies t1 ++ copies t2.
Proof. apply omap_app. Qed.

Lemma protects_app t1 t2 : protects (t1 ++ t2) = protects t1 ++ protects t2.
Proof. apply omap_app. Qed.

Lemma memcpy_targets_app t1 t2 :
  memcpy_targets (t1 ++ t2) = memcpy_targets t1 ++ memcpy_targets t2.
Proof. apply omap_app. Qed.

Lemma target_memory_app t1 t2 proc mem :
  target_memory (t1 ++ t2) proc mem
  = target_memory t2 proc (target_memory t1 proc mem).
Proof.
  revert mem. induction t1 as [|e t1 IH]; intros mem; [done|].
  destruct e; simpl; apply IH.
Qed.

Lemma copies_replicate_delay n : copies (replicate n EvDelay) = [].
Proof. induction n; [done|]. by simpl. Qed.

Lemma protects_replicate_delay n : protects (replicate n EvDelay) = [].
Proof. induction n; [done|]. by simpl. Qed.

Lemma memcpy_targets_replicate_delay n :
  memcpy_targets (replicate n EvDelay) = [].
Proof. induction n; [done|]. by simpl. Qed.

Lemma target_memory_replicate_delay n proc mem :
  target_memory (replicate n EvDelay) proc mem = mem.
Proof. induction n; [done|]. by simpl. Qed.

Lemma write_bytes_outside mem base data n a :
  a < base ∨ base + n ≤ a → write_bytes mem base data n a = mem a.
Proof.
  intros Ha. unfold write_bytes.
  destruct (base <=? a) eqn:E1, (a <? base + n) eqn:E2; simpl; try done.
  apply Z.leb_le in E1. apply Z.ltb_lt in E2. lia.
Qed.

Lemma write_bytes_inside mem base data n i :
  0 ≤ i < n →
  write_bytes mem base data n (base + i) = nth (Z.to_nat i) data 0.
Proof.
  intros Hi. unfold write_bytes.
  rewrite (proj2 (Z.leb_le base (base + i))) by lia.
  rewrite (proj2 (Z.ltb_lt (base + i) (base + n))) by lia.
  simpl. do 2 f_equal. lia.
Qed.

(** C5, as amended: when the function to patch is resolved, the staging
    copies stay inside their buffers, the handle to the process opens, and
    the protection change succeeds and leaves the base it was given where
    it was, PatchModule asks for the protection change on exactly 6 bytes
    at the resolved function address and makes one copy, of exactly 6
    bytes, whatever the caller's patch is, to that address; a copy that
    succeeds changes these 6 bytes of the target and no other byte; then
    the old protection is asked for again at that address, with the size
    the routine reported.  Nothing is said of a protection routine that
    moves the base. *)
Theorem PatchModule_writes_six_bytes
    (IMAGE_DOS_SIGNATURE IMAGE_NT_SIGNATURE PAGE_EXECUTE_READWRITE : Z)
    (k : Kernel) (req : PatchedModule)
    (TargetProcess moduleImageBase j h patchLen' old : Z)
    (delays : nat) :
  ZwProtectVirtualMemory_loaded k = true →
  MmCopyVirtualMemory_loaded k = true →
  (∀ b, ExAllocatePool k b = true) →
  strlen (Patch req) ≤ strlen (FunctionName req) + 1 →
  PsLookupProcessByProcessId k (Pid req) = (STATUS_SUCCESS, TargetProcess) →
  locate IMAGE_DOS_SIGNATURE IMAGE_NT_SIGNATURE k TargetProcess
    (c_str (ModuleName req)) (c_str (FunctionName req))
  = (delays, Resolved moduleImageBase j) →
  ObOpenObjectByPointer k TargetProcess = (STATUS_SUCCESS, h) →
  let img := image_at k moduleImageBase in
  let functionAddress := moduleImageBase + addresses img (ordinals img j) in
  ZwProtectVirtualMemory k h functionAddress 6 PAGE_EXECUTE_READWRITE
  = (STATUS_SUCCESS, functionAddress, patchLen', old) →
  ∃ t rst,
    PatchModule IMAGE_DOS_SIGNATURE IMAGE_NT_SIGNATURE
      PAGE_EXECUTE_READWRITE k req
    = Some (MmCopyVirtualMemory k, t) ∧
    protects t
    = [(h, functionAddress, 6, PAGE_EXECUTE_READWRITE, STATUS_SUCCESS);
       (h, functionAddress, patchLen', old, rst)] ∧
    copies t
    = [(testPatch, TargetProcess, functionAddress, 6,
        MmCopyVirtualMemory k)] ∧
    (MmCopyVirtualMemory k = STATUS_SUCCESS →
     ∀ mem,
       (∀ i, 0 ≤ i < 6 →
          target_memory t TargetProcess mem (functionAddress + i)
          = nth (Z.to_nat i) testPatch 0) ∧
       (∀ a, a < functionAddress ∨ functionAddress + 6 ≤ a →
          target_memory t TargetProcess mem a = mem a)).
Proof.
  intros Hz Hc Hall Hlen Hlook Hloc Hopen img functionAddress Hprot.
  unfold PatchModule. rewrite Hz, Hc, !Hall, Hlook. simpl.
  rewrite memcpy_c_str_self, (proj2 (Z.leb_le _ _) Hlen). simpl.
  unfold patch_attached. rewrite Hloc. unfold apply_patch.
  rewrite Hopen. simpl. fold img functionAddress. rewrite Hprot. simpl.
  destruct (ZwProtectVirtualMemory k h functionAddress patchLen' old)
    as [[[rst ?] ?] ?].
  eexists _, rst. split; [reflexivity|].
  split; [|split].
  - simpl. rewrite !protects_app, protects_replicate_delay. done.
  - simpl. rewrite !copies_app, copies_replicate_delay. done.
  - intros Hok mem. simpl.
    rewrite !target_memory_app, target_memory_replicate_delay. simpl.
    rewrite Z.eqb_refl, Hok. simpl. split.
    + intros i Hi. by apply write_bytes_inside.
    + intros a Ha. by apply write_bytes_outside.
Qed.

Lemma PatchModule_writes_six_bytes_witness :
  strlen (Patch (sample_request [0x90; 0x90; 0x90; 0x90]))
  ≤ strlen (FunctionName (sample_request [0x90; 0x90; 0x90; 0x90])) + 1 ∧
  locate 0x5A4D 0x4550 good_kernel process_1234
    (c_str (chars "demo")) (c_str (chars "Foo"))
  = (0%nat, Resolved 0x7FF900000000 1) ∧
  ZwProtectVirtualMemory good_kernel 0x44 0x7FF900001200 6 0x40
  = (STATUS_SUCCESS, 0x7FF900001200, 6, 0x20) ∧
  ∃ t rst,
    PatchModule 0x5A4D 0x4550 0x40 good_kernel
      (sample_request [0x90; 0x90; 0x90; 0x90])
    = Some (STATUS_SUCCESS, t) ∧
    protects t = [(0x44, 0x7FF900001200, 6, 0x40, STATUS_SUCCESS);
                  (0x44, 0x7FF900001200, 6, 0x20, rst)] ∧
    copies t
    = [(testPatch, process_1234, 0x7FF900001200, 6, STATUS_SUCCESS)].
Proof.
  assert (strlen (Patch (sample_request [0x90; 0x90; 0x90; 0x90]))
          ≤ strlen (FunctionName (sample_request [0x90; 0x90; 0x90; 0x90]))
            + 1) as Hlen by (by vm_compute).
  split; [exact Hlen|]. split; [reflexivity|]. split; [reflexivity|].
  destruct (PatchModule_writes_six_bytes 0x5A4D 0x4550 0x40 good_kernel
              (sample_request [0x90; 0x90; 0x90; 0x90])
              process_1234 0x7FF900000000 1 0x44 6 0x20 0
              eq_refl eq_refl (λ _, eq_refl) Hlen eq_refl eq_refl eq_refl
              eq_refl)
    as (t & rst & Hrun & Hprot & Hcopies & _).
  exists t, rst. split; [exact Hrun|]. split; [exact Hprot|exact Hcopies].
Defined.

(** The claim C5 as the specification words it fails when the handle to
    the process cannot be opened: the function is resolved, and PatchModule
    changes no protection and writes nothing. *)
Lemma PatchModule_no_handle_counterexample :
  locate 0x5A4D 0x4550 handleless_kernel process_1234
    (c_str (chars "demo")) (c_str (chars "Foo"))
  = (0%nat, Resolved 0x7FF900000000 1) ∧
  PatchModule 0x5A4D 0x4550 0x40 handleless_kernel (sample_request testPatch)
  = Some (STATUS_UNSUCCESSFUL,
          [EvAlloc buf_moduleName 10; EvMemcpy buf_moduleName 10;
           EvAlloc buf_functionName 4; EvMemcpy buf_functionName 4;
           EvAlloc buf_patch 2; EvMemcpy buf_functionName 2;
           EvReference process_1234; EvAttach process_1234;
           EvDetach; EvFree buf_moduleName; EvFree buf_functionName;
           EvFree buf_patch; EvDereference process_1234]) ∧
  protects [EvAlloc buf_moduleName 10; EvMemcpy buf_moduleName 10;
            EvAlloc buf_functionName 4; EvMemcpy buf_functionName 4;
            EvAlloc buf_patch 2; EvMemcpy buf_functionName 2;
            EvReference process_1234; EvAttach process_1234;
            EvDetach; EvFree buf_moduleName; EvFree buf_functionName;
            EvFree buf_patch; EvDereference process_1234] = [] ∧
  copies [EvAlloc buf_moduleName 10; EvMemcpy buf_moduleName 10;
          EvAlloc buf_functionName 4; EvMemcpy buf_functionName 4;
          EvAlloc buf_patch 2; EvMemcpy buf_functionName 2;
          EvReference process_1234; EvAttach process_1234;
          EvDetach; EvFree buf_moduleName; EvFree buf_functionName;
          EvFree buf_patch; EvDereference process_1234] = [].
Proof. repeat split; reflexivity. Qed.

(** With a protection routine that rounds its in/out base to the page,
    as the memory manager does, the copy goes to the start of the page,
    0x200 bytes below the function: the copy is given the variable the
    protection call has overwritten, not the resolved address. *)
Example PatchModule_copy_follows_protect_base :
  copies (default (0, [])
            (PatchModule 0x5A4D 0x4550 0x40 paging_kernel
               (sample_request testPatch))).2
  = [(testPatch, process_1234, 0x7FF900001000, 6, STATUS_SUCCESS)].
Proof. reflexivity. Qed.

(** A patch longer than the function name and its terminator makes the
    third [memcpy] run past the end of the function-name buffer. *)
Example PatchModule_staging_overrun :
  PatchModule 0x5A4D 0x4550 0x40 good_kernel
    (sample_request [1; 2; 3; 4; 5; 6; 7]) = None.
Proof. reflexivity. Qed.

Section patch_source.
Variables IMAGE_DOS_SIGNATURE IMAGE_NT_SIGNATURE : Z.
Variable PAGE_EXECUTE_READWRITE : Z.
Variable k : Kernel.

Lemma apply_patch_copies TargetProcess base j :
  let t := (apply_patch PAGE_EXECUTE_READWRITE k TargetProcess base j).2 in
  Forall copies_testPatch (copies t) ∧ memcpy_targets t = [].
Proof.
  unfold apply_patch.
  destruct (ObOpenObjectByPointer k TargetProcess) as [ost h].
  destruct (negb (ost =? STATUS_SUCCESS)); [by split|].
  destruct (ZwProtectVirtualMemory k h _ 6 PAGE_EXECUTE_READWRITE)
    as [[[status fa] len] old].
  destruct (negb (status =? STATUS_SUCCESS)); simpl; [by split|].
  destruct (ZwProtectVirtualMemory k h fa len old) as [[[rst ?] ?] ?].
  simpl. split; [|done]. by repeat constructor.
Qed.

Lemma patch_attached_copies TargetProcess moduleName functionName :
  let t := (patch_attached IMAGE_DOS_SIGNATURE IMAGE_NT_SIGNATURE
              PAGE_EXECUTE_READWRITE k TargetProcess moduleName
              functionName).2 in
  Forall copies_testPatch (copies t) ∧ memcpy_targets t = [].
Proof.
  unfold patch_attached.
  destruct (locate _ _ k TargetProcess moduleName functionName)
    as [delays found].
  destruct found as [| |base j]; simpl;
    rewrite ?copies_replicate_delay, ?memcpy_targets_replicate_delay;
    [by split..|].
  pose proof (apply_patch_copies TargetProcess base j) as [Hc Hm].
  destruct (apply_patch _ k TargetProcess base j) as [status body].
  simpl in *.
  rewrite copies_app, memcpy_targets_app, copies_replicate_delay,
    memcpy_targets_replicate_delay, Hm.
  by split.
Qed.
End patch_source.

(** The returns of PatchModule before the attach: the same events in both
    runs, up to the sizes of the patch buffer. *)
Local Ltac early_return :=
  intros [= <- <-] [= <- <-]; simpl;
  repeat split;
  first [ done | constructor | absent ].

(** C6: every copy PatchModule makes into the target carries the six bytes
    0xB8 0x57 0x00 0x07 0x80 0xC3 of testPatch, whatever the Patch field
    holds: two runs on the same machine that differ only in the Patch
    bytes, both inside the staging buffer, give the same status and make
    the same copies and protection changes.  No [memcpy] goes to the patch
    buffer: the staging [memcpy]s go to the module-name buffer once and to
    the function-name buffer twice. *)
Theorem PatchModule_patch_independent
    (IMAGE_DOS_SIGNATURE IMAGE_NT_SIGNATURE PAGE_EXECUTE_READWRITE : Z)
    (k : Kernel) (req : PatchedModule) (patch' : list Z)
    (st st' : NTSTATUS) (t t' : list event) :
  PatchModule IMAGE_DOS_SIGNATURE IMAGE_NT_SIGNATURE PAGE_EXECUTE_READWRITE
    k req = Some (st, t) →
  PatchModule IMAGE_DOS_SIGNATURE IMAGE_NT_SIGNATURE PAGE_EXECUTE_READWRITE
    k (with_patch req patch') = Some (st', t') →
  st' = st ∧ copies t' = copies t ∧ protects t' = protects t ∧
  Forall copies_testPatch (copies t) ∧
  (buf_patch ∉ memcpy_targets t) ∧
  (ExAllocatePool k buf_patch = true →
   ZwProtectVirtualMemory_loaded k = true →
   MmCopyVirtualMemory_loaded k = true →
   ExAllocatePool k buf_moduleName = true →
   ExAllocatePool k buf_functionName = true →
   memcpy_targets t = [buf_moduleName; buf_functionName; buf_functionName]).
Proof.
  unfold PatchModule. simpl.
  destruct (ZwProtectVirtualMemory_loaded k); simpl; [|early_return].
  destruct (MmCopyVirtualMemory_loaded k); simpl; [|early_return].
  destruct (ExAllocatePool k buf_moduleName); simpl; [|early_return].
  destruct (ExAllocatePool k buf_functionName); simpl; [|early_return].
  destruct (ExAllocatePool k buf_patch); simpl; [|early_return].
  rewrite !memcpy_c_str_self.
  destruct (strlen (Patch req) <=? _); simpl; [|done].
  destruct (strlen patch' <=? _); simpl; [|done].
  destruct (PsLookupProcessByProcessId k (Pid req)) as [lst tp].
  destruct (negb (lst =? STATUS_SUCCESS)); simpl.
  - destruct (NT_SUCCESS lst); simpl; early_return.
  - pose proof (patch_attached_copies IMAGE_DOS_SIGNATURE IMAGE_NT_SIGNATURE
                  PAGE_EXECUTE_READWRITE k tp (c_str (ModuleName req))
                  (c_str (FunctionName req))) as [Hc Hm].
    destruct (patch_attached _ _ _ k tp _ _) as [status body]. simpl in *.
    intros [= <- <-] [= <- <-].
    destruct (NT_SUCCESS lst); simpl;
      rewrite ?copies_app, ?memcpy_targets_app, ?Hm, ?app_nil_r; simpl;
      (split; [done|]); (split; [done|]); (split; [done|]);
      (split; [done|]); (split; [absent|done]).
Qed.

Lemma PatchModule_patch_independent_witness :
  ∃ t t',
    PatchModule 0x5A4D 0x4550 0x40 good_kernel
      (sample_request [0x90; 0x90; 0x90; 0x90]) = Some (STATUS_SUCCESS, t) ∧
    PatchModule 0x5A4D 0x4550 0x40 good_kernel
      (with_patch (sample_request [0x90; 0x90; 0x90; 0x90]) testPatch)
    = Some (STATUS_SUCCESS, t') ∧
    copies t' = copies t ∧ Forall copies_testPatch (copies t) ∧
    (buf_patch ∉ memcpy_targets t).
Proof.
  eexists _, _. split; [reflexivity|]. split; [reflexivity|].
  destruct (PatchModule_patch_independent 0x5A4D 0x4550 0x40 good_kernel
              (sample_request [0x90; 0x90; 0x90; 0x90]) testPatch
              _ _ _ _ eq_refl eq_refl)
    as (_ & Hc & _ & Hall & Hm & _).
  split; [exact Hc|]. split; [exact Hall|exact Hm].
Defined.

(** * Further properties *)

(** ** The registry *)

Lemma scan_past_end pids v i n :
  (i ≤ length pids < i + n)%nat → v ∉ pids → scan pids v i n = None.
Proof.
  revert i. induction n as [|n IH]; intros i Hi Hv; simpl; [lia|].
  destruct (pids !! i) as [x|] eqn:E; simpl; [|done].
  rewrite bool_decide_eq_false_2.
  - apply IH; [|done]. apply lookup_lt_Some in E. lia.
  - intros ->. apply Hv. by eapply list_elem_of_lookup_2.
Qed.

(** X1: from the empty registry, a sequence of calls that never adds pid 0
    never reads outside the array: every call gives a result, the array
    keeps its size, PidsCount stays between 0 and the number of occupied
    cells, which is at most MAX_PIDS, every pid stored is one that was
    added, and FindProcess and RemoveProcess of any pid are defined in the
    state reached. *)
Theorem registry_calls_stay_in_bounds (MAX_PIDS : nat) (cs : list call) :
  Add 0 ∉ cs →
  ∃ rs g, run MAX_PIDS cs (empty_registry MAX_PIDS) = Some (rs, g) ∧
    length rs = length cs ∧ length (Pids g) = MAX_PIDS ∧
    0 ≤ PidsCount g ≤ Z.of_nat (occupied g) ∧
    (occupied g ≤ MAX_PIDS)%nat ∧
    (∀ x, x ∈ Pids g → x = 0 ∨ Add x ∈ cs) ∧
    (∀ pid, is_Some (FindProcess pid g) ∧ is_Some (RemoveProcess pid g)).
Proof.
  intros Hcs.
  destruct (run_wf MAX_PIDS cs _ (empty_registry_wf MAX_PIDS) Hcs)
    as (rs & g & Hrun & Hwf & Hlen & Hin).
  pose proof Hwf as [Hsize Hcnt]. pose proof (occupied_le_length g).
  exists rs, g. split; [done|]. split; [done|]. split; [done|].
  split; [done|]. split; [lia|]. split.
  - intros x [->|[Hx| ?]]%Hin; auto. left.
    simpl in Hx. by apply elem_of_replicate_inv in Hx.
  - intros pid. split; [by eapply FindProcess_wf|].
    destruct (RemoveProcess_wf MAX_PIDS pid g Hwf) as (b & g' & -> & _).
    eauto.
Qed.

Lemma registry_calls_stay_in_bounds_witness :
  (Add 0 ∉ [Add 7; Remove 0; Add 8; Remove 7; Find 8]) ∧
  ∃ rs g, run 4 [Add 7; Remove 0; Add 8; Remove 7; Find 8] (empty_registry 4)
          = Some (rs, g) ∧ 0 ≤ PidsCount g ≤ Z.of_nat (occupied g).
Proof.
  assert (Add 0 ∉ [Add 7; Remove 0; Add 8; Remove 7; Find 8]) as H by absent.
  split; [exact H|].
  destruct (registry_calls_stay_in_bounds 4 _ H)
    as (rs & g & Hrun & _ & _ & Hcnt & _).
  by exists rs, g.
Defined.

(** X2: FindProcess answers true only for a value it read in one of the
    first PidsCount cells, so only for a stored pid; and when every
    occupied cell is below PidsCount it answers true for every stored
    nonzero pid. *)
Theorem FindProcess_true_iff_stored (MAX_PIDS : nat) (g : ProcessesList)
    (pid : Z) :
  registry_wf MAX_PIDS g →
  (FindProcess pid g = Some true →
   ∃ i, (i < Z.to_nat (PidsCount g))%nat ∧ Pids g !! i = Some pid) ∧
  (covered g = true → pid ≠ 0 → pid ∈ Pids g →
   FindProcess pid g = Some true).
Proof.
  intros Hwf. unfold FindProcess.
  destruct (scan_count_in_bounds MAX_PIDS pid g Hwf) as [r Hr].
  rewrite Hr. simpl. split.
  - destruct r as [i|]; [|done]. intros _.
    apply scan_hit_inv in Hr as (Hi & Hpid & _). exists i. split; [lia|done].
  - intros Hcov Hpid (i & Hi)%list_elem_of_lookup.
    destruct r as [j|]; [done|exfalso].
    destruct (decide (i < Z.to_nat (PidsCount g))%nat) as [Hlt|Hge].
    + destruct (scan_miss_inv _ _ _ _ Hr i) as (x & Hx & Hne); [lia|].
      congruence.
    + apply Hpid. eapply (covered_spec g Hcov i); [lia|done].
Qed.

Lemma FindProcess_true_iff_stored_witness :
  registry_wf 4 sample_registry ∧ covered sample_registry = true ∧
  FindProcess 1234 sample_registry = Some true.
Proof.
  assert (registry_wf 4 sample_registry) as Hwf.
  { split; [reflexivity|]. by vm_compute. }
  split; [exact Hwf|]. split; [reflexivity|].
  apply (FindProcess_true_iff_stored 4 sample_registry 1234 Hwf);
    [reflexivity|discriminate|]. by left.
Defined.

Lemma NoDup_insert_fresh (l : list Z) i q :
  NoDup l → q ∉ l → NoDup (<[i:=q]> l).
Proof.
  intros Hnd Hq. destruct (decide (i < length l)%nat) as [Hi|Hi];
    [|by rewrite list_insert_ge by lia].
  destruct (lookup_lt_is_Some_2 l i Hi) as [p Hp].
  rewrite insert_take_drop by done.
  rewrite <-(take_drop_middle l i p Hp) in Hnd, Hq.
  apply NoDup_app in Hnd as (Hn1 & Hd & Hn2).
  apply NoDup_cons in Hn2 as [_ Hn2].
  apply NoDup_app. split; [done|]. split.
  - intros x Hx [->| Hx']%elem_of_cons.
    + apply Hq, elem_of_app. by left.
    + apply (Hd x Hx). by right.
  - apply NoDup_cons. split; [|done]. intros Hin. apply Hq.
    apply elem_of_app. right. by right.
Qed.

Section registry_holes.
Variable MAX_PIDS : nat.
Implicit Types (g : ProcessesList) (l : list Z).

(** In a packed registry RemoveProcess finds a stored pid where it is
    stored, empties that cell and decrements the counter. *)
Lemma packed_Remove_at l g i p :
  packed MAX_PIDS l g → l !! i = Some p →
  RemoveProcess p g
  = Some (true, {| Pids := <[i:=0]> l ++ replicate (MAX_PIDS - length l) 0;
                   PidsCount := Z.of_nat (length l) - 1 |}).
Proof.
  intros Hp Hi. pose proof Hp as (HP & Hc & Hlen & H0 & Hnd).
  pose proof (lookup_lt_Some _ _ _ Hi) as Hlt.
  unfold RemoveProcess. rewrite Hc, Nat2Z.id.
  rewrite (scan_hit _ _ _ _ i); cycle 1.
  { lia. }
  { by rewrite (packed_lookup_lt MAX_PIDS l). }
  { intros k Hk. rewrite (packed_lookup_lt MAX_PIDS l) by (done || lia).
    destruct (lookup_lt_is_Some_2 l k) as [y Hy]; [lia|].
    exists y. split; [done|]. intros ->.
    pose proof (NoDup_lookup _ _ _ _ Hnd Hi Hy). lia. }
  simpl. rewrite HP, insert_app_l by done. done.
Qed.

(** Removing a pid stored below the last one leaves the last one in the
    array, beyond the cells that the scans read. *)
Lemma packed_Remove_strands (l1 l2 : list Z) (p q : Z) g :
  packed MAX_PIDS (l1 ++ p :: l2 ++ [q]) g →
  ∃ g', RemoveProcess p g = Some (true, g') ∧ q ∈ Pids g' ∧
    scan (Pids g') q 0 (Z.to_nat (PidsCount g')) = Some None.
Proof.
  intros Hp. pose proof Hp as (HP & Hc & Hlen & H0 & Hnd).
  set (l := l1 ++ p :: l2 ++ [q]) in *.
  assert (l !! length l1 = Some p) as Hi by (by apply list_lookup_middle).
  assert (length l = S (S (length l1 + length l2))) as Hll.
  { unfold l. rewrite length_app. simpl. rewrite length_app. simpl. lia. }
  assert (l !! (length l - 1)%nat = Some q) as Hq.
  { assert (l = (l1 ++ p :: l2) ++ [q]) as Hl
      by (unfold l; by rewrite <-app_assoc).
    rewrite Hl at 2. apply list_lookup_middle.
    rewrite Hll, length_app. simpl. lia. }
  eexists. split; [by apply (packed_Remove_at l g (length l1) p)|].
  set (pids' := <[length l1:=0]> l ++ replicate (MAX_PIDS - length l) 0).
  assert (pids' !! (length l - 1)%nat = Some q) as Hq'.
  { unfold pids'. rewrite lookup_app_l by (rewrite length_insert; lia).
    rewrite list_lookup_insert_ne by lia. done. }
  simpl. split; [by eapply list_elem_of_lookup_2|].
  fold pids'. apply scan_miss. intros k Hk.
  assert (k < length l - 1)%nat as Hk' by lia.
  unfold pids'. rewrite lookup_app_l by (rewrite length_insert; lia).
  destruct (decide (k = length l1)) as [->|Hne].
  - rewrite list_lookup_insert_eq by lia. exists 0. split; [done|].
    intros <-. apply H0. by eapply list_elem_of_lookup_2.
  - rewrite list_lookup_insert_ne by done.
    destruct (lookup_lt_is_Some_2 l k) as [y Hy]; [lia|].
    exists y. split; [done|]. intros ->.
    pose proof (NoDup_lookup _ _ _ _ Hnd Hq Hy). lia.
Qed.

(** X3: when a pid is removed that is not the last one stored, the last
    one stored stays in the array but is out of reach: FindProcess does
    not find it and RemoveProcess cannot remove it. *)
Theorem RemoveProcess_strands_last_pid (l1 l2 : list Z) (p q : Z)
    (g : ProcessesList) :
  packed MAX_PIDS (l1 ++ p :: l2 ++ [q]) g →
  ∃ g', RemoveProcess p g = Some (true, g') ∧
    q ∈ Pids g' ∧ FindProcess q g' = Some false ∧
    RemoveProcess q g' = Some (false, g').
Proof.
  intros Hp.
  destruct (packed_Remove_strands l1 l2 p q g Hp)
    as (g' & Hrem & Hin & Hscan).
  exists g'. split; [done|]. split; [done|].
  unfold FindProcess, RemoveProcess. by rewrite Hscan.
Qed.

(** X4: in a registry without holes, RemoveProcess(p) followed by
    AddProcess(q) of a new pid puts q in the cell p had, and leaves a
    registry without holes again, with the same count. *)
Theorem RemoveProcess_then_AddProcess_refills (l : list Z) (i : nat)
    (p q : Z) (g : ProcessesList) :
  packed MAX_PIDS l g → l !! i = Some p → q ≠ 0 → q ∉ l →
  ∃ g1 g2, RemoveProcess p g = Some (true, g1) ∧
    AddProcess MAX_PIDS q g1 = Some (true, g2) ∧
    Pids g2 = <[i:=q]> (Pids g) ∧ PidsCount g2 = PidsCount g ∧
    packed MAX_PIDS (<[i:=q]> l) g2.
Proof.
  intros Hp Hi Hq0 Hq. pose proof Hp as (HP & Hc & Hlen & H0 & Hnd).
  pose proof (lookup_lt_Some _ _ _ Hi) as Hlt.
  eexists _, _. split; [by apply (packed_Remove_at l g i p)|].
  unfold AddProcess. simpl.
  rewrite (scan_hit _ _ _ _ i); cycle 1.
  { lia. }
  { rewrite lookup_app_l by (rewrite length_insert; lia).
    by rewrite list_lookup_insert_eq. }
  { intros k Hk. rewrite lookup_app_l by (rewrite length_insert; lia).
    rewrite list_lookup_insert_ne by lia.
    destruct (lookup_lt_is_Some_2 l k) as [y Hy]; [lia|].
    exists y. split; [done|]. intros ->. apply H0.
    by eapply list_elem_of_lookup_2. }
  simpl. split; [done|].
  assert (<[i:=q]> (<[i:=0]> l ++ replicate (MAX_PIDS - length l) 0)
          = <[i:=q]> l ++ replicate (MAX_PIDS - length l) 0) as Heq.
  { rewrite insert_app_l by (rewrite length_insert; lia).
    by rewrite list_insert_insert_eq. }
  rewrite Heq. split; [by rewrite HP, insert_app_l|]. split; [simpl; lia|].
  split; simpl; [by rewrite length_insert|].
  rewrite length_insert. split; [lia|]. split; [done|]. split.
  - intros [?| ?]%elem_of_insert_inv; [by apply Hq0|done].
  - by apply NoDup_insert_fresh.
Qed.
End registry_holes.

Lemma three_pids_packed : packed 4 [1; 2; 3] three_pids.
Proof.
  split; [reflexivity|]. split; [reflexivity|]. split; [simpl; lia|].
  split; [absent|].
  repeat (apply NoDup_cons; split; [absent|]). apply NoDup_nil_2.
Qed.

Lemma RemoveProcess_strands_last_pid_witness :
  packed 4 ([] ++ 1 :: [2] ++ [3]) three_pids ∧
  ∃ g', RemoveProcess 1 three_pids = Some (true, g') ∧
    3 ∈ Pids g' ∧ FindProcess 3 g' = Some false ∧
    RemoveProcess 3 g' = Some (false, g').
Proof.
  split; [exact three_pids_packed|].
  exact (RemoveProcess_strands_last_pid 4 [] [2] 1 3 three_pids
           three_pids_packed).
Defined.

Lemma RemoveProcess_then_AddProcess_refills_witness :
  packed 4 [1; 2; 3] three_pids ∧
  ∃ g1 g2, RemoveProcess 2 three_pids = Some (true, g1) ∧
    AddProcess 4 9 g1 = Some (true, g2) ∧
    Pids g2 = [1; 9; 3; 0] ∧ PidsCount g2 = 3.
Proof.
  split; [exact three_pids_packed|].
  destruct (RemoveProcess_then_AddProcess_refills 4 [1; 2; 3] 1 2 9
              three_pids three_pids_packed eq_refl)
    as (g1 & g2 & H1 & H2 & HP & Hc & _); [discriminate|absent|].
  exists g1, g2. split; [exact H1|]. split; [exact H2|].
  split; [exact HP|exact Hc].
Defined.

(** X5: AddProcess(0) finds the cell it has just written still empty: it
    returns true every time while the array has a cell, writes nothing
    new, and increments PidsCount.  Once PidsCount has passed MAX_PIDS
    this way, FindProcess and RemoveProcess of any nonzero pid read past
    the end of the array. *)
Theorem AddProcess_zero_overruns (MAX_PIDS n : nat) (pid : Z) :
  (0 < MAX_PIDS)%nat →
  ∃ g, run MAX_PIDS (replicate n (Add 0)) (empty_registry MAX_PIDS)
       = Some (replicate n true, g) ∧
    Pids g = replicate MAX_PIDS 0 ∧ PidsCount g = Z.of_nat n ∧
    ((MAX_PIDS < n)%nat → pid ≠ 0 →
     FindProcess pid g = None ∧ RemoveProcess pid g = None).
Proof.
  intros Hmax.
  assert (∀ c, AddProcess MAX_PIDS 0
                 {| Pids := replicate MAX_PIDS 0; PidsCount := c |}
               = Some (true, {| Pids := replicate MAX_PIDS 0;
                                PidsCount := c + 1 |})) as Hadd.
  { intros c. unfold AddProcess. simpl.
    rewrite (scan_hit _ _ _ _ 0%nat);
      [|lia|by apply lookup_replicate_2|intros; lia].
    simpl. by rewrite insert_replicate. }
  assert (∀ m c, run MAX_PIDS (replicate m (Add 0))
                   {| Pids := replicate MAX_PIDS 0; PidsCount := c |}
                 = Some (replicate m true,
                         {| Pids := replicate MAX_PIDS 0;
                            PidsCount := c + Z.of_nat m |})) as Hrun.
  { induction m as [|m IH]; intros c; simpl.
    - do 3 f_equal. lia.
    - rewrite Hadd. simpl. rewrite IH. simpl. do 3 f_equal. lia. }
  eexists. split; [apply Hrun|]. cbn [Pids PidsCount].
  split; [done|]. split; [lia|].
  intros Hn Hpid. unfold FindProcess, RemoveProcess. cbn [Pids PidsCount].
  rewrite Z.add_0_l, Nat2Z.id, scan_past_end; [done| |].
  - rewrite length_replicate. lia.
  - by intros ?%elem_of_replicate_inv.
Qed.

Lemma AddProcess_zero_overruns_witness :
  (0 < 256)%nat ∧
  ∃ g, run 256 (replicate 300 (Add 0)) (empty_registry 256)
       = Some (replicate 300 true, g) ∧
    PidsCount g = 300 ∧ FindProcess 1234 g = None.
Proof.
  split; [lia|].
  destruct (AddProcess_zero_overruns 256 300 1234) as (g & Hrun & _ & Hc & Hf);
    [lia|].
  exists g. split; [exact Hrun|]. split; [exact Hc|].
  apply Hf; [lia|discriminate].
Defined.

(** ** The access filter *)

Section filter_facts.
Variable PROCESS_DUP_HANDLE : Z.
Variable k : Kernel.
Implicit Types (g : ProcessesList) (Info : OB_PRE_OPERATION_INFORMATION).

(** The five updates of the mask amount to one: the mask without the
    filtered rights. *)
Lemma clear_access_all (mask : Z) :
  0 ≤ mask < 2 ^ 32 →
  clear_access
    (clear_access
       (clear_access
          (clear_access (clear_access mask PROCESS_VM_OPERATION)
             PROCESS_VM_READ) PROCESS_CREATE_THREAD) PROCESS_DUP_HANDLE)
    PROCESS_TERMINATE
  = filtered PROCESS_DUP_HANDLE mask.
Proof.
  intros Hm. apply Z.bits_inj'. intros i Hi.
  rewrite !clear_access_bits by (done || by repeat apply clear_access_range).
  unfold filtered, filtered_rights.
  rewrite Z.land_spec, Z.lnot_spec, !Z.lor_spec by done.
  destruct (Z.testbit mask i), (Z.testbit PROCESS_VM_OPERATION i),
    (Z.testbit PROCESS_VM_READ i), (Z.testbit PROCESS_CREATE_THREAD i),
    (Z.testbit PROCESS_DUP_HANDLE i), (Z.testbit PROCESS_TERMINATE i); done.
Qed.

Lemma filtered_range (mask : Z) :
  0 ≤ mask < 2 ^ 32 → 0 ≤ filtered PROCESS_DUP_HANDLE mask < 2 ^ 32.
Proof.
  intros Hm. rewrite <-clear_access_all by done.
  by repeat apply clear_access_range.
Qed.

Lemma filtered_idempotent (mask : Z) :
  filtered PROCESS_DUP_HANDLE (filtered PROCESS_DUP_HANDLE mask)
  = filtered PROCESS_DUP_HANDLE mask.
Proof. unfold filtered. by rewrite <-Z.land_assoc, Z.land_diag. Qed.

Lemma OnPreOpenProcess_eq g Info :
  0 ≤ DesiredAccess Info < 2 ^ 32 →
  OnPreOpenProcess PROCESS_DUP_HANDLE k g Info
  = if KernelHandle Info then Some (OB_PREOP_SUCCESS, Info)
    else
      found ← FindProcess (to_ULONG (PsGetProcessId k (Object Info))) g;
      Some (OB_PREOP_SUCCESS,
            if found : bool
            then with_access Info
                   (filtered PROCESS_DUP_HANDLE (DesiredAccess Info))
            else Info).
Proof.
  intros Hm. unfold OnPreOpenProcess, with_access.
  rewrite <-clear_access_all by done.
  destruct (KernelHandle Info); [done|].
  by destruct (FindProcess _ g) as [[|]|].
Qed.

(** X6: whatever the registry holds, OnPreOpenProcess never adds a right
    to the request and leaves its other fields alone; and it is
    idempotent: run on its own result, it gives that result again. *)
Theorem OnPreOpenProcess_only_removes (g : ProcessesList)
    (Info Info' : OB_PRE_OPERATION_INFORMATION)
    (st : OB_PREOP_CALLBACK_STATUS) :
  0 ≤ DesiredAccess Info < 2 ^ 32 →
  OnPreOpenProcess PROCESS_DUP_HANDLE k g Info = Some (st, Info') →
  KernelHandle Info' = KernelHandle Info ∧ Object Info' = Object Info ∧
  (∀ i, Z.testbit (DesiredAccess Info') i = true →
        Z.testbit (DesiredAccess Info) i = true) ∧
  OnPreOpenProcess PROCESS_DUP_HANDLE k g Info' = Some (st, Info').
Proof.
  intros Hm. destruct st. rewrite OnPreOpenProcess_eq by done.
  destruct (KernelHandle Info) eqn:Hk.
  - intros [= <-]. repeat split; try done.
    rewrite OnPreOpenProcess_eq by done. by rewrite Hk.
  - destruct (FindProcess _ g) as [[|]|] eqn:Hf; simpl; [| |done].
    + intros [= <-]. simpl. split; [done|]. split; [done|]. split.
      * intros i. unfold filtered. rewrite Z.land_spec.
        by intros [? _]%andb_true_iff.
      * rewrite OnPreOpenProcess_eq by (by apply filtered_range).
        simpl. rewrite Hk, Hf. simpl. unfold with_access. simpl.
        by rewrite filtered_idempotent.
    + intros [= <-]. repeat split; try done.
      rewrite OnPreOpenProcess_eq by done. by rewrite Hk, Hf.
Qed.
End filter_facts.

Lemma OnPreOpenProcess_only_removes_witness :
  0 ≤ DesiredAccess sample_open < 2 ^ 32 ∧
  OnPreOpenProcess 0x40 good_kernel sample_registry sample_open
  = Some (OB_PREOP_SUCCESS, with_access sample_open 0x1FFFA4) ∧
  OnPreOpenProcess 0x40 good_kernel sample_registry
    (with_access sample_open 0x1FFFA4)
  = Some (OB_PREOP_SUCCESS, with_access sample_open 0x1FFFA4).
Proof.
  assert (0 ≤ DesiredAccess sample_open < 2 ^ 32) as Hm by (by vm_compute).
  split; [exact Hm|]. split; [reflexivity|].
  apply (OnPreOpenProcess_only_removes 0x40 good_kernel sample_registry
           sample_open _ _ Hm eq_refl).
Defined.

(** Adding a new pid to a packed registry and removing it again gives
    the registry back. *)
Lemma packed_Add_then_Remove (MAX_PIDS : nat) (l : list Z)
    (g : ProcessesList) (pid : Z) :
  packed MAX_PIDS l g → pid ≠ 0 → pid ∉ l → (length l < MAX_PIDS)%nat →
  ∃ g', AddProcess MAX_PIDS pid g = Some (true, g') ∧
    packed MAX_PIDS (l ++ [pid]) g' ∧
    RemoveProcess pid g' = Some (true, g).
Proof.
  intros Hp Hpid Hnew Hroom.
  destruct (packed_Add_room MAX_PIDS l g pid Hp Hpid Hnew Hroom)
    as (g' & Hadd & Hp').
  exists g'. split; [done|]. split; [done|].
  rewrite (packed_Remove_at MAX_PIDS (l ++ [pid]) g' (length l) pid)
    by (done || by apply list_lookup_middle).
  destruct Hp as (HP & Hc & _). destruct g as [pids c]. simpl in *.
  subst pids c. do 3 f_equal.
  - rewrite insert_app_r_alt, Nat.sub_diag by lia. simpl.
    rewrite <-app_assoc, length_app. simpl. f_equal.
    replace (MAX_PIDS - length l)%nat
      with (S (MAX_PIDS - (length l + 1)))%nat by lia.
    done.
  - rewrite length_app. simpl. lia.
Qed.

Lemma packed_Find_new (MAX_PIDS : nat) (l : list Z) (g g' : ProcessesList)
    (pid : Z) :
  packed MAX_PIDS l g → packed MAX_PIDS (l ++ [pid]) g' → pid ∉ l →
  FindProcess pid g = Some false ∧ FindProcess pid g' = Some true.
Proof.
  intros Hp Hp' Hnew.
  rewrite (packed_Find MAX_PIDS l g) by done.
  rewrite (packed_Find MAX_PIDS (l ++ [pid]) g') by done.
  rewrite bool_decide_eq_false_2 by done.
  rewrite bool_decide_eq_true_2
    by (apply elem_of_app; right; by apply list_elem_of_singleton).
  done.
Qed.

(** X7: in a registry without holes, AddProcess of a new nonzero pid
    followed by RemoveProcess of that pid gives back the registry that was
    there, cell for cell and count included. *)
Theorem AddProcess_RemoveProcess_round_trip (MAX_PIDS : nat) (l : list Z)
    (g : ProcessesList) (pid : Z) :
  packed MAX_PIDS l g → pid ≠ 0 → pid ∉ l → (length l < MAX_PIDS)%nat →
  ∃ g', AddProcess MAX_PIDS pid g = Some (true, g') ∧
    FindProcess pid g = Some false ∧ FindProcess pid g' = Some true ∧
    RemoveProcess pid g' = Some (true, g).
Proof.
  intros Hp Hpid Hnew Hroom.
  destruct (packed_Add_then_Remove MAX_PIDS l g pid Hp Hpid Hnew Hroom)
    as (g' & Hadd & Hp' & Hrem).
  destruct (packed_Find_new MAX_PIDS l g g' pid Hp Hp' Hnew) as [Hf Hf'].
  by exists g'.
Qed.

Lemma AddProcess_RemoveProcess_round_trip_witness :
  packed 4 [1; 2; 3] three_pids ∧
  ∃ g', AddProcess 4 77 three_pids = Some (true, g') ∧
        RemoveProcess 77 g' = Some (true, three_pids).
Proof.
  split; [exact three_pids_packed|].
  destruct (AddProcess_RemoveProcess_round_trip 4 [1; 2; 3] three_pids 77
              three_pids_packed) as (g' & Hadd & _ & _ & Hrem);
    [discriminate|absent|simpl; lia|].
  by exists g'.
Defined.

(** X8: in a registry without holes, a user-mode request to open a process
    is passed unchanged before the pid of that process is added, loses
    exactly the filtered rights once AddProcess has stored the pid, and is
    passed unchanged again once RemoveProcess has removed it. *)
Theorem protection_follows_registry (MAX_PIDS : nat)
    (PROCESS_DUP_HANDLE : Z) (k : Kernel) (l : list Z) (g : ProcessesList)
    (Info : OB_PRE_OPERATION_INFORMATION) :
  let pid := to_ULONG (PsGetProcessId k (Object Info)) in
  packed MAX_PIDS l g → pid ≠ 0 → pid ∉ l → (length l < MAX_PIDS)%nat →
  KernelHandle Info = false → 0 ≤ DesiredAccess Info < 2 ^ 32 →
  ∃ g' g'',
    AddProcess MAX_PIDS pid g = Some (true, g') ∧
    RemoveProcess pid g' = Some (true, g'') ∧
    OnPreOpenProcess PROCESS_DUP_HANDLE k g Info
    = Some (OB_PREOP_SUCCESS, Info) ∧
    OnPreOpenProcess PROCESS_DUP_HANDLE k g' Info
    = Some (OB_PREOP_SUCCESS,
            with_access Info
              (filtered PROCESS_DUP_HANDLE (DesiredAccess Info))) ∧
    OnPreOpenProcess PROCESS_DUP_HANDLE k g'' Info
    = Some (OB_PREOP_SUCCESS, Info).
Proof.
  intros pid Hp Hpid Hnew Hroom Hk Hm.
  destruct (packed_Add_then_Remove MAX_PIDS l g pid Hp Hpid Hnew Hroom)
    as (g' & Hadd & Hp' & Hrem).
  destruct (packed_Find_new MAX_PIDS l g g' pid Hp Hp' Hnew) as [Hf Hf'].
  exists g', g. split; [done|]. split; [done|].
  rewrite !OnPreOpenProcess_eq by done. fold pid.
  by rewrite Hk, Hf, Hf'.
Qed.

Lemma protection_follows_registry_witness :
  packed 4 [1; 2; 3] three_pids ∧
  to_ULONG (PsGetProcessId good_kernel (Object sample_open)) = 1234 ∧
  ∃ g', AddProcess 4 1234 three_pids = Some (true, g') ∧
    OnPreOpenProcess 0x40 good_kernel three_pids sample_open
    = Some (OB_PREOP_SUCCESS, sample_open) ∧
    OnPreOpenProcess 0x40 good_kernel g' sample_open
    = Some (OB_PREOP_SUCCESS, with_access sample_open 0x1FFFA4).
Proof.
  split; [exact three_pids_packed|]. split; [reflexivity|].
  destruct (protection_follows_registry 4 0x40 good_kernel [1; 2; 3]
              three_pids sample_open three_pids_packed)
    as (g' & g'' & Hadd & _ & H0 & H1 & _);
    [discriminate|absent|simpl; lia|reflexivity|by vm_compute|].
  exists g'. split; [exact Hadd|]. split; [exact H0|exact H1].
Defined.

(** X9: the filter follows FindProcess, not the array: once a pid stored
    below the last one has been removed, a user-mode request to open the
    process whose pid is the last one stored is passed with all its
    rights, although that pid is still in the array. *)
Theorem protection_lost_with_stranded_pid (MAX_PIDS : nat)
    (PROCESS_DUP_HANDLE : Z) (k : Kernel) (l1 l2 : list Z) (p : Z)
    (g : ProcessesList) (Info : OB_PRE_OPERATION_INFORMATION) :
  let q := to_ULONG (PsGetProcessId k (Object Info)) in
  packed MAX_PIDS (l1 ++ p :: l2 ++ [q]) g →
  KernelHandle Info = false → 0 ≤ DesiredAccess Info < 2 ^ 32 →
  ∃ g', RemoveProcess p g = Some (true, g') ∧ q ∈ Pids g' ∧
    OnPreOpenProcess PROCESS_DUP_HANDLE k g Info
    = Some (OB_PREOP_SUCCESS,
            with_access Info
              (filtered PROCESS_DUP_HANDLE (DesiredAccess Info))) ∧
    OnPreOpenProcess PROCESS_DUP_HANDLE k g' Info
    = Some (OB_PREOP_SUCCESS, Info).
Proof.
  intros q Hp Hk Hm.
  destruct (packed_Remove_strands MAX_PIDS l1 l2 p q g Hp)
    as (g' & Hrem & Hin & Hscan).
  assert (FindProcess q g' = Some false) as Hf
    by (unfold FindProcess; by rewrite Hscan).
  exists g'. split; [done|]. split; [done|].
  rewrite !OnPreOpenProcess_eq by done. fold q.
  rewrite Hk, Hf, (packed_Find MAX_PIDS _ g) by done.
  rewrite bool_decide_eq_true_2; [done|].
  rewrite !elem_of_app, !elem_of_cons, elem_of_app, list_elem_of_singleton.
  auto.
Qed.

Lemma guarded_registry_packed : packed 4 [7; 8; 1234] guarded_registry.
Proof.
  split; [reflexivity|]. split; [reflexivity|]. split; [simpl; lia|].
  split; [absent|].
  repeat (apply NoDup_cons; split; [absent|]). apply NoDup_nil_2.
Qed.

Lemma protection_lost_with_stranded_pid_witness :
  packed 4 ([7] ++ 8 :: [] ++ [1234]) guarded_registry ∧
  ∃ g', RemoveProcess 8 guarded_registry = Some (true, g') ∧
    1234 ∈ Pids g' ∧
    OnPreOpenProcess 0x40 good_kernel g' sample_open
    = Some (OB_PREOP_SUCCESS, sample_open).
Proof.
  split; [exact guarded_registry_packed|].
  destruct (protection_lost_with_stranded_pid 4 0x40 good_kernel [7] [] 8
              guarded_registry sample_open guarded_registry_packed eq_refl)
    as (g' & Hrem & Hin & _ & Hopen); [by vm_compute|].
  exists g'. split; [exact Hrem|]. split; [exact Hin|exact Hopen].
Defined.

(** ** The offset resolver *)

(** X10: each resolver gives its failure value exactly when the version
    query fails, so the value can be told from an offset; when the query
    succeeds the link offset is one of 0x2f0, 0x2e8, 0x448, the token
    offset one of 0x360, 0x358, 0x4b8, and for every build the token
    offset lies 0x68 or 0x70 above the link offset. *)
Theorem offsets_resolved_or_failed (k : Kernel) :
  (GetActiveProcessLinksOffset k = to_ULONG STATUS_UNSUCCESSFUL ↔
   NT_SUCCESS (RtlGetVersion k).1 = false) ∧
  (GetTokenOffset k = to_UINT64 STATUS_UNSUCCESSFUL ↔
   NT_SUCCESS (RtlGetVersion k).1 = false) ∧
  (NT_SUCCESS (RtlGetVersion k).1 = true →
   GetActiveProcessLinksOffset k ∈ [0x2f0; 0x2e8; 0x448] ∧
   GetTokenOffset k ∈ [0x360; 0x358; 0x4b8] ∧
   GetTokenOffset k - GetActiveProcessLinksOffset k ∈ [0x68; 0x70]).
Proof.
  unfold GetActiveProcessLinksOffset, GetTokenOffset.
  destruct (RtlGetVersion k) as [result build]. simpl.
  destruct (NT_SUCCESS result); simpl.
  - repeat case_bool_decide;
      repeat match goal with
             | H : _ ∈ _ |- _ => rewrite !elem_of_cons, elem_of_nil in H
             | H : _ ∉ _ |- _ => rewrite !elem_of_cons, elem_of_nil in H
             end;
      (split; [by vm_compute|]); (split; [by vm_compute|]); intros _;
      first [ lia
            | split; [by repeat constructor|];
              split; by repeat constructor ].
  - split; [done|]. split; done.
Qed.

Lemma offsets_resolved_or_failed_witness :
  NT_SUCCESS (RtlGetVersion good_kernel).1 = true ∧
  GetActiveProcessLinksOffset good_kernel ∈ [0x2f0; 0x2e8; 0x448] ∧
  GetTokenOffset good_kernel - GetActiveProcessLinksOffset good_kernel
  ∈ [0x68; 0x70].
Proof.
  split; [reflexivity|].
  destruct (offsets_resolved_or_failed good_kernel) as (_ & _ & H).
  destruct (H eq_refl) as (Hl & _ & Hd). by split.
Defined.

(** ** The process hider *)

Lemma HideProcess_loop_outcome fuel s pidOffset listOffset pid m :
  ∀ cur visited st m' v,
  HideProcess_loop fuel s cur pidOffset listOffset pid m visited
  = Done (st, m', v) →
  st = STATUS_SUCCESS ∧
  ((m' = m ∧ ∃ more, v = visited ++ more) ∨
   ∃ e pre, v = pre ++ [e] ∧
     load32 m (to_UINT64 (e + pidOffset)) = Some pid ∧
     RemoveProcessLinks (to_UINT64 (e + listOffset)) m = Some m').
Proof.
  induction fuel as [|fuel IH]; intros cur visited st m' v; simpl.
  - destruct (s =? cur); [|done]. intros [= <- <- <-].
    split; [done|]. left. split; [done|]. exists []. by rewrite app_nil_r.
  - destruct (s =? cur).
    { intros [= <- <- <-]. split; [done|]. left. split; [done|].
      exists []. by rewrite app_nil_r. }
    destruct (load32 m (to_UINT64 (cur + pidOffset))) as [p|] eqn:Hp;
      [|done].
    destruct (p =? pid) eqn:Hpid.
    + apply Z.eqb_eq in Hpid as ->.
      destruct (RemoveProcessLinks _ m) as [m1|] eqn:Hr; [|done].
      intros [= <- <- <-]. split; [done|]. right. by exists cur, visited.
    + destruct (load m _) as [fl|]; [|done].
      intros [Hst [[-> [more ->]]|Hhit]]%IH; (split; [done|]); [left|by right].
      split; [done|]. exists ([cur] ++ more). by rewrite app_assoc.
Qed.

(** X11: whenever HideProcess returns, it returns STATUS_UNSUCCESSFUL only
    for a failed version query, having touched nothing; otherwise it
    returns STATUS_SUCCESS, and the memory is either as it was or differs
    by one call of RemoveProcessLinks, on the list entry of the last
    process it visited, whose pid is the one asked for. *)
Theorem HideProcess_outcome (k : Kernel) (fuel : nat) (pid : Z)
    (m m' : gmap Z Z) (st : NTSTATUS) (v : list Z) :
  HideProcess k fuel pid m = Done (st, m', v) →
  let pidOffset := GetActiveProcessLinksOffset k in
  (NT_SUCCESS (RtlGetVersion k).1 = false ∧
   st = STATUS_UNSUCCESSFUL ∧ m' = m ∧ v = []) ∨
  (NT_SUCCESS (RtlGetVersion k).1 = true ∧ st = STATUS_SUCCESS ∧
   (m' = m ∨
    ∃ e pre, v = pre ++ [e] ∧
      load32 m (to_UINT64 (e + pidOffset)) = Some pid ∧
      RemoveProcessLinks (to_UINT64 (e + (pidOffset + 8))) m = Some m')).
Proof.
  intros Hrun pidOffset.
  destruct (NT_SUCCESS (RtlGetVersion k).1) eqn:Hv.
  - right. split; [done|].
    destruct (resolved_offset_bounds k Hv) as (Ho1 & Ho2 & Ho3).
    fold pidOffset in Ho1, Ho2, Ho3.
    unfold HideProcess in Hrun. fold pidOffset in Hrun.
    rewrite (proj2 (Z.eqb_neq pidOffset _)) in Hrun by done.
    assert (to_ULONG (pidOffset + 8) = pidOffset + 8) as Hl
      by (apply Z.mod_small; lia).
    rewrite Hl in Hrun.
    destruct (load32 m _) as [p|] eqn:Hp; [|done].
    destruct (p =? pid) eqn:Hpid.
    + apply Z.eqb_eq in Hpid as ->.
      destruct (RemoveProcessLinks _ m) as [m1|] eqn:Hr; [|done].
      injection Hrun as <- <- <-. split; [done|]. right.
      by exists (PsGetCurrentProcess k), [].
    + destruct (load m _) as [fl|]; [|done].
      apply HideProcess_loop_outcome in Hrun as [-> [[-> _]|Hhit]];
        (split; [done|]); [by left|by right].
  - left. rewrite HideProcess_aborts_without_version in Hrun by done.
    by injection Hrun as <- <- <-.
Qed.

Lemma HideProcess_outcome_witness :
  HideProcess good_kernel 2 5678 (sample_memory good_kernel)
  = Done (STATUS_SUCCESS,
          default ∅ (RemoveProcessLinks (process_5678 + 0x450)
                       (sample_memory good_kernel)),
          [process_1234; process_5678]) ∧
  RemoveProcessLinks (to_UINT64 (process_5678 + (0x448 + 8)))
    (sample_memory good_kernel)
  = Some (default ∅ (RemoveProcessLinks (process_5678 + 0x450)
                       (sample_memory good_kernel))).
Proof.
  assert (HideProcess good_kernel 2 5678 (sample_memory good_kernel)
          = Done (STATUS_SUCCESS,
                  default ∅ (RemoveProcessLinks (process_5678 + 0x450)
                               (sample_memory good_kernel)),
                  [process_1234; process_5678])) as Hrun by (by vm_compute).
  split; [exact Hrun|].
  destruct (HideProcess_outcome _ _ _ _ _ _ _ Hrun)
    as [(Hv & _)|(_ & _ & [Heq|(e & pre & Hv & _ & Hr)])].
  - discriminate Hv.
  - exfalso. apply (f_equal (λ m : gmap Z Z, m !! (process_5678 + 0x450)))
      in Heq. vm_compute in Heq. discriminate Heq.
  - change [process_1234; process_5678]
      with ([process_1234] ++ [process_5678]) in Hv.
    apply app_inj_tail in Hv as [_ <-]. exact Hr.
Defined.

(** An entry whose links both point to itself is left as it is. *)
Lemma RemoveProcessLinks_self (c : Z) (m : gmap Z Z) :
  m !! c = Some c → m !! (c + 8) = Some c →
  RemoveProcessLinks c m = Some m.
Proof.
  intros Hf Hb. unfold RemoveProcessLinks, load, store.
  repeat (first [ rewrite (insert_id m c c) by done
                | rewrite (insert_id m (c + 8) c) by done
                | rewrite Hf | rewrite Hb ];
          cbn [mbind option_bind]).
  done.
Qed.

(** X12: whatever the memory, once RemoveProcessLinks has run on an entry
    both links of the entry point to the entry, and running it again on
    that entry changes nothing. *)
Theorem RemoveProcessLinks_twice (current : Z) (m m' : gmap Z Z) :
  RemoveProcessLinks current m = Some m' →
  m' !! current = Some current ∧ m' !! (current + 8) = Some current ∧
  RemoveProcessLinks current m' = Some m'.
Proof.
  intros Hrun.
  assert (m' !! current = Some current ∧ m' !! (current + 8) = Some current)
    as [Hf Hb].
  { revert Hrun. unfold RemoveProcessLinks, load, store.
    destruct (m !! (current + 8)) as [previous|]; simpl; [|done].
    destruct (m !! current) as [next|]; simpl; [|done].
    destruct (m !! previous); simpl; [|done].
    destruct (_ !! (next + 8)); simpl; [|done].
    destruct (_ !! (current + 8)); simpl; [|done].
    destruct (_ !! current); simpl; [|done].
    intros [= <-]. split; [apply lookup_insert_eq|].
    rewrite lookup_insert_ne by lia. apply lookup_insert_eq. }
  split; [done|]. split; [done|]. by apply RemoveProcessLinks_self.
Qed.

Lemma RemoveProcessLinks_twice_witness :
  ∃ m', RemoveProcessLinks (process_5678 + 0x450) (sample_memory good_kernel)
        = Some m' ∧
    RemoveProcessLinks (process_5678 + 0x450) m' = Some m'.
Proof.
  destruct (RemoveProcessLinks (process_5678 + 0x450)
              (sample_memory good_kernel)) as [m'|] eqn:Hrun;
    [|by vm_compute in Hrun].
  exists m'. split; [done|].
  by apply (RemoveProcessLinks_twice _ _ _ Hrun).
Defined.



Section hide_hit.
Variables (m m' : gmap Z Z) (pid pidOffset listOffset e0 e : Z).
Variable post : list Z.
Hypothesis Hoff : 0 ≤ pidOffset ∧ 0 ≤ listOffset.
Hypothesis He : 0 ≤ e ∧ e + pidOffset < 2 ^ 64 ∧ e + listOffset < 2 ^ 64.
Hypothesis Hpid : load32 m (e + pidOffset) = Some pid.
Hypothesis Hunlink : RemoveProcessLinks (e + listOffset) m = Some m'.
Hypothesis Hee0 : e ≠ e0.

End hide_hit.











(** ** The privilege elevator, repeated *)

(** X16: elevation is idempotent.  Whenever ElevateProcess returns, the
    same call on the memory it left returns the same status, leaves that
    memory unchanged and takes and releases the same references; and when
    it returned a success status, the token cells of the target and of the
    System process hold the same value afterwards. *)
Theorem ElevateProcess_idempotent (k : Kernel) (targetPid : Z)
    (m m' : gmap Z Z) (st : NTSTATUS) (t : list event) :
  ElevateProcess k targetPid m = Some (st, m', t) →
  ElevateProcess k targetPid m' = Some (st, m', t) ∧
  (NT_SUCCESS st = true →
   m' !! to_UINT64 ((PsLookupProcessByProcessId k targetPid).2
                    + GetTokenOffset k)
   = m' !! to_UINT64 ((PsLookupProcessByProcessId k SYSTEM_PROCESS_PID).2
                      + GetTokenOffset k)).
Proof.
  unfold ElevateProcess.
  destruct (PsLookupProcessByProcessId k targetPid) as [st1 tp].
  destruct (PsLookupProcessByProcessId k SYSTEM_PROCESS_PID) as [st2 pp].
  set (src := to_UINT64 (pp + GetTokenOffset k)).
  set (dst := to_UINT64 (tp + GetTokenOffset k)).
  destruct (NT_SUCCESS st1) eqn:H1; simpl.
  - destruct (NT_SUCCESS st2) eqn:H2; simpl.
    + unfold load, store.
      destruct (m !! src) as [token|] eqn:Hsrc; simpl; [|done].
      destruct (m !! dst) as [old|] eqn:Hdst; simpl; [|done].
      intros [= <- <- <-].
      assert (<[dst:=token]> m !! src = Some token) as Hsrc'.
      { destruct (decide (dst = src)) as [->|Hne].
        - apply lookup_insert_eq.
        - by rewrite lookup_insert_ne. }
      rewrite Hsrc'. simpl. rewrite lookup_insert_eq. simpl.
      rewrite insert_insert_eq. split; [done|].
      intros _. by rewrite lookup_insert_eq.
    + intros [= <- <- <-]. split; [done|]. intros Hs. congruence.
  - intros [= <- <- <-]. split; [done|]. intros Hs. congruence.
Qed.

Lemma ElevateProcess_idempotent_witness :
  ∃ m', ElevateProcess good_kernel 1234 (sample_memory good_kernel)
        = Some (STATUS_SUCCESS, m', [EvReference process_1234;
                                     EvReference system_process;
                                     EvDereference system_process;
                                     EvDereference process_1234]) ∧
    ElevateProcess good_kernel 1234 m'
    = Some (STATUS_SUCCESS, m', [EvReference process_1234;
                                 EvReference system_process;
                                 EvDereference system_process;
                                 EvDereference process_1234]) ∧
    m' !! (process_1234 + 0x4b8) = Some 0x5555.
Proof.
  destruct (ElevateProcess good_kernel 1234 (sample_memory good_kernel))
    as [[[st m'] t]|] eqn:Hrun; [|by vm_compute in Hrun].
  destruct (ElevateProcess_idempotent _ _ _ _ _ _ Hrun) as [Hagain Htok].
  assert (st = STATUS_SUCCESS ∧
          t = [EvReference process_1234; EvReference system_process;
               EvDereference system_process; EvDereference process_1234] ∧
          m' !! (system_process + 0x4b8) = Some 0x5555) as (-> & -> & Hsys).
  { vm_compute in Hrun. injection Hrun as <- <- <-. by vm_compute. }
  exists m'. split; [done|]. split; [done|].
  rewrite <-Hsys. by apply Htok.
Defined.

(** ** The remote module patcher: its searches *)

Lemma wait_loader_spec k n : ∀ i,
  let d := wait_loader k n i in
  (i ≤ d ≤ i + n)%nat ∧
  (∀ j, (i ≤ j < d)%nat → LoaderData k j = None) ∧
  ((d < i + n)%nat → is_Some (LoaderData k d)).
Proof.
  induction n as [|n IH]; intros i; simpl.
  - split; [lia|]. split; [intros j ?|]; lia.
  - destruct (LoaderData k i) as [mods|] eqn:Hi.
    + split; [lia|]. split; [intros j ?; lia|]. intros _. by rewrite Hi.
    + destruct (IH (S i)) as (Hd & Hnone & Hsome).
      split; [lia|]. split.
      * intros j Hj. destruct (decide (j = i)) as [->|Hne]; [done|].
        apply Hnone. lia.
      * intros Hlt. apply Hsome. lia.
Qed.

Lemma locate_delays IMAGE_DOS_SIGNATURE IMAGE_NT_SIGNATURE k TargetProcess
    moduleName functionName :
  (locate IMAGE_DOS_SIGNATURE IMAGE_NT_SIGNATURE k TargetProcess
     moduleName functionName).1
  = if PsGetProcessPeb k TargetProcess then wait_loader k 10 0 else O.
Proof.
  unfold locate. destruct (PsGetProcessPeb k TargetProcess); [|done].
  simpl. destruct (LoaderData k _); [|done].
  destruct (_ =? 0); [done|]. simpl.
  destruct (negb _); [done|]. destruct (negb _); [done|].
  destruct (_ =? 0); [done|]. by destruct (find_export _ _ _ _).
Qed.

(** X17: the wait for the loader data makes at most ten delays and stops
    before the first one after which the data is there; the data is read
    once more after the wait, so data that shows up with the tenth delay
    is still used, and it is missing at that last read only when it was
    missing after each of the delays 0 to 10. *)
Theorem locate_waits_for_loader
    (IMAGE_DOS_SIGNATURE IMAGE_NT_SIGNATURE : Z) (k : Kernel)
    (TargetProcess : Z) (moduleName functionName : list Z) :
  PsGetProcessPeb k TargetProcess = true →
  let d := (locate IMAGE_DOS_SIGNATURE IMAGE_NT_SIGNATURE k TargetProcess
              moduleName functionName).1 in
  (d ≤ 10)%nat ∧
  (∀ j, (j < d)%nat → LoaderData k j = None) ∧
  ((d < 10)%nat → is_Some (LoaderData k d)) ∧
  (LoaderData k d = None ↔ ∀ j, (j ≤ 10)%nat → LoaderData k j = None).
Proof.
  intros Hpeb d. subst d. rewrite locate_delays, Hpeb.
  destruct (wait_loader_spec k 10 0) as (Hd & Hnone & Hsome).
  set (w := wait_loader k 10 0) in *.
  split; [lia|]. split; [intros j Hj; apply Hnone; lia|].
  split; [intros Hlt; apply Hsome; lia|]. split.
  - intros Hlast j Hj.
    destruct (decide (w < 10)%nat) as [Hlt|Hge].
    + destruct Hsome as [? Hs]; [lia|]. congruence.
    + destruct (decide (j = w)) as [->|Hne]; [done|].
      apply Hnone. lia.
  - intros Hall. apply Hall. lia.
Qed.

Lemma locate_waits_for_loader_witness :
  PsGetProcessPeb (slow_loader 10) process_1234 = true ∧
  (locate 0x5A4D 0x4550 (slow_loader 10) process_1234
     (c_str (chars "demo")) (c_str (chars "Foo"))).1 = 10%nat ∧
  (∀ j, (j < 10)%nat → LoaderData (slow_loader 10) j = None) ∧
  (locate 0x5A4D 0x4550 (slow_loader 10) process_1234
     (c_str (chars "demo")) (c_str (chars "Foo"))).2
  = Resolved 0x7FF900000000 1.
Proof.
  split; [reflexivity|]. split; [reflexivity|]. split; [|reflexivity].
  exact (proj1 (proj2 (locate_waits_for_loader 0x5A4D 0x4550
                         (slow_loader 10) process_1234
                         (c_str (chars "demo")) (c_str (chars "Foo"))
                         eq_refl))).
Defined.

Lemma tolower_zero c : tolower c = 0 ↔ c = 0.
Proof.
  unfold tolower.
  destruct (65 <=? c) eqn:H1; destruct (c <=? 90) eqn:H2; simpl; lia.
Qed.

Lemma content_nil : content [] = [].
Proof. done. Qed.

Lemma content_cons c t :
  content (c :: t) = if c =? 0 then [] else c :: content t.
Proof.
  unfold content. simpl. destruct (c =? 0); [done|].
  pose proof (strlen_bounds t).
  by rewrite Z2Nat.inj_add, Nat.add_1_l by lia.
Qed.

Lemma content_hd_zero s : hd 0 s = 0 → content s = [].
Proof.
  destruct s as [|c t]; [done|]. simpl. intros ->. by rewrite content_cons.
Qed.

Lemma content_hd_nonzero s :
  hd 0 s ≠ 0 → content s = hd 0 s :: content (tl s).
Proof.
  destruct s as [|c t]; [done|]. simpl. intros Hne.
  by rewrite content_cons, (proj2 (Z.eqb_neq _ _) Hne).
Qed.

(** [_stricmp] gives 0 exactly on strings that are equal up to case. *)
Lemma _stricmp_zero s1 : ∀ s2, _stricmp s1 s2 = 0 ↔ same_name s1 s2.
Proof.
  unfold same_name.
  induction s1 as [|c1 t1 IH]; intros s2; cbn [_stricmp].
  - rewrite content_nil. split.
    + intros H. assert (hd 0 s2 = 0) as H0 by (apply tolower_zero; lia).
      by rewrite content_hd_zero.
    + intros H. destruct (decide (hd 0 s2 = 0)) as [H0|H0].
      * apply tolower_zero in H0. lia.
      * by rewrite content_hd_nonzero in H.
  - rewrite content_cons.
    destruct (tolower c1 =? tolower (hd 0 s2)) eqn:Heq.
    + apply Z.eqb_eq in Heq.
      destruct (tolower c1 =? 0) eqn:Hz.
      * apply Z.eqb_eq in Hz. assert (c1 = 0) as -> by by apply tolower_zero.
        assert (hd 0 s2 = 0) as H0 by (apply tolower_zero; lia).
        simpl. by rewrite content_hd_zero.
      * apply Z.eqb_neq in Hz.
        assert (c1 ≠ 0) as Hc1 by (by rewrite <-tolower_zero).
        assert (hd 0 s2 ≠ 0) as Hc2
          by (rewrite <-tolower_zero; by rewrite <-Heq).
        rewrite (proj2 (Z.eqb_neq _ _) Hc1), (content_hd_nonzero s2) by done.
        rewrite !fmap_cons, IH. split; [intros ->; by rewrite Heq|].
        by intros [= _ ?].
    + apply Z.eqb_neq in Heq. split; [lia|]. intros H. exfalso.
      destruct (c1 =? 0) eqn:Hc1.
      * apply Z.eqb_eq in Hc1 as ->.
        destruct (decide (hd 0 s2 = 0)) as [H0|H0].
        -- by rewrite H0 in Heq.
        -- by rewrite content_hd_nonzero in H.
      * destruct (decide (hd 0 s2 = 0)) as [H0|H0].
        -- by rewrite (content_hd_zero s2) in H.
        -- rewrite (content_hd_nonzero s2) in H by done.
           by injection H as H _.
Qed.

Lemma find_export_spec img functionName n : ∀ j,
  match find_export img functionName j n with
  | Some i =>
      j ≤ i < j + Z.of_nat n ∧ _stricmp (names img i) functionName = 0 ∧
      ∀ i', j ≤ i' < i → _stricmp (names img i') functionName ≠ 0
  | None =>
      ∀ i', j ≤ i' < j + Z.of_nat n →
            _stricmp (names img i') functionName ≠ 0
  end.
Proof.
  induction n as [|n IH]; intros j.
  - simpl. intros i' ?. lia.
  - cbn [find_export].
    destruct (_stricmp (names img j) functionName =? 0) eqn:Hj.
    + apply Z.eqb_eq in Hj. split; [lia|]. split; [done|]. intros i' ?. lia.
    + apply Z.eqb_neq in Hj. specialize (IH (j + 1)).
      destruct (find_export img functionName (j + 1) n) as [i|].
      * destruct IH as (Hi & Hm & Hfirst). split; [lia|]. split; [done|].
        intros i' Hi'. destruct (decide (i' = j)) as [->|Hne]; [done|].
        apply Hfirst. lia.
      * intros i' Hi'. destruct (decide (i' = j)) as [->|Hne]; [done|].
        apply IH. lia.
Qed.

(** X18: the export loop stops at the first name, in table order, that
    equals the function name up to the case of ASCII letters and up to the
    terminator of each string; it finds none only when no name of the table
    does. *)
Theorem find_export_first_match (img : image) (functionName : list Z) :
  match find_export img functionName 0 (Z.to_nat (NumberOfNames img)) with
  | Some j =>
      0 ≤ j < NumberOfNames img ∧ same_name (names img j) functionName ∧
      ∀ i, 0 ≤ i < j → ¬ same_name (names img i) functionName
  | None =>
      ∀ i, 0 ≤ i < NumberOfNames img →
           ¬ same_name (names img i) functionName
  end.
Proof.
  pose proof (find_export_spec img functionName
                (Z.to_nat (NumberOfNames img)) 0) as H.
  destruct (find_export img functionName 0 _) as [j|].
  - destruct H as (Hj & Hm & Hfirst). split; [lia|].
    split; [by apply _stricmp_zero|].
    intros i Hi Hs. apply (Hfirst i Hi). by apply _stricmp_zero.
  - intros i Hi Hs. apply (H i); [lia|]. by apply _stricmp_zero.
Qed.

Lemma find_export_first_match_witness :
  find_export sample_image (c_str (chars "foo")) 0
    (Z.to_nat (NumberOfNames sample_image)) = Some 1 ∧
  same_name (names sample_image 1) (c_str (chars "foo")) ∧
  ¬ same_name (names sample_image 0) (c_str (chars "foo")).
Proof.
  split; [reflexivity|].
  pose proof (find_export_first_match sample_image (c_str (chars "foo")))
    as H.
  change (find_export sample_image (c_str (chars "foo")) 0
            (Z.to_nat (NumberOfNames sample_image))) with (Some 1) in H.
  destruct H as (_ & Hname & Hfirst). split; [exact Hname|].
  apply Hfirst. lia.
Defined.

Lemma _wcsnicmp_prefix s1 : ∀ s2 s2' count (c : nat),
  count ≤ Z.of_nat c → take c s2 = take c s2' →
  _wcsnicmp s1 s2 count = _wcsnicmp s1 s2' count.
Proof.
  assert (∀ (c : nat) (s2 s2' : list Z), (0 < c)%nat →
            take c s2 = take c s2' → hd 0 s2 = hd 0 s2') as Hhd.
  { intros [|c] s2 s2' Hc; [lia|].
    destruct s2, s2'; simpl; intros H; by simplify_eq. }
  assert (∀ (c : nat) (s2 s2' : list Z),
            take (S c) s2 = take (S c) s2' →
            take c (tl s2) = take c (tl s2')) as Htl.
  { intros c s2 s2'. destruct s2, s2'; simpl; intros H; by simplify_eq. }
  induction s1 as [|c1 t1 IH]; intros s2 s2' count c Hc Htake.
  - destruct count as [|p|p]; simpl; try done.
    rewrite (Hhd c s2 s2'); [done|lia|done].
  - destruct (count <=? 0) eqn:Hle.
    + destruct count; simpl in *; done.
    + apply Z.leb_gt in Hle.
      assert (_wcsnicmp (c1 :: t1) s2 count
              = if tolower c1 =? tolower (hd 0 s2)
                then if tolower c1 =? 0 then 0
                     else _wcsnicmp t1 (tl s2) (count - 1)
                else tolower c1 - tolower (hd 0 s2)) as ->.
      { destruct count; simpl in *; done. }
      assert (_wcsnicmp (c1 :: t1) s2' count
              = if tolower c1 =? tolower (hd 0 s2')
                then if tolower c1 =? 0 then 0
                     else _wcsnicmp t1 (tl s2') (count - 1)
                else tolower c1 - tolower (hd 0 s2')) as ->.
      { destruct count; simpl in *; done. }
      rewrite (Hhd c s2 s2') by (done || lia).
      destruct c as [|c]; [lia|].
      rewrite (IH (tl s2) (tl s2') (count - 1) c); [done|lia|by apply Htl].
Qed.

(** X19: the module search compares only as many characters as the name
    of the entry has before its last four.  Two requested names that agree
    on their first [c] characters select the same module when no entry
    compares more than [c] characters; and an entry whose name has exactly
    four characters is selected for every requested name. *)
Theorem find_module_reads_prefix (entries : list LDR_DATA_TABLE_ENTRY)
    (name name' : list Z) (c : nat) :
  Forall (λ e, to_UINT64 (FullDllName_Length e / 2 - 4) ≤ Z.of_nat c)
         entries →
  take c name = take c name' →
  find_module entries name = find_module entries name' ∧
  ∀ e, FullDllName_Length e / 2 = 4 →
       find_module (e :: entries) name = DllBase e.
Proof.
  intros Hall Htake. split.
  - induction Hall as [|e rest He Hrest IH]; [done|]. simpl.
    by rewrite (_wcsnicmp_prefix _ name name' _ c He Htake), IH.
  - intros e He. simpl. rewrite He. by destruct (FullDllName_Buffer e).
Qed.

Lemma find_module_reads_prefix_witness :
  find_module sample_modules (chars "demons") = 0x7FF900000000 ∧
  find_module sample_modules (chars "demonstration") = 0x7FF900000000.
Proof.
  split; [reflexivity|].
  destruct (find_module_reads_prefix sample_modules
              (chars "demons") (chars "demonstration") 5) as [<- _].
  - unfold sample_modules. apply Forall_cons. split; [by vm_compute|].
    apply Forall_cons. split; [by vm_compute|]. by apply Forall_nil.
  - reflexivity.
  - reflexivity.
Defined.

(** ** The remote module patcher: whole runs *)

Lemma opens_app t1 t2 : opens (t1 ++ t2) = opens t1 ++ opens t2.
Proof. apply omap_app. Qed.

Lemma closes_app t1 t2 : closes (t1 ++ t2) = closes t1 ++ closes t2.
Proof. apply omap_app. Qed.

Lemma delays_app t1 t2 : delays (t1 ++ t2) = (delays t1 + delays t2)%nat.
Proof. unfold delays. by rewrite omap_app, length_app. Qed.

Lemma opens_replicate_delay n : opens (replicate n EvDelay) = [].
Proof. induction n; [done|]. by simpl. Qed.

Lemma closes_replicate_delay n : closes (replicate n EvDelay) = [].
Proof. induction n; [done|]. by simpl. Qed.

Lemma delays_replicate_delay n : delays (replicate n EvDelay) = n.
Proof.
  unfold delays. induction n as [|n IH]; [done|]. simpl. by f_equal.
Qed.

Local Ltac tally :=
  repeat split; simpl; first [ done | lia | by repeat constructor ].

Local Ltac no_copy :=
  simpl; rewrite ?copies_app; simpl;
  rewrite ?copies_app, ?copies_replicate_delay; simpl.

Section patch_runs.
Variables IMAGE_DOS_SIGNATURE IMAGE_NT_SIGNATURE : Z.
Variable PAGE_EXECUTE_READWRITE : Z.
Variable k : Kernel.

Local Abbreviation patch :=
  (PatchModule IMAGE_DOS_SIGNATURE IMAGE_NT_SIGNATURE
     PAGE_EXECUTE_READWRITE k).
Local Abbreviation search :=
  (locate IMAGE_DOS_SIGNATURE IMAGE_NT_SIGNATURE k).

(** X20: PatchModule writes past the end of a pool buffer in exactly one
    case: both routines are loaded, the three allocations succeed, and the
    patch string is longer than the function name with its terminator,
    which is the size of the buffer the third memcpy writes to. *)
Theorem PatchModule_overruns_iff (req : PatchedModule) :
  patch req = None ↔
  ZwProtectVirtualMemory_loaded k = true ∧
  MmCopyVirtualMemory_loaded k = true ∧
  ExAllocatePool k buf_moduleName = true ∧
  ExAllocatePool k buf_functionName = true ∧
  ExAllocatePool k buf_patch = true ∧
  strlen (FunctionName req) + 1 < strlen (Patch req).
Proof.
  unfold PatchModule. rewrite memcpy_c_str_self.
  destruct (ZwProtectVirtualMemory_loaded k); simpl;
    [|split; [done|by intros (? & _)]].
  destruct (MmCopyVirtualMemory_loaded k); simpl;
    [|split; [done|by intros (_ & ? & _)]].
  destruct (ExAllocatePool k buf_moduleName); simpl;
    [|split; [done|by intros (_ & _ & ? & _)]].
  destruct (ExAllocatePool k buf_functionName); simpl;
    [|split; [done|by intros (_ & _ & _ & ? & _)]].
  destruct (ExAllocatePool k buf_patch); simpl;
    [|split; [done|by intros (_ & _ & _ & _ & ? & _)]].
  destruct (strlen (Patch req) <=? strlen (FunctionName req) + 1) eqn:Hlen;
    simpl.
  - apply Z.leb_le in Hlen.
    destruct (PsLookupProcessByProcessId k (Pid req)) as [lst tp].
    split; [|intros (_ & _ & _ & _ & _ & ?); lia].
    destruct (negb (lst =? STATUS_SUCCESS)); [done|].
    by destruct (patch_attached _ _ _ _ _ _ _).
  - apply Z.leb_gt in Hlen. split; [|done]. intros _. repeat split. lia.
Qed.

Lemma apply_patch_footprint TargetProcess base j :
  let t := (apply_patch PAGE_EXECUTE_READWRITE k TargetProcess base j).2 in
  opens t = closes t ∧ (length (opens t) ≤ 1)%nat ∧
  (length (copies t) ≤ 1)%nat ∧ (length (protects t) ≤ 2)%nat ∧
  delays t = O ∧ Forall (λ c, c.1.1.1.2 = TargetProcess) (copies t).
Proof.
  unfold apply_patch.
  destruct (ObOpenObjectByPointer k TargetProcess) as [ost h].
  destruct (negb (ost =? STATUS_SUCCESS)); simpl;
    [tally|].
  destruct (ZwProtectVirtualMemory k h _ 6 PAGE_EXECUTE_READWRITE)
    as [[[status fa] len] old].
  destruct (negb (status =? STATUS_SUCCESS)); simpl;
    [tally|].
  destruct (ZwProtectVirtualMemory k h fa len old) as [[[rst ?] ?] ?].
  simpl. repeat split; try lia. by repeat constructor.
Qed.

Lemma patch_attached_footprint TargetProcess moduleName functionName :
  let t := (patch_attached IMAGE_DOS_SIGNATURE IMAGE_NT_SIGNATURE
              PAGE_EXECUTE_READWRITE k TargetProcess moduleName
              functionName).2 in
  opens t = closes t ∧ (length (opens t) ≤ 1)%nat ∧
  (length (copies t) ≤ 1)%nat ∧ (length (protects t) ≤ 2)%nat ∧
  (delays t ≤ 10)%nat ∧ Forall (λ c, c.1.1.1.2 = TargetProcess) (copies t).
Proof.
  unfold patch_attached.
  pose proof (locate_delays IMAGE_DOS_SIGNATURE IMAGE_NT_SIGNATURE k
                TargetProcess moduleName functionName) as Hd.
  destruct (search TargetProcess moduleName functionName) as [d found].
  cbn [fst] in Hd.
  assert (d ≤ 10)%nat as Hle.
  { rewrite Hd. destruct (PsGetProcessPeb k TargetProcess); [|lia].
    destruct (wait_loader_spec k 10 0) as [Hw _].
    set (w := wait_loader k 10 0) in *. lia. }
  destruct found as [| |base j]; simpl;
    rewrite ?opens_replicate_delay, ?closes_replicate_delay,
      ?copies_replicate_delay, ?protects_replicate_delay,
      ?delays_replicate_delay;
    try solve [tally].
  pose proof (apply_patch_footprint TargetProcess base j) as Hbody.
  destruct (apply_patch _ _ _ _ _) as [status body]. simpl in *.
  rewrite opens_app, closes_app, copies_app, protects_app, delays_app,
    opens_replicate_delay, closes_replicate_delay, copies_replicate_delay,
    protects_replicate_delay, delays_replicate_delay.
  simpl. destruct Hbody as (? & ? & ? & ? & -> & ?).
  repeat split; (done || lia).
Qed.

(** X21: whatever PatchModule returns, every handle it opened it also
    closed, in the same order; it opened at most one handle, made at most
    one copy and at most two protection changes, and waited at most ten
    times; and each copy went to the process the pid was looked up to. *)
Theorem PatchModule_footprint (req : PatchedModule) (st : NTSTATUS)
    (t : list event) :
  patch req = Some (st, t) →
  opens t = closes t ∧ (length (opens t) ≤ 1)%nat ∧
  (length (copies t) ≤ 1)%nat ∧ (length (protects t) ≤ 2)%nat ∧
  (delays t ≤ 10)%nat ∧
  Forall (λ c, c.1.1.1.2 = (PsLookupProcessByProcessId k (Pid req)).2)
         (copies t).
Proof.
  unfold PatchModule.
  destruct (ZwProtectVirtualMemory_loaded k); simpl;
    [|intros [= <- <-]; tally].
  destruct (MmCopyVirtualMemory_loaded k); simpl;
    [|intros [= <- <-]; tally].
  destruct (ExAllocatePool k buf_moduleName); simpl;
    [|intros [= <- <-]; tally].
  destruct (ExAllocatePool k buf_functionName); simpl;
    [|intros [= <- <-]; tally].
  destruct (ExAllocatePool k buf_patch); simpl;
    [|intros [= <- <-]; tally].
  destruct (memcpy _ _ _) as [functionName|]; simpl; [|done].
  destruct (PsLookupProcessByProcessId k (Pid req)) as [lst tp]. simpl.
  destruct (negb (lst =? STATUS_SUCCESS)).
  - intros [= <- <-]. destruct (NT_SUCCESS lst); tally.
  - pose proof (patch_attached_footprint tp (c_str (ModuleName req))
                  functionName) as Hbody.
    destruct (patch_attached _ _ _ _ _ _ _) as [status body].
    simpl in Hbody. intros [= <- <-].
    destruct Hbody as (Ho & Hn & Hc & Hp & Hd & Hall).
    unfold delays in *.
    destruct (NT_SUCCESS lst); simpl;
      rewrite ?opens_app, ?closes_app, ?copies_app, ?protects_app,
        ?omap_app; simpl; rewrite ?app_nil_r, ?Nat.add_0_r; done.
Qed.
Lemma locate_resolved TargetProcess moduleName functionName d base j :
  search TargetProcess moduleName functionName = (d, Resolved base j) →
  PsGetProcessPeb k TargetProcess = true ∧
  (∃ modules, LoaderData k d = Some modules ∧
              base = find_module modules moduleName) ∧
  base ≠ 0 ∧
  e_magic (image_at k base) = IMAGE_DOS_SIGNATURE ∧
  nt_Signature (image_at k base) = IMAGE_NT_SIGNATURE ∧
  export_VirtualAddress (image_at k base) ≠ 0 ∧
  find_export (image_at k base) functionName 0
    (Z.to_nat (NumberOfNames (image_at k base))) = Some j.
Proof.
  unfold locate.
  destruct (PsGetProcessPeb k TargetProcess); cbn [negb]; [|done].
  cbv zeta.
  destruct (LoaderData k (wait_loader k 10 0)) as [modules|] eqn:Hl;
    [|done].
  destruct (find_module modules moduleName =? 0) eqn:Hb; [done|]. simpl.
  destruct (e_magic _ =? IMAGE_DOS_SIGNATURE) eqn:Hdos; simpl; [|done].
  destruct (nt_Signature _ =? IMAGE_NT_SIGNATURE) eqn:Hnt; simpl; [|done].
  destruct (export_VirtualAddress _ =? 0) eqn:Hexp; [done|].
  destruct (find_export _ _ _ _) as [i|] eqn:Hfind; [|done].
  intros [= <- <- <-].
  split; [done|]. split; [by exists modules|].
  split; [by apply Z.eqb_neq|]. split; [by apply Z.eqb_eq|].
  split; [by apply Z.eqb_eq|]. split; [by apply Z.eqb_neq|done].
Qed.

(** X22: a function that the module does not export is not told from a
    patched one.  When the routines are loaded, the allocations succeed
    and the lookup of the pid succeeds, a search that ends without a
    matching export makes PatchModule return STATUS_SUCCESS, and a search
    that is given up makes it return STATUS_UNSUCCESSFUL; in both cases it
    opens no handle, changes no protection and copies nothing, frees its
    buffers and detaches. *)
Theorem PatchModule_without_match (req : PatchedModule) (st : NTSTATUS)
    (t : list event) (tp : Z) (d : nat) (found : located) :
  ZwProtectVirtualMemory_loaded k = true →
  MmCopyVirtualMemory_loaded k = true →
  (∀ b, ExAllocatePool k b = true) →
  patch req = Some (st, t) →
  PsLookupProcessByProcessId k (Pid req) = (STATUS_SUCCESS, tp) →
  search tp (c_str (ModuleName req)) (c_str (FunctionName req))
  = (d, found) →
  (∀ base j, found ≠ Resolved base j) →
  st = (if found is NoMatch then STATUS_SUCCESS else STATUS_UNSUCCESSFUL) ∧
  opens t = [] ∧ protects t = [] ∧ copies t = [] ∧ delays t = d ∧
  pool_live t [] = [] ∧ attach_depth t = 0.
Proof.
  intros Hz Hc Hall Hrun Hlook Hsearch Hfound.
  revert Hrun. unfold PatchModule.
  rewrite Hz, Hc, !Hall, Hlook, memcpy_c_str_self. simpl.
  destruct (strlen (Patch req) <=? strlen (FunctionName req) + 1);
    simpl; [|done].
  unfold patch_attached. rewrite Hsearch.
  destruct found as [| |base j]; [| |by destruct (Hfound base j)];
    intros [= <- <-]; (split; [done|]);
    unfold delays; simpl;
    rewrite ?opens_app, ?protects_app, ?copies_app, ?omap_app,
      ?pool_live_app, ?attach_depth_app;
    simpl;
    rewrite ?opens_replicate_delay, ?protects_replicate_delay,
      ?copies_replicate_delay;
    pose proof (delays_replicate_delay d) as Hd; unfold delays in Hd;
    rewrite ?(neutral_pool_live (replicate d EvDelay)),
      ?(neutral_attach_depth (replicate d EvDelay))
      by (apply Forall_replicate; exact I);
    rewrite ?app_nil_r, ?Hd; by repeat split.
Qed.

(** X23: PatchModule copies into the target only after everything on the
    way succeeded: the pid was looked up with STATUS_SUCCESS, the process
    has a PEB, the search ended at an export of a module mapped at a
    non-null base with both signatures and an export directory, the name
    of that export equals the function name up to case, the handle was
    opened and the protection was changed with STATUS_SUCCESS.  The single
    copy then goes to the address the protection call left, and its status
    is the status PatchModule returns. *)
Theorem PatchModule_copy_requires (req : PatchedModule) (st : NTSTATUS)
    (t : list event) :
  patch req = Some (st, t) →
  copies t ≠ [] →
  ∃ tp d base j h fa len old,
    let img := image_at k base in
    PsLookupProcessByProcessId k (Pid req) = (STATUS_SUCCESS, tp) ∧
    PsGetProcessPeb k tp = true ∧
    search tp (c_str (ModuleName req)) (c_str (FunctionName req))
    = (d, Resolved base j) ∧
    base ≠ 0 ∧ e_magic img = IMAGE_DOS_SIGNATURE ∧
    nt_Signature img = IMAGE_NT_SIGNATURE ∧
    export_VirtualAddress img ≠ 0 ∧
    0 ≤ j < NumberOfNames img ∧
    same_name (names img j) (c_str (FunctionName req)) ∧
    ObOpenObjectByPointer k tp = (STATUS_SUCCESS, h) ∧
    ZwProtectVirtualMemory k h (base + addresses img (ordinals img j)) 6
      PAGE_EXECUTE_READWRITE = (STATUS_SUCCESS, fa, len, old) ∧
    copies t = [(testPatch, tp, fa, 6, st)] ∧
    st = MmCopyVirtualMemory k.
Proof.
  unfold PatchModule. rewrite memcpy_c_str_self.
  destruct (ZwProtectVirtualMemory_loaded k); simpl;
    [|by intros [= <- <-]].
  destruct (MmCopyVirtualMemory_loaded k); simpl; [|by intros [= <- <-]].
  destruct (ExAllocatePool k buf_moduleName); simpl;
    [|by intros [= <- <-]].
  destruct (ExAllocatePool k buf_functionName); simpl;
    [|by intros [= <- <-]].
  destruct (ExAllocatePool k buf_patch); simpl; [|by intros [= <- <-]].
  destruct (strlen (Patch req) <=? strlen (FunctionName req) + 1);
    simpl; [|done].
  destruct (PsLookupProcessByProcessId k (Pid req)) as [lst tp]. simpl.
  destruct (lst =? STATUS_SUCCESS) eqn:Hlst; simpl;
    [|intros [= <- <-]; by destruct (NT_SUCCESS lst)].
  apply Z.eqb_eq in Hlst as ->. simpl.
  unfold patch_attached.
  destruct (search tp (c_str (ModuleName req)) (c_str (FunctionName req)))
    as [d found] eqn:Hsearch.
  destruct found as [| |base j].
  - intros [= <- <-]. no_copy. intros Hne. by destruct Hne.
  - intros [= <- <-]. no_copy. intros Hne. by destruct Hne.
  - destruct (locate_resolved _ _ _ _ _ _ Hsearch)
      as (Hpeb & _ & Hbase & Hdos & Hnt & Hexp & Hfind).
    pose proof (find_export_spec (image_at k base)
                  (c_str (FunctionName req))
                  (Z.to_nat (NumberOfNames (image_at k base))) 0) as Hfirst.
    rewrite Hfind in Hfirst. destruct Hfirst as (Hj & Hname & _).
    apply _stricmp_zero in Hname.
    assert (0 ≤ j < NumberOfNames (image_at k base)) as Hj' by lia.
    clear Hj.
    unfold apply_patch.
    destruct (ObOpenObjectByPointer k tp) as [ost h] eqn:Hopen.
    destruct (ost =? STATUS_SUCCESS) eqn:Host; simpl.
    2:{ intros [= <- <-]. no_copy. intros Hne. by destruct Hne. }
    apply Z.eqb_eq in Host as ->.
    destruct (ZwProtectVirtualMemory k h _ 6 PAGE_EXECUTE_READWRITE)
      as [[[status fa] len] old] eqn:Hprot.
    destruct (status =? STATUS_SUCCESS) eqn:Hst; simpl.
    2:{ intros [= <- <-]. no_copy. intros Hne. by destruct Hne. }
    apply Z.eqb_eq in Hst as ->.
    destruct (ZwProtectVirtualMemory k h fa len old) as [[[rst ?] ?] ?].
    intros [= <- <-] _.
    exists tp, d, base, j, h, fa, len, old. simpl.
    repeat (split; [done|]). split; [|done]. by no_copy.
Qed.
End patch_runs.

Lemma PatchModule_footprint_witness :
  ∃ t, PatchModule 0x5A4D 0x4550 0x40 good_kernel (sample_request testPatch)
       = Some (STATUS_SUCCESS, t) ∧
    opens t = closes t ∧ (length (copies t) ≤ 1)%nat ∧
    (delays t ≤ 10)%nat.
Proof.
  destruct (PatchModule 0x5A4D 0x4550 0x40 good_kernel
              (sample_request testPatch)) as [[st t]|] eqn:Hrun;
    [|by vm_compute in Hrun].
  destruct (PatchModule_footprint _ _ _ _ _ _ _ Hrun)
    as (Ho & _ & Hc & _ & Hd & _).
  assert (st = STATUS_SUCCESS) as ->
    by (vm_compute in Hrun; by injection Hrun as <- _).
  by exists t.
Defined.

Lemma PatchModule_without_match_witness :
  locate 0x5A4D 0x4550 good_kernel process_1234
    (c_str (chars "demo")) (c_str (chars "Qux")) = (0%nat, NoMatch) ∧
  ∃ t, PatchModule 0x5A4D 0x4550 0x40 good_kernel missing_request
       = Some (STATUS_SUCCESS, t) ∧
    opens t = [] ∧ protects t = [] ∧ copies t = [].
Proof.
  split; [reflexivity|].
  destruct (PatchModule 0x5A4D 0x4550 0x40 good_kernel missing_request)
    as [[st t]|] eqn:Hrun; [|by vm_compute in Hrun].
  destruct (PatchModule_without_match 0x5A4D 0x4550 0x40 good_kernel
              missing_request st t process_1234 0%nat NoMatch)
    as (-> & Ho & Hp & Hc & _).
  - reflexivity.
  - reflexivity.
  - intros b. reflexivity.
  - exact Hrun.
  - reflexivity.
  - reflexivity.
  - done.
  - by exists t.
Defined.

Lemma PatchModule_copy_requires_witness :
  ∃ t, PatchModule 0x5A4D 0x4550 0x40 good_kernel (sample_request testPatch)
       = Some (STATUS_SUCCESS, t) ∧
    copies t ≠ [] ∧
    ∃ d base j,
      locate 0x5A4D 0x4550 good_kernel process_1234
        (c_str (chars "demo")) (c_str (chars "Foo"))
      = (d, Resolved base j) ∧
      e_magic (image_at good_kernel base) = 0x5A4D ∧
      same_name (names (image_at good_kernel base) j) (c_str (chars "Foo")).
Proof.
  destruct (PatchModule 0x5A4D 0x4550 0x40 good_kernel
              (sample_request testPatch)) as [[st t]|] eqn:Hrun;
    [|by vm_compute in Hrun].
  assert (st = STATUS_SUCCESS ∧ copies t ≠ []) as [-> Hne].
  { vm_compute in Hrun. injection Hrun as <- <-. by split. }
  destruct (PatchModule_copy_requires _ _ _ _ _ _ _ Hrun Hne)
    as (tp & d & base & j & h & fa & len & old & Hlook & _ & Hsearch & _ &
        Hdos & _ & _ & _ & Hname & _).
  injection Hlook as <-.
  exists t. split; [done|]. split; [done|]. by exists d, base, j.
Defined.

Lemma PatchModule_overruns_iff_witness :
  strlen (FunctionName (sample_request [1; 2; 3; 4; 5; 6; 7])) + 1
  < strlen (Patch (sample_request [1; 2; 3; 4; 5; 6; 7])) ∧
  PatchModule 0x5A4D 0x4550 0x40 good_kernel
    (sample_request [1; 2; 3; 4; 5; 6; 7]) = None.
Proof.
  assert (strlen (FunctionName (sample_request [1; 2; 3; 4; 5; 6; 7])) + 1
          < strlen (Patch (sample_request [1; 2; 3; 4; 5; 6; 7]))) as Hlen
    by (by vm_compute).
  split; [exact Hlen|].
  apply (PatchModule_overruns_iff 0x5A4D 0x4550 0x40 good_kernel).
  repeat (split; [reflexivity|]). exact Hlen.
Defined.
